(** * Ground-based laser debris removal: physics core and mission planner

    A shallow embedding of the numerical core of the repository
    (the physics module with [momentumCouplingCoefficient],
    [ThermalBudgetTracker], [simulateLaserPass], [calculateMissionCost];
    the orbital-mechanics module with [trackPerigeeEvolution]; the map
    module with [calculateVisibilityWindows]) and the properties proved
    about it.  The embedding also covers the removal campaign
    ([calculateAdaptiveRepRate], [planRemovalCampaign]), the validation
    and estimation of debris properties, the state-vector functions of
    the orbital-mechanics module, [getAllPasses], and the mission
    planner of the front end ([runMissionSimulation]).

    Numbers.  A JavaScript number is modelled by [JS.num]: an exact real
    extended with the three IEEE special values [PInf], [NInf], [NaN].
    The arithmetic follows IEEE 754 on the special values (division by
    zero, [0/0], [Infinity - Infinity], comparisons with [NaN], ...);
    rounding of finite results is abstracted (finite results are exact
    reals, so there is no overflow either), and there is one zero: a
    nonzero finite number divided by zero yields the infinity of the
    dividend's sign, as for [+0].  Equalities between finite results
    hold of the code up to rounding; the properties of the perigee, of
    the orbital change and of the pulse budgets are stated away from the
    inputs where the rounding decides the result (a burn too small to
    change the speed, a circular orbit, a quotient that is a whole
    number).  Overflow is modelled in one place, by [JS.overflow]: in the
    cost estimator of the front end, whose file is not among the sources
    and which is modelled from the specification ([CostEstimator]). *)

From Stdlib Require Import Reals Lra Lia ZArith String List Bool Sorting.
From Stdlib Require Import Permutation.
Import ListNotations.

Local Open Scope R_scope.

(* ================================================================= *)
(** ** JavaScript numbers *)

Module JS.

Inductive num : Type :=
| Fin (x : R)
| PInf
| NInf
| NaN.

Definition Rltb (x y : R) : bool := if Rlt_dec x y then true else false.
Definition Rleb (x y : R) : bool := if Rle_dec x y then true else false.

Definition is_nan (a : num) : bool :=
  match a with NaN => true | _ => false end.

Definition is_finite (a : num) : bool :=
  match a with Fin _ => true | _ => false end.

Definition neg (a : num) : num :=
  match a with
  | Fin x => Fin (- x)
  | PInf => NInf
  | NInf => PInf
  | NaN => NaN
  end.

Definition add (a b : num) : num :=
  match a, b with
  | NaN, _ => NaN
  | _, NaN => NaN
  | Fin x, Fin y => Fin (x + y)
  | PInf, NInf => NaN
  | NInf, PInf => NaN
  | PInf, _ => PInf
  | _, PInf => PInf
  | NInf, _ => NInf
  | _, NInf => NInf
  end.

Definition sub (a b : num) : num := add a (neg b).

(** An infinity [i] multiplied by the finite real [x]. *)
Definition scale_inf (i : num) (x : R) : num :=
  if Rlt_dec 0 x then i else if Rlt_dec x 0 then neg i else NaN.

Definition mul (a b : num) : num :=
  match a, b with
  | NaN, _ => NaN
  | _, NaN => NaN
  | Fin x, Fin y => Fin (x * y)
  | Fin x, PInf => scale_inf PInf x
  | Fin x, NInf => scale_inf NInf x
  | PInf, Fin y => scale_inf PInf y
  | NInf, Fin y => scale_inf NInf y
  | PInf, PInf => PInf
  | NInf, NInf => PInf
  | PInf, NInf => NInf
  | NInf, PInf => NInf
  end.

Definition div (a b : num) : num :=
  match a, b with
  | NaN, _ => NaN
  | _, NaN => NaN
  | Fin x, Fin y =>
      if Req_dec_T y 0
      then (if Rlt_dec 0 x then PInf else if Rlt_dec x 0 then NInf else NaN)
      else Fin (x / y)
  | Fin _, PInf => Fin 0
  | Fin _, NInf => Fin 0
  | PInf, Fin y => if Rlt_dec y 0 then NInf else PInf
  | NInf, Fin y => if Rlt_dec y 0 then PInf else NInf
  | PInf, PInf => NaN
  | PInf, NInf => NaN
  | NInf, PInf => NaN
  | NInf, NInf => NaN
  end.

(** [a < b] and [a <= b]; every comparison with [NaN] is false. *)
Definition ltb (a b : num) : bool :=
  match a, b with
  | NaN, _ => false
  | _, NaN => false
  | Fin x, Fin y => Rltb x y
  | Fin _, PInf => true
  | Fin _, NInf => false
  | PInf, _ => false
  | NInf, NInf => false
  | NInf, _ => true
  end.

Definition leb (a b : num) : bool :=
  match a, b with
  | NaN, _ => false
  | _, NaN => false
  | Fin x, Fin y => Rleb x y
  | Fin _, PInf => true
  | Fin _, NInf => false
  | PInf, PInf => true
  | PInf, _ => false
  | NInf, _ => true
  end.

Definition gtb (a b : num) : bool := ltb b a.
Definition geb (a b : num) : bool := leb b a.

(** [a === b] on numbers: [NaN] is not equal to itself. *)
Definition eqb (a b : num) : bool :=
  match a, b with
  | Fin x, Fin y => if Req_dec_T x y then true else false
  | PInf, PInf => true
  | NInf, NInf => true
  | _, _ => false
  end.

(** [Math.max], [Math.min]: [NaN] as soon as one argument is. *)
Definition Math_max (a b : num) : num :=
  match a, b with
  | NaN, _ => NaN
  | _, NaN => NaN
  | _, _ => if ltb a b then b else a
  end.

Definition Math_min (a b : num) : num :=
  match a, b with
  | NaN, _ => NaN
  | _, NaN => NaN
  | _, _ => if ltb b a then b else a
  end.

Definition Math_floor (a : num) : num :=
  match a with
  | Fin x => Fin (IZR (Int_part x))
  | _ => a
  end.

Definition Math_abs (a : num) : num :=
  match a with
  | Fin x => Fin (Rabs x)
  | PInf => PInf
  | NInf => PInf
  | NaN => NaN
  end.

Definition Math_sqrt (a : num) : num :=
  match a with
  | Fin x => if Rlt_dec x 0 then NaN else Fin (sqrt x)
  | PInf => PInf
  | NInf => NaN
  | NaN => NaN
  end.

Definition Math_exp (a : num) : num :=
  match a with
  | Fin x => Fin (exp x)
  | PInf => PInf
  | NInf => Fin 0
  | NaN => NaN
  end.

Definition Math_log (a : num) : num :=
  match a with
  | Fin x =>
      if Rlt_dec x 0 then NaN
      else if Req_dec_T x 0 then NInf else Fin (ln x)
  | PInf => PInf
  | NInf => NaN
  | NaN => NaN
  end.

Definition Math_cos (a : num) : num :=
  match a with
  | Fin x => Fin (cos x)
  | _ => NaN
  end.

(** [Math.pow(a, n)] for a literal natural exponent [n]. *)
Fixpoint Math_pow (a : num) (n : nat) : num :=
  match n with
  | O => Fin 1
  | S O => a
  | S m => mul a (Math_pow a m)
  end.

Definition Math_PI : num := Fin PI.

(** [o || d] where [o] is a possibly missing numeric property: the
    default is taken when the property is absent, zero or [NaN]. *)
Definition or_default (o : option num) (d : num) : num :=
  match o with
  | None => d
  | Some NaN => d
  | Some (Fin x) => if Req_dec_T x 0 then d else Fin x
  | Some i => i
  end.

Definition Math_sin (a : num) : num :=
  match a with
  | Fin x => Fin (sin x)
  | _ => NaN
  end.

Definition Math_acos (a : num) : num :=
  match a with
  | Fin x =>
      if Rlt_dec x (-1) then NaN
      else if Rlt_dec 1 x then NaN else Fin (acos x)
  | _ => NaN
  end.

Definition Math_asin (a : num) : num :=
  match a with
  | Fin x =>
      if Rlt_dec x (-1) then NaN
      else if Rlt_dec 1 x then NaN else Fin (asin x)
  | _ => NaN
  end.

(** The angle of the point [(x, y)], in [(-PI, PI]]. *)
Definition atan2 (y x : R) : R :=
  if Rlt_dec 0 x then atan (y / x)
  else if Rlt_dec x 0 then
    (if Rle_dec 0 y then atan (y / x) + PI else atan (y / x) - PI)
  else if Rlt_dec 0 y then PI / 2
  else if Rlt_dec y 0 then - (PI / 2)
  else 0.

Definition Math_atan2 (y x : num) : num :=
  match y, x with
  | NaN, _ => NaN
  | _, NaN => NaN
  | Fin b, Fin a => Fin (atan2 b a)
  | Fin _, PInf => Fin 0
  | Fin b, NInf => if Rlt_dec b 0 then Fin (- PI) else Fin PI
  | PInf, Fin _ => Fin (PI / 2)
  | NInf, Fin _ => Fin (- (PI / 2))
  | PInf, PInf => Fin (PI / 4)
  | PInf, NInf => Fin (3 * PI / 4)
  | NInf, PInf => Fin (- (PI / 4))
  | NInf, NInf => Fin (- (3 * PI / 4))
  end.

(** [!a] on a number: zero and [NaN] are the falsy numbers. *)
Definition falsy (a : num) : bool :=
  match a with
  | Fin x => if Req_dec_T x 0 then true else false
  | NaN => true
  | _ => false
  end.

(** [Math.max(...l)]: [-Infinity] on the empty array. *)
Definition Math_max_list (l : list num) : num := fold_left Math_max l NInf.

(** Overflow, where it is modelled.  A result whose magnitude reaches
    [2^1024 - 2^970], halfway between the largest double and [2^1024],
    is an infinity; below that magnitude it is kept as it is. *)
Definition overflowThreshold : R := (2 - / 2 ^ 53) * 2 ^ 1023.

Definition overflow (a : num) : num :=
  match a with
  | Fin x =>
      if Rle_dec overflowThreshold x then PInf
      else if Rle_dec x (- overflowThreshold) then NInf
      else Fin x
  | _ => a
  end.

End JS.

Import JS.
Coercion Fin : R >-> num.

Declare Scope num_scope.
Delimit Scope num_scope with num.
Bind Scope num_scope with num.

Notation "a + b" := (add a b) : num_scope.
Notation "a - b" := (sub a b) : num_scope.
Notation "a * b" := (mul a b) : num_scope.
Notation "a / b" := (div a b) : num_scope.
Notation "- a" := (neg a) : num_scope.
Notation "a <? b" := (ltb a b) (at level 70, no associativity) : num_scope.
Notation "a <=? b" := (leb a b) (at level 70, no associativity) : num_scope.
Notation "a >? b" := (gtb a b) (at level 70, no associativity) : num_scope.
Notation "a >=? b" := (geb a b) (at level 70, no associativity) : num_scope.
Notation "a =? b" := (eqb a b) (at level 70, no associativity) : num_scope.

(* ================================================================= *)
(** ** The physics module *)

Module Physics.
Local Open Scope num_scope.

(** *** [PHYSICS_CONSTANTS] *)

Module LASER.
Definition PULSE_ENERGY : num := 100e3.
Definition WAVELENGTH : num := 1030e-9.
Definition PULSE_DURATION : num := 5e-9.
Definition TRANSMITTER_DIAMETER : num := 4.0.
Definition BEAM_QUALITY : num := 1.2.
Definition MAX_REPETITION_RATE : num := 10.
End LASER.

Module ATMOSPHERE.
Definition TRANSMISSION_EFFICIENCY : num := 0.7.
End ATMOSPHERE.

Inductive Material : Type := ALUMINUM | STEEL | MLI.

Record MaterialProps : Type := mkMaterialProps {
  DENSITY : num;
  SPECIFIC_HEAT : num;
  MELTING_POINT : num;
  MAX_TEMP_RISE : num;
  THERMAL_CONDUCTIVITY : num
}.

Definition MATERIALS (m : Material) : MaterialProps :=
  match m with
  | ALUMINUM => mkMaterialProps 2700 900 933 100 237
  | STEEL => mkMaterialProps 7850 470 1811 200 50
  | MLI => mkMaterialProps 100 1000 600 80 0.05
  end.

Module ORBITAL.
Definition EARTH_RADIUS : num := 6371e3.
Definition EARTH_MU : num := 3.986004418e14.
Definition REENTRY_ALTITUDE : num := 200e3.
End ORBITAL.

Module SAFETY.
Definition MAX_SOLAR_CONSTANT_MULTIPLIER : num := 100.
Definition SOLAR_CONSTANT : num := 1361.
Definition COOLDOWN_SAFETY_FACTOR : num := 1.5.
Definition MIN_DEBRIS_SIZE : num := 0.1.
End SAFETY.

(** *** Laser-beam model *)

Definition momentumCouplingCoefficient (fluence : num) : num :=
  let fluenceJcm2 := fluence in
  if fluenceJcm2 <? 10 then
    5 + fluenceJcm2 * 0.5
  else if fluenceJcm2 <? 50 then
    10 + (fluenceJcm2 - 10) * 0.375
  else if fluenceJcm2 <? 150 then
    25 - (fluenceJcm2 - 50) * 0.05
  else
    Math_max 10 (20 - (fluenceJcm2 - 150) * 0.05).

Definition heatAbsorptionEfficiency (fluence : num) : num :=
  let fluenceJcm2 := fluence in
  if fluenceJcm2 <? 20 then
    0.7
  else if fluenceJcm2 <? 100 then
    0.7 - (fluenceJcm2 - 20) * 0.003
  else
    Math_max 0.3 (0.46 - (fluenceJcm2 - 100) * 0.001).

Definition calculateBeamRadius
    (distance wavelength transmitterDiameter beamQuality : num) : num :=
  let initialRadius := transmitterDiameter / 2 in
  let divergenceAngle :=
    (beamQuality * wavelength) / (Math_PI * initialRadius) in
  let rayleighRange :=
    (Math_PI * initialRadius * initialRadius) / (beamQuality * wavelength) in
  if distance >? 10 * rayleighRange then
    initialRadius + distance * divergenceAngle
  else
    let w0 := initialRadius in
    let w_z := w0 * Math_sqrt (1 + Math_pow (distance / rayleighRange) 2) in
    w_z.

Definition calculateFluence
    (pulseEnergy beamRadius atmosphericTransmission : num) : num :=
  let deliveredEnergy := pulseEnergy * atmosphericTransmission in
  let beamArea := Math_PI * beamRadius * beamRadius in
  let fluenceJm2 := deliveredEnergy / beamArea in
  let fluenceJcm2 := fluenceJm2 / 10000 in
  fluenceJcm2.

Definition calculateIntensity
    (pulseEnergy pulseDuration beamRadius : num) : num :=
  let peakPower := pulseEnergy / pulseDuration in
  let beamArea := Math_PI * beamRadius * beamRadius in
  let intensityWm2 := peakPower / beamArea in
  intensityWm2 / 10000.

Definition calculateDeltaV (pulseEnergy mass fluence : num) : num :=
  let cm := momentumCouplingCoefficient fluence in
  let cmSI := cm * 1e-6 in
  let momentum := cmSI * pulseEnergy in
  let deltaV := momentum / mass in
  deltaV.

Definition calculateCumulativeDeltaV
    (pulsesPerPass pulseEnergy mass fluence : num) : num :=
  let singlePulseDeltaV := calculateDeltaV pulseEnergy mass fluence in
  singlePulseDeltaV * pulsesPerPass.

Definition calculateMaxPulsesPerPass
    (maxTempRise currentTemp fluence areaToMass specificHeat : num) : num :=
  let efficiency := heatAbsorptionEfficiency fluence in
  let fluenceJm2 := fluence * 10000 in
  let energyAbsorbedPerPulse := efficiency * fluenceJm2 in
  let tempRisePerPulse :=
    (areaToMass / specificHeat) * energyAbsorbedPerPulse in
  let maxPulses := Math_floor (maxTempRise / tempRisePerPulse) in
  Math_max 1 maxPulses.

(** *** Thermal budget tracker *)

(** Reason codes of refused heating and refused passes. *)
Inductive Reason : Type :=
| INTENSITY_TOO_HIGH
| THERMAL_LIMIT_REACHED
| MELTING_RISK
| TEMP_LIMIT_EXCEEDED.

Record HeatEntry : Type := mkHeatEntry {
  entry_timestamp : num;
  entry_temperature : num;
  entry_tempRise : num;
  entry_totalRise : num
}.

(** The fields of a [ThermalBudgetTracker] object. *)
Record ThermalBudgetTracker : Type := mkTracker {
  material : Material;
  mass : num;
  area : num;
  areaToMass : num;
  specificHeat : num;
  maxTempRise : num;
  meltingPoint : num;
  thermalConductivity : num;
  currentTemp : num;
  ambientTemp : num;
  heatHistory : list HeatEntry
}.

(** [new ThermalBudgetTracker(material, mass, area, initialTemp)] *)
Definition newThermalBudgetTracker
    (material0 : Material) (mass0 area0 initialTemp : num)
    : ThermalBudgetTracker :=
  let matProps := MATERIALS material0 in
  {| material := material0;
     mass := mass0;
     area := area0;
     areaToMass := area0 / mass0;
     specificHeat := SPECIFIC_HEAT matProps;
     maxTempRise := MAX_TEMP_RISE matProps;
     meltingPoint := MELTING_POINT matProps;
     thermalConductivity := THERMAL_CONDUCTIVITY matProps;
     currentTemp := initialTemp;
     ambientTemp := initialTemp;
     heatHistory := [] |}.

(** Assignment to [this.currentTemp]. *)
Definition set_currentTemp (this : ThermalBudgetTracker) (t : num)
    : ThermalBudgetTracker :=
  {| material := material this;
     mass := mass this;
     area := area this;
     areaToMass := areaToMass this;
     specificHeat := specificHeat this;
     maxTempRise := maxTempRise this;
     meltingPoint := meltingPoint this;
     thermalConductivity := thermalConductivity this;
     currentTemp := t;
     ambientTemp := ambientTemp this;
     heatHistory := heatHistory this |}.

(** [this.heatHistory.push(e)] *)
Definition push_heatHistory (this : ThermalBudgetTracker) (e : HeatEntry)
    : ThermalBudgetTracker :=
  {| material := material this;
     mass := mass this;
     area := area this;
     areaToMass := areaToMass this;
     specificHeat := specificHeat this;
     maxTempRise := maxTempRise this;
     meltingPoint := meltingPoint this;
     thermalConductivity := thermalConductivity this;
     currentTemp := currentTemp this;
     ambientTemp := ambientTemp this;
     heatHistory := heatHistory this ++ [e] |}.

Definition calculateTempRise
    (this : ThermalBudgetTracker) (numPulses fluence : num) : num :=
  let efficiency := heatAbsorptionEfficiency fluence in
  let fluenceJm2 := fluence * 10000 in
  let totalEnergyPerArea := efficiency * fluenceJm2 * numPulses in
  let deltaT := (areaToMass this / specificHeat this) * totalEnergyPerArea in
  deltaT.

(** The object returned by [applyHeating]. *)
Inductive HeatingResult : Type :=
| HeatingSuccess (newTemp tempRise totalRise safetyMargin : num)
| HeatingFailure (reason : Reason) (currentTemp0 attemptedTemp maxAllowed : num).

Definition heating_success (r : HeatingResult) : bool :=
  match r with HeatingSuccess _ _ _ _ => true | HeatingFailure _ _ _ _ => false end.

(** [applyHeating] returns its result object together with the tracker
    as the call leaves it. *)
Definition applyHeating
    (this : ThermalBudgetTracker) (numPulses fluence timestamp : num)
    : HeatingResult * ThermalBudgetTracker :=
  let tempRise := calculateTempRise this numPulses fluence in
  let newTemp := currentTemp this + tempRise in
  let totalTempRise := newTemp - ambientTemp this in
  let isSafe := totalTempRise <=? maxTempRise this in
  let wouldMelt := newTemp >=? meltingPoint this in
  if isSafe && negb wouldMelt then
    let this1 := set_currentTemp this newTemp in
    let this2 :=
      push_heatHistory this1
        (mkHeatEntry timestamp newTemp tempRise totalTempRise) in
    (HeatingSuccess newTemp tempRise totalTempRise
       (maxTempRise this - totalTempRise),
     this2)
  else
    (HeatingFailure
       (if wouldMelt then MELTING_RISK else TEMP_LIMIT_EXCEEDED)
       (currentTemp this) newTemp (ambientTemp this + maxTempRise this),
     this).

(** [applyCooling] returns the new temperature and the updated tracker. *)
Definition applyCooling (this : ThermalBudgetTracker) (cooldownTime : num)
    : num * ThermalBudgetTracker :=
  let sigma : num := 5.67e-8 in
  let emissivity : num := 0.8 in
  let coolingRate :=
    (emissivity * sigma * area this) / (mass this * specificHeat this) in
  let effectiveTimeConstant :=
    1 / (4 * coolingRate * Math_pow (currentTemp this) 3) in
  let tempDiff := currentTemp this - ambientTemp this in
  let newTempDiff :=
    tempDiff * Math_exp (- cooldownTime / effectiveTimeConstant) in
  let this1 := set_currentTemp this (ambientTemp this + newTempDiff) in
  (currentTemp this1, this1).

Record ThermalStatus : Type := mkThermalStatus {
  status_currentTemp : num;
  status_ambientTemp : num;
  status_tempRise : num;
  status_maxAllowedRise : num;
  status_safetyMargin : num;
  status_meltingPoint : num;
  status_distanceToMelting : num;
  status_isSafe : bool
}.

Definition getStatus (this : ThermalBudgetTracker) : ThermalStatus :=
  {| status_currentTemp := currentTemp this;
     status_ambientTemp := ambientTemp this;
     status_tempRise := currentTemp this - ambientTemp this;
     status_maxAllowedRise := maxTempRise this;
     status_safetyMargin :=
       maxTempRise this - (currentTemp this - ambientTemp this);
     status_meltingPoint := meltingPoint this;
     status_distanceToMelting := meltingPoint this - currentTemp this;
     status_isSafe :=
       (currentTemp this - ambientTemp this) <=? maxTempRise this |}.

Definition calculateRequiredCooldown
    (this : ThermalBudgetTracker) (plannedPulses fluence : num) : num :=
  let nextPassTempRise := calculateTempRise this plannedPulses fluence in
  let currentTempRise := currentTemp this - ambientTemp this in
  let availableMargin := maxTempRise this - currentTempRise in
  if nextPassTempRise <=? availableMargin then
    0
  else
    let requiredTemp :=
      ambientTemp this + (maxTempRise this - nextPassTempRise)
                         / SAFETY.COOLDOWN_SAFETY_FACTOR in
    let sigma : num := 5.67e-8 in
    let emissivity : num := 0.8 in
    let coolingRate :=
      (emissivity * sigma * area this) / (mass this * specificHeat this) in
    let effectiveTimeConstant :=
      1 / (4 * coolingRate * Math_pow (currentTemp this) 3) in
    let tempDiffCurrent := currentTemp this - ambientTemp this in
    let tempDiffRequired := requiredTemp - ambientTemp this in
    let cooldownTime :=
      - effectiveTimeConstant * Math_log (tempDiffRequired / tempDiffCurrent) in
    Math_max 0 cooldownTime.

(** *** Orbital changes of a single engagement *)

Record AltitudeChange : Type := mkAltitudeChange {
  alt_old : num;
  alt_new : num;
  alt_change : num
}.

Record OrbitalChanges : Type := mkOrbitalChanges {
  deltaSemiMajorAxis : num;
  deltaEccentricity : num;
  newSemiMajorAxis : num;
  newEccentricity : num;
  perigeeAltitude : AltitudeChange;
  apogeeAltitude : AltitudeChange
}.

Definition calculateOrbitalChanges
    (deltaV semiMajorAxis eccentricity trueAnomaly : num) : OrbitalChanges :=
  let mu := ORBITAL.EARTH_MU in
  let r := semiMajorAxis * (1 - eccentricity * eccentricity) /
           (1 + eccentricity * Math_cos trueAnomaly) in
  let v := Math_sqrt (mu * (2 / r - 1 / semiMajorAxis)) in
  let vNew := v + deltaV in
  let aNew := 1 / (2 / r - vNew * vNew / mu) in
  let hNew := r * vNew in
  let eNew := Math_sqrt (1 - hNew * hNew / (mu * aNew)) in
  let earthRadius := ORBITAL.EARTH_RADIUS in
  let perigeeOld := semiMajorAxis * (1 - eccentricity) - earthRadius in
  let apogeeOld := semiMajorAxis * (1 + eccentricity) - earthRadius in
  let perigeeNew := aNew * (1 - eNew) - earthRadius in
  let apogeeNew := aNew * (1 + eNew) - earthRadius in
  {| deltaSemiMajorAxis := aNew - semiMajorAxis;
     deltaEccentricity := eNew - eccentricity;
     newSemiMajorAxis := aNew;
     newEccentricity := eNew;
     perigeeAltitude :=
       mkAltitudeChange perigeeOld perigeeNew (perigeeNew - perigeeOld);
     apogeeAltitude :=
       mkAltitudeChange apogeeOld apogeeNew (apogeeNew - apogeeOld) |}.

Definition estimateReentryTime
    (perigeeAltitude0 apogeeAltitude0 ballisticCoefficient : num) : num :=
  let reentryAlt := ORBITAL.REENTRY_ALTITUDE in
  if perigeeAltitude0 <=? reentryAlt then
    0
  else
    let scaleHeight : num := 70000 in
    let rho0 : num := 4e-12 in
    let refAltitude : num := 400000 in
    let rho :=
      rho0 * Math_exp (- (perigeeAltitude0 - refAltitude) / scaleHeight) in
    let semiMajorAxis :=
      (perigeeAltitude0 + apogeeAltitude0) / 2 + ORBITAL.EARTH_RADIUS in
    let orbitalVelocity := Math_sqrt (ORBITAL.EARTH_MU / semiMajorAxis) in
    let decayRate :=
      (3 * Math_PI / 2) * (rho * orbitalVelocity * scaleHeight)
      / ballisticCoefficient in
    let altitudeDrop := perigeeAltitude0 - reentryAlt in
    let timeToReentry := altitudeDrop / decayRate in
    timeToReentry.

(** *** One laser pass *)

(** The debris object: its physical properties and orbital elements;
    [visibilityDuration], [ballisticCoefficient] and [cumulativeDeltaV]
    may be absent. *)
Record Debris : Type := mkDebris {
  debris_size : num;
  debris_mass : num;
  debris_area : num;
  debris_semiMajorAxis : num;
  debris_eccentricity : num;
  debris_perigeeAltitude : num;
  debris_apogeeAltitude : num;
  debris_visibilityDuration : option num;
  debris_ballisticCoefficient : option num;
  debris_cumulativeDeltaV : option num
}.

Record LaserParams : Type := mkLaserParams {
  pulseEnergy : num;
  wavelength : num;
  pulseDuration : num;
  transmitterDiameter : num;
  beamQuality : num;
  repetitionRate : num
}.

Inductive LimitingFactor : Type := THERMAL | TIME.

(** The object returned by a successful pass. *)
Record PassReport : Type := mkPassReport {
  report_timestamp : num;
  report_beamRadius : num;
  report_fluence : num;
  report_intensity : num;
  report_pulsesDelivered : num;
  report_maxPulsesByThermal : num;
  report_maxPulsesByTime : num;
  report_limitingFactor : LimitingFactor;
  report_deltaVPerPulse : num;
  report_totalDeltaV : num;
  report_cumulativeDeltaV : num;
  report_thermalResult : HeatingResult;
  report_thermalStatus : ThermalStatus;
  report_orbitalChanges : OrbitalChanges;
  report_updatedDebris : Debris;
  report_reentryAchieved : bool;
  report_timeToReentry : option num;
  report_perigeeReduction : num;
  report_momentumCouplingCoeff : num;
  report_heatEfficiency : num;
  report_energyDelivered : num
}.

(** What a refused pass carries besides its reason. *)
Inductive RefusalDetail : Type :=
| IntensityDetail (intensity maxIntensity : num)
| StatusDetail (thermalStatus : ThermalStatus)
| HeatingDetail (thermalResult : HeatingResult).

Inductive PassResult : Type :=
| PassFailure (reason : Reason) (detail : RefusalDetail)
| PassSuccess (report : PassReport).

Definition failure_reason (r : HeatingResult) : Reason :=
  match r with
  | HeatingFailure reason _ _ _ => reason
  | HeatingSuccess _ _ _ _ => TEMP_LIMIT_EXCEEDED
  end.

(** [simulateLaserPass] returns its result together with the tracker as
    the call leaves it; the [debris] argument is never written to (the
    updated elements are a fresh object inside a successful result). *)
Definition simulateLaserPass
    (debris : Debris) (laserParams : LaserParams) (distance : num)
    (thermalTracker : ThermalBudgetTracker) (timestamp : num)
    : PassResult * ThermalBudgetTracker :=
  let beamRadius :=
    calculateBeamRadius distance (wavelength laserParams)
      (transmitterDiameter laserParams) (beamQuality laserParams) in
  let fluence :=
    calculateFluence (pulseEnergy laserParams) beamRadius
      ATMOSPHERE.TRANSMISSION_EFFICIENCY in
  let intensity :=
    calculateIntensity (pulseEnergy laserParams) (pulseDuration laserParams)
      beamRadius in
  let maxIntensity :=
    SAFETY.SOLAR_CONSTANT * SAFETY.MAX_SOLAR_CONSTANT_MULTIPLIER / 10000 in
  if (debris_size debris >? 5) && (intensity >? maxIntensity) then
    (PassFailure INTENSITY_TOO_HIGH (IntensityDetail intensity maxIntensity),
     thermalTracker)
  else
  let maxPulses :=
    calculateMaxPulsesPerPass
      (maxTempRise thermalTracker
       - (currentTemp thermalTracker - ambientTemp thermalTracker))
      (currentTemp thermalTracker)
      fluence
      (debris_area debris / debris_mass debris)
      (specificHeat thermalTracker) in
  let passDuration := or_default (debris_visibilityDuration debris) 300 in
  let maxPulsesByTime :=
    Math_floor (passDuration * repetitionRate laserParams) in
  let actualPulses := Math_min maxPulses maxPulsesByTime in
  if actualPulses <? 1 then
    (PassFailure THERMAL_LIMIT_REACHED (StatusDetail (getStatus thermalTracker)),
     thermalTracker)
  else
  let (thermalResult, thermalTracker1) :=
    applyHeating thermalTracker actualPulses fluence timestamp in
  if negb (heating_success thermalResult) then
    (PassFailure (failure_reason thermalResult) (HeatingDetail thermalResult),
     thermalTracker1)
  else
  let deltaVSingle :=
    calculateDeltaV (pulseEnergy laserParams) (debris_mass debris) fluence in
  let totalDeltaV := deltaVSingle * actualPulses in
  let orbitalChanges :=
    calculateOrbitalChanges (- totalDeltaV)
      (debris_semiMajorAxis debris) (debris_eccentricity debris) Math_PI in
  let updatedDebris :=
    {| debris_size := debris_size debris;
       debris_mass := debris_mass debris;
       debris_area := debris_area debris;
       debris_semiMajorAxis := newSemiMajorAxis orbitalChanges;
       debris_eccentricity := newEccentricity orbitalChanges;
       debris_perigeeAltitude := alt_new (perigeeAltitude orbitalChanges);
       debris_apogeeAltitude := alt_new (apogeeAltitude orbitalChanges);
       debris_visibilityDuration := debris_visibilityDuration debris;
       debris_ballisticCoefficient := debris_ballisticCoefficient debris;
       debris_cumulativeDeltaV := debris_cumulativeDeltaV debris |} in
  let reentryAchieved :=
    alt_new (perigeeAltitude orbitalChanges) <=? ORBITAL.REENTRY_ALTITUDE in
  let timeToReentry :=
    if negb reentryAchieved then
      Some (estimateReentryTime
              (alt_new (perigeeAltitude orbitalChanges))
              (alt_new (apogeeAltitude orbitalChanges))
              (or_default (debris_ballisticCoefficient debris)
                 (debris_mass debris / (2.2 * debris_area debris))))
    else None in
  (PassSuccess
     {| report_timestamp := timestamp;
        report_beamRadius := beamRadius;
        report_fluence := fluence;
        report_intensity := intensity;
        report_pulsesDelivered := actualPulses;
        report_maxPulsesByThermal := maxPulses;
        report_maxPulsesByTime := maxPulsesByTime;
        report_limitingFactor :=
          if actualPulses =? maxPulses then THERMAL else TIME;
        report_deltaVPerPulse := deltaVSingle;
        report_totalDeltaV := totalDeltaV;
        report_cumulativeDeltaV :=
          or_default (debris_cumulativeDeltaV debris) 0 + totalDeltaV;
        report_thermalResult := thermalResult;
        report_thermalStatus := getStatus thermalTracker1;
        report_orbitalChanges := orbitalChanges;
        report_updatedDebris := updatedDebris;
        report_reentryAchieved := reentryAchieved;
        report_timeToReentry := timeToReentry;
        report_perigeeReduction :=
          - alt_change (perigeeAltitude orbitalChanges);
        report_momentumCouplingCoeff := momentumCouplingCoefficient fluence;
        report_heatEfficiency := heatAbsorptionEfficiency fluence;
        report_energyDelivered := pulseEnergy laserParams * actualPulses |},
   thermalTracker1).

(** *** Cost estimate *)

Record MissionCost : Type := mkMissionCost {
  electricityCost : num;
  operatingCost : num;
  totalCost : num;
  costPerKm : num;
  comparisonToSpacecraft : num
}.

Definition calculateMissionCost (totalEnergyGJ durationDays : num)
    : MissionCost :=
  let electricityCostPerKWh : num := 0.10 in
  let energyKWh := totalEnergyGJ * 277.778 in
  let electricityCost0 := energyKWh * electricityCostPerKWh in
  let operatingCostPerDay : num := 5000 in
  let operatingCost0 := operatingCostPerDay * durationDays in
  let totalCost0 := electricityCost0 + operatingCost0 in
  {| electricityCost := electricityCost0;
     operatingCost := operatingCost0;
     totalCost := totalCost0;
     costPerKm := totalCost0 / (durationDays * 10);
     comparisonToSpacecraft := 100e6 / totalCost0 |}.

(** *** Adaptive repetition rate *)

(** The [limitingFactor] of the adaptive rate: ['THERMAL'] or
    ['LASER_SYSTEM']. *)
Inductive RateLimit : Type := THERMAL_BOUND | LASER_SYSTEM.

Record AdaptiveRepRate : Type := mkAdaptiveRepRate {
  rate_repetitionRate : num;
  rate_pulsesPerPass : num;
  rate_thermalUtilization : num;
  rate_timeUtilization : num;
  rate_limitingFactor : RateLimit;
  rate_tempRisePerPulse : num;
  rate_totalTempRise : num
}.

(** The [debris] argument is not read. *)
Definition calculateAdaptiveRepRate
    (debris : Debris) (fluence : num) (thermalTracker : ThermalBudgetTracker)
    (passDuration : num) : AdaptiveRepRate :=
  let maxRepRate := LASER.MAX_REPETITION_RATE in
  let tempRisePerPulse := calculateTempRise thermalTracker 1 fluence in
  let currentRise :=
    currentTemp thermalTracker - ambientTemp thermalTracker in
  let availableMargin := maxTempRise thermalTracker - currentRise in
  let maxPulsesByTemp := Math_floor (availableMargin / tempRisePerPulse) in
  let idealRepRate := maxPulsesByTemp / passDuration in
  let actualRepRate := Math_min idealRepRate maxRepRate in
  let actualPulses := Math_floor (actualRepRate * passDuration) in
  let thermalUtilization :=
    (actualPulses * tempRisePerPulse) / availableMargin in
  let timeUtilization := actualRepRate / maxRepRate in
  {| rate_repetitionRate := actualRepRate;
     rate_pulsesPerPass := actualPulses;
     rate_thermalUtilization := Math_min thermalUtilization 1.0;
     rate_timeUtilization := timeUtilization;
     rate_limitingFactor :=
       if thermalUtilization >=? 0.95 then THERMAL_BOUND else LASER_SYSTEM;
     rate_tempRisePerPulse := tempRisePerPulse;
     rate_totalTempRise := actualPulses * tempRisePerPulse |}.

(** *** The removal campaign *)

(** An element of [passResults]: a pass skipped for want of cooldown
    (reason ['INSUFFICIENT_COOLDOWN']), a pass the simulation refused, or
    an engaged pass with the result of the simulation. *)
Inductive CampaignPass : Type :=
| CooldownSkip (passNumber : nat)
    (timestamp requiredCooldown actualCooldown : num)
    (thermalStatus : ThermalStatus)
| RefusedPass (passNumber : nat) (timestamp : num) (reason : Reason)
    (thermalStatus : ThermalStatus)
| EngagedPass (passNumber : nat) (timestamp : num) (report : PassReport)
    (repRateInfo : AdaptiveRepRate).

Definition skipped (p : CampaignPass) : bool :=
  match p with
  | EngagedPass _ _ _ _ => false
  | _ => true
  end.

(** The variables the campaign loop assigns to. *)
Record CampaignState : Type := mkCampaignState {
  loop_thermalTracker : ThermalBudgetTracker;
  loop_currentDebris : Debris;
  loop_passResults : list CampaignPass;
  loop_totalPulses : num;
  loop_totalEnergy : num;
  loop_missionComplete : bool
}.

Definition set_cumulativeDeltaV (d : Debris) (v : num) : Debris :=
  {| debris_size := debris_size d;
     debris_mass := debris_mass d;
     debris_area := debris_area d;
     debris_semiMajorAxis := debris_semiMajorAxis d;
     debris_eccentricity := debris_eccentricity d;
     debris_perigeeAltitude := debris_perigeeAltitude d;
     debris_apogeeAltitude := debris_apogeeAltitude d;
     debris_visibilityDuration := debris_visibilityDuration d;
     debris_ballisticCoefficient := debris_ballisticCoefficient d;
     debris_cumulativeDeltaV := Some v |}.

(** Assignment to [cumulativeDeltaV] of the object that
    [passResult.updatedDebris] refers to: the stored pass result shares
    that object. *)
Definition set_updatedDebris (r : PassReport) (d : Debris) : PassReport :=
  {| report_timestamp := report_timestamp r;
     report_beamRadius := report_beamRadius r;
     report_fluence := report_fluence r;
     report_intensity := report_intensity r;
     report_pulsesDelivered := report_pulsesDelivered r;
     report_maxPulsesByThermal := report_maxPulsesByThermal r;
     report_maxPulsesByTime := report_maxPulsesByTime r;
     report_limitingFactor := report_limitingFactor r;
     report_deltaVPerPulse := report_deltaVPerPulse r;
     report_totalDeltaV := report_totalDeltaV r;
     report_cumulativeDeltaV := report_cumulativeDeltaV r;
     report_thermalResult := report_thermalResult r;
     report_thermalStatus := report_thermalStatus r;
     report_orbitalChanges := report_orbitalChanges r;
     report_updatedDebris := d;
     report_reentryAchieved := report_reentryAchieved r;
     report_timeToReentry := report_timeToReentry r;
     report_perigeeReduction := report_perigeeReduction r;
     report_momentumCouplingCoeff := report_momentumCouplingCoeff r;
     report_heatEfficiency := report_heatEfficiency r;
     report_energyDelivered := report_energyDelivered r |}.

(** The body of the campaign loop for pass [i] at [timestamp];
    [previous] is [passTimes[i - 1]], absent for [i = 0]. *)
Definition campaignStep
    (laserParams : LaserParams) (st : CampaignState) (i : nat)
    (previous : option num) (timestamp : num) : CampaignState :=
  let thermalTracker0 := loop_thermalTracker st in
  let currentDebris := loop_currentDebris st in
  let thermalTracker :=
    match previous with
    | Some before => snd (applyCooling thermalTracker0 (timestamp - before))
    | None => thermalTracker0
    end in
  let avgAltitude :=
    (debris_perigeeAltitude currentDebris
     + debris_apogeeAltitude currentDebris) / 2 in
  let distance := avgAltitude + 100e3 in
  let beamRadius :=
    calculateBeamRadius distance (wavelength laserParams)
      (transmitterDiameter laserParams) (beamQuality laserParams) in
  let fluence :=
    calculateFluence (pulseEnergy laserParams) beamRadius
      ATMOSPHERE.TRANSMISSION_EFFICIENCY in
  let repRateResult :=
    calculateAdaptiveRepRate currentDebris fluence thermalTracker
      (or_default (debris_visibilityDuration currentDebris) 300) in
  let requiredCooldown :=
    calculateRequiredCooldown thermalTracker
      (rate_pulsesPerPass repRateResult) fluence in
  let insufficient :=
    match previous with
    | Some before => requiredCooldown >? (timestamp - before)
    | None => false
    end in
  if insufficient then
    {| loop_thermalTracker := thermalTracker;
       loop_currentDebris := currentDebris;
       loop_passResults :=
         loop_passResults st ++
         [ CooldownSkip (i + 1) timestamp requiredCooldown
             (match previous with
              | Some before => timestamp - before
              | None => NaN
              end)
             (getStatus thermalTracker) ];
       loop_totalPulses := loop_totalPulses st;
       loop_totalEnergy := loop_totalEnergy st;
       loop_missionComplete := loop_missionComplete st |}
  else
  let adaptiveLaserParams :=
    {| pulseEnergy := pulseEnergy laserParams;
       wavelength := wavelength laserParams;
       pulseDuration := pulseDuration laserParams;
       transmitterDiameter := transmitterDiameter laserParams;
       beamQuality := beamQuality laserParams;
       repetitionRate := rate_repetitionRate repRateResult |} in
  let (passResult, thermalTracker1) :=
    simulateLaserPass currentDebris adaptiveLaserParams distance
      thermalTracker timestamp in
  match passResult with
  | PassFailure reason _ =>
      {| loop_thermalTracker := thermalTracker1;
         loop_currentDebris := currentDebris;
         loop_passResults :=
           loop_passResults st ++
           [ RefusedPass (i + 1) timestamp reason (getStatus thermalTracker1) ];
         loop_totalPulses := loop_totalPulses st;
         loop_totalEnergy := loop_totalEnergy st;
         loop_missionComplete := loop_missionComplete st |}
  | PassSuccess report =>
      let currentDebris1 :=
        set_cumulativeDeltaV (report_updatedDebris report)
          (report_cumulativeDeltaV report) in
      {| loop_thermalTracker := thermalTracker1;
         loop_currentDebris := currentDebris1;
         loop_passResults :=
           loop_passResults st ++
           [ EngagedPass (i + 1) timestamp
               (set_updatedDebris report currentDebris1) repRateResult ];
         loop_totalPulses :=
           loop_totalPulses st + report_pulsesDelivered report;
         loop_totalEnergy :=
           loop_totalEnergy st + report_energyDelivered report;
         loop_missionComplete :=
           if report_reentryAchieved report then true
           else loop_missionComplete st |}
  end.

(** [for (let i = 0; i < passTimes.length && !missionComplete; i++)]
    over the passes from index [i] on. *)
Fixpoint campaignLoop
    (laserParams : LaserParams) (passTimes : list num) (i : nat)
    (previous : option num) (st : CampaignState) : CampaignState :=
  match passTimes with
  | [] => st
  | timestamp :: rest =>
      if loop_missionComplete st then st
      else
        campaignLoop laserParams rest (S i) (Some timestamp)
          (campaignStep laserParams st i previous timestamp)
  end.

Record MissionPlan : Type := mkMissionPlan {
  plan_missionComplete : bool;
  plan_missionDuration : num;
  plan_totalPasses : nat;
  plan_successfulPasses : nat;
  plan_skippedPasses : nat;
  plan_totalPulses : num;
  plan_totalEnergy : num;
  plan_totalDeltaV : option num;
  plan_finalDebris : Debris;
  plan_finalPerigee : num;
  plan_finalApogee : num;
  plan_perigeeReduction : num;
  plan_finalThermalStatus : ThermalStatus;
  plan_maxTempReached : num;
  plan_passResults : list CampaignPass;
  plan_estimatedCost : MissionCost
}.

Definition planRemovalCampaign
    (debris : Debris) (laserParams : LaserParams) (passTimes : list num)
    (material0 : Material) : MissionPlan :=
  let thermalTracker :=
    newThermalBudgetTracker material0 (debris_mass debris)
      (debris_area debris) 270 in
  let st :=
    campaignLoop laserParams passTimes 0 None
      {| loop_thermalTracker := thermalTracker;
         loop_currentDebris := set_cumulativeDeltaV debris 0;
         loop_passResults := [];
         loop_totalPulses := 0;
         loop_totalEnergy := 0;
         loop_missionComplete := false |} in
  let currentDebris := loop_currentDebris st in
  let passResults := loop_passResults st in
  let successfulPasses := filter (fun p => negb (skipped p)) passResults in
  let missionDuration :=
    match last (map Some passTimes) None with
    | Some t => t / 86400
    | None => NaN
    end in
  {| plan_missionComplete := loop_missionComplete st;
     plan_missionDuration := missionDuration;
     plan_totalPasses := length passTimes;
     plan_successfulPasses := length successfulPasses;
     plan_skippedPasses := length passResults - length successfulPasses;
     plan_totalPulses := loop_totalPulses st;
     plan_totalEnergy := loop_totalEnergy st / 1e9;
     plan_totalDeltaV := debris_cumulativeDeltaV currentDebris;
     plan_finalDebris := currentDebris;
     plan_finalPerigee := debris_perigeeAltitude currentDebris;
     plan_finalApogee := debris_apogeeAltitude currentDebris;
     plan_perigeeReduction :=
       debris_perigeeAltitude debris - debris_perigeeAltitude currentDebris;
     plan_finalThermalStatus := getStatus (loop_thermalTracker st);
     plan_maxTempReached :=
       Math_max_list
         (map entry_temperature (heatHistory (loop_thermalTracker st)));
     plan_passResults := passResults;
     plan_estimatedCost :=
       calculateMissionCost (loop_totalEnergy st / 1e9) missionDuration |}.

(** *** Debris parameters *)

(** The messages of [validateDebrisParameters]. *)
Inductive ValidationError : Type :=
| MassMustBePositive
| AreaMustBePositive
| SemiMajorAxisAboveSurface
| EccentricityBetween0And1.

Inductive ValidationWarning : Type :=
| UnusualAreaToMass (ratio : num)
| PerigeeBelowReentry
| VeryHighOrbit
| TooSmallToTrack.

Record Validation : Type := mkValidation {
  valid : bool;
  errors : list ValidationError;
  warnings : list ValidationWarning
}.

(** [if (c) list.push(x)] *)
Definition push_if {A : Type} (c : bool) (x : A) (l : list A) : list A :=
  if c then l ++ [x] else l.

Definition validateDebrisParameters (debris : Debris) : Validation :=
  let errors0 : list ValidationError := [] in
  let warnings0 : list ValidationWarning := [] in
  let errors1 :=
    push_if (falsy (debris_mass debris) || (debris_mass debris <=? 0))
      MassMustBePositive errors0 in
  let errors2 :=
    push_if (falsy (debris_area debris) || (debris_area debris <=? 0))
      AreaMustBePositive errors1 in
  let errors3 :=
    push_if (falsy (debris_semiMajorAxis debris)
             || (debris_semiMajorAxis debris <=? ORBITAL.EARTH_RADIUS))
      SemiMajorAxisAboveSurface errors2 in
  let errors4 :=
    push_if ((debris_eccentricity debris <? 0)
             || (debris_eccentricity debris >=? 1))
      EccentricityBetween0And1 errors3 in
  let areaToMass0 := debris_area debris / debris_mass debris in
  let warnings1 :=
    push_if ((areaToMass0 <? 0.001) || (areaToMass0 >? 1.0))
      (UnusualAreaToMass areaToMass0) warnings0 in
  let warnings2 :=
    push_if (debris_perigeeAltitude debris <? ORBITAL.REENTRY_ALTITUDE)
      PerigeeBelowReentry warnings1 in
  let warnings3 :=
    push_if (debris_perigeeAltitude debris >? 2000e3)
      VeryHighOrbit warnings2 in
  let warnings4 :=
    push_if (debris_size debris <? SAFETY.MIN_DEBRIS_SIZE)
      TooSmallToTrack warnings3 in
  {| valid := (length errors4 =? 0)%nat;
     errors := errors4;
     warnings := warnings4 |}.

Record DebrisEstimate : Type := mkDebrisEstimate {
  est_mass : num;
  est_area : num;
  est_areaToMass : num;
  est_material : Material;
  est_ballisticCoefficient : num;
  est_estimatedVolume : num
}.

(** [debrisType] is any string; only three are recognised. *)
Definition estimateDebrisProperties (size : num) (debrisType : string)
    : DebrisEstimate :=
  let '(density, areaFactor, material0) :=
    if String.eqb debrisType "FRAGMENT" then
      (Fin 2700, Fin 0.5, ALUMINUM)
    else if String.eqb debrisType "ROCKET_BODY" then
      (Fin 1500, Fin 0.3, ALUMINUM)
    else if String.eqb debrisType "PAYLOAD" then
      (Fin 800, Fin 0.4, ALUMINUM)
    else
      (Fin 2000, Fin 0.4, ALUMINUM) in
  let volume := areaFactor * Math_pow size 3 in
  let mass0 := density * volume in
  let area0 := areaFactor * size * size in
  {| est_mass := mass0;
     est_area := area0;
     est_areaToMass := area0 / mass0;
     est_material := material0;
     est_ballisticCoefficient := mass0 / (2.2 * area0);
     est_estimatedVolume := volume |}.

Record RiskReduction : Type := mkRiskReduction {
  risk_debrisRemoved : num;
  risk_removalFraction : num;
  risk_relativeProbabilityReduction : num;
  risk_effectiveRiskReduction : num;
  risk_riskMultiplier : num;
  risk_altitudeRiskFactor : num
}.

Definition calculateRiskReduction (debrisRemoved totalDebris altitude : num)
    : RiskReduction :=
  let removalFraction := debrisRemoved / totalDebris in
  let relativeProbabilityReduction :=
    1 - Math_pow (1 - removalFraction) 2 in
  let altitudeKm := altitude / 1000 in
  let riskMultiplier :=
    Math_exp (- Math_pow ((altitudeKm - 800) / 200) 2) in
  let effectiveRiskReduction :=
    relativeProbabilityReduction * riskMultiplier in
  {| risk_debrisRemoved := debrisRemoved;
     risk_removalFraction := removalFraction;
     risk_relativeProbabilityReduction := relativeProbabilityReduction;
     risk_effectiveRiskReduction := effectiveRiskReduction;
     risk_riskMultiplier := riskMultiplier;
     risk_altitudeRiskFactor := riskMultiplier |}.

End Physics.

(* ================================================================= *)
(** ** Specification vocabulary for the thermal tracker *)

Module ThermalSpec.
Import Physics.

(** What the constructor establishes and no method changes. *)
Definition constructed (this : ThermalBudgetTracker) : Prop :=
  areaToMass this = (area this / mass this)%num /\
  specificHeat this = SPECIFIC_HEAT (MATERIALS (material this)) /\
  maxTempRise this = MAX_TEMP_RISE (MATERIALS (material this)) /\
  meltingPoint this = MELTING_POINT (MATERIALS (material this)).

(** The tracker of the example mission: aluminium, 15 kg, 0.1 m^2. *)
Definition exampleTracker : ThermalBudgetTracker :=
  newThermalBudgetTracker ALUMINUM 15 0.1 270.

(** The radiative cooling rate of a body of area [ar], mass [m] and
    specific heat [c] at emissivity 0.8, the time constant linearised at
    the temperature [T], and the temperature relaxed from [T] toward
    [Ta] during [t] seconds. *)
Definition coolingRate (ar m c : R) : R := 0.8 * 5.67e-8 * ar / (m * c).

Definition timeConstant (ar m c T : R) : R :=
  1 / (4 * coolingRate ar m c * T ^ 3).

Definition cooledTemp (ar m c T Ta t : R) : R :=
  Ta + (T - Ta) * exp (- t / timeConstant ar m c T).

(** The tracker is within its limits: the rise above ambient does not
    exceed the safe rise and the temperature is below the melting
    point. *)
Definition within_limits (this : ThermalBudgetTracker) : Prop :=
  (currentTemp this - ambientTemp this <=? maxTempRise this)%num = true /\
  (currentTemp this >=? meltingPoint this)%num = false.

End ThermalSpec.

(* ================================================================= *)
(** ** The example mission's laser and two targets *)

Module Scenario.
Import Physics.

(** The laser of [exampleMission]. *)
Definition exampleLaser : LaserParams :=
  {| pulseEnergy := 100e3;
     wavelength := 1030e-9;
     pulseDuration := 5e-9;
     transmitterDiameter := 4.0;
     beamQuality := 1.2;
     repetitionRate := 5 |}.

(** The fragment of [exampleMission]. *)
Definition exampleDebris : Debris :=
  {| debris_size := 0.5;
     debris_mass := 15;
     debris_area := 0.1;
     debris_semiMajorAxis := 7178000;
     debris_eccentricity := 0.001;
     debris_perigeeAltitude := 799000;
     debris_apogeeAltitude := 801000;
     debris_visibilityDuration := Some (Fin 300);
     debris_ballisticCoefficient := Some (Fin 150);
     debris_cumulativeDeltaV := None |}.

(** A six-metre object on the same orbit. *)
Definition largeDebris : Debris :=
  {| debris_size := 6;
     debris_mass := 2000;
     debris_area := 12;
     debris_semiMajorAxis := 7178000;
     debris_eccentricity := 0.001;
     debris_perigeeAltitude := 799000;
     debris_apogeeAltitude := 801000;
     debris_visibilityDuration := Some (Fin 300);
     debris_ballisticCoefficient := None;
     debris_cumulativeDeltaV := None |}.

(** The fragment with an eccentricity that is not a number. *)
Definition nanEccentricityDebris : Debris :=
  {| debris_size := 0.5;
     debris_mass := 15;
     debris_area := 0.1;
     debris_semiMajorAxis := 7178000;
     debris_eccentricity := NaN;
     debris_perigeeAltitude := 799000;
     debris_apogeeAltitude := 801000;
     debris_visibilityDuration := None;
     debris_ballisticCoefficient := None;
     debris_cumulativeDeltaV := None |}.

End Scenario.

(* ================================================================= *)
(** ** Reading the records of a campaign *)

Module CampaignSpec.
Import Physics.

Definition campaign_passNumber (p : CampaignPass) : nat :=
  match p with
  | CooldownSkip n _ _ _ _ => n
  | RefusedPass n _ _ _ => n
  | EngagedPass n _ _ _ => n
  end.

(** The pass was engaged and reached the re-entry altitude. *)
Definition reentry_in (p : CampaignPass) : bool :=
  match p with
  | EngagedPass _ _ report _ => report_reentryAchieved report
  | _ => false
  end.

(** The pulses and the energy a record contributes to the totals. *)
Definition pulses_in (p : CampaignPass) : num :=
  match p with
  | EngagedPass _ _ report _ => report_pulsesDelivered report
  | _ => Fin 0
  end.

Definition energy_in (p : CampaignPass) : num :=
  match p with
  | EngagedPass _ _ report _ => report_energyDelivered report
  | _ => Fin 0
  end.

(** The thermal status a record carries. *)
Definition status_in (p : CampaignPass) : ThermalStatus :=
  match p with
  | CooldownSkip _ _ _ _ s => s
  | RefusedPass _ _ _ s => s
  | EngagedPass _ _ report _ => report_thermalStatus report
  end.

(** The running total of [f] over records, as the loop adds it up. *)
Definition running_total (f : CampaignPass -> num) (l : list CampaignPass)
    : num :=
  fold_left (fun acc p => add acc (f p)) l (Fin 0).

(** The safe temperature rise and the specific heat of a material, as
    reals. *)
Definition maxRiseOf (m : Material) : R :=
  match m with
  | ALUMINUM => 100
  | STEEL => 200
  | MLI => 80
  end.

Definition specificHeatOf (m : Material) : R :=
  match m with
  | ALUMINUM => 900
  | STEEL => 470
  | MLI => 1000
  end.

(** A temperature between 270 K and 270 K plus the safe rise. *)
Definition safe_temperature (mat : Material) (t : num) : Prop :=
  exists T : R, t = Fin T /\ 270 <= T <= 270 + maxRiseOf mat.

(** The tracker of a campaign on a body of mass [m] and area [ar]: as
    constructed at 270 K, with a safe temperature now and in every entry
    of its history. *)
Definition campaign_tracker (mat : Material) (m ar : R)
    (this : ThermalBudgetTracker) : Prop :=
  mass this = Fin m /\ area this = Fin ar /\
  areaToMass this = Fin (ar / m) /\
  specificHeat this = Fin (specificHeatOf mat) /\
  maxTempRise this = Fin (maxRiseOf mat) /\
  ambientTemp this = Fin 270 /\
  safe_temperature mat (currentTemp this) /\
  Forall (fun e => safe_temperature mat (entry_temperature e))
    (heatHistory this).

(** The status a record carries is safe, at a safe temperature. *)
Definition record_safe (mat : Material) (p : CampaignPass) : Prop :=
  status_isSafe (status_in p) = true /\
  safe_temperature mat (status_currentTemp (status_in p)).

(** A fluence that is a number not below zero, [Infinity] or [NaN]. *)
Definition fluence_like (f : num) : Prop :=
  match f with
  | Fin v => 0 <= v
  | PInf => True
  | NaN => True
  | NInf => False
  end.

End CampaignSpec.

(* ================================================================= *)
(** ** Orbit changes: what the properties are stated with *)

Module OrbitChangeSpec.

(** The speed at the apogee of the orbit with semi-major axis [a] (m)
    and eccentricity [e], by the vis-viva equation. *)
Definition apogeeVelocity (a e : R) : R :=
  sqrt (3.986004418e14 * (1 - e) / (a * (1 + e))).

End OrbitChangeSpec.

(* ================================================================= *)
(** ** The orbital-mechanics module *)

Module OrbitalMechanics.
Local Open Scope num_scope.

Definition EARTH_RADIUS_KM : num := 6371.0.
Definition MU_EARTH : num := 398600.4418.
Definition RE_ENTRY_THRESHOLD_KM : num := 200.

(** An element of the array returned by [trackPerigeeEvolution]; the
    entry of pass 0 has neither [deltaV] nor [reEntry]. *)
Record EvolutionEntry : Type := mkEvolutionEntry {
  passNumber : nat;
  perigeeAlt : num;
  apogeeAlt : num;
  semiMajorAxis : num;
  eccentricity : num;
  deltaV : option num;
  reEntry : option bool
}.

(** The variables the loop of [trackPerigeeEvolution] assigns to:
    [a], [rp], [e] and the [evolution] array ([ra] is never
    reassigned). *)
Record EvolutionState : Type := mkEvolutionState {
  var_a : num;
  var_rp : num;
  var_e : num;
  evolution : list EvolutionEntry
}.

(** The body of the [forEach] callback. *)
Definition evolutionStep (ra : num) (st : EvolutionState) (dv : num)
    (index : nat) : EvolutionState :=
  let v_apogee := Math_sqrt (MU_EARTH * (2 / ra - 1 / var_a st)) in
  let v_new := v_apogee - (dv / 1000) in
  let a_new := 1 / (2 / ra - v_new * v_new / MU_EARTH) in
  let rp_new := 2 * a_new - ra in
  let a := a_new in
  let rp := rp_new in
  let e := (ra - rp) / (ra + rp) in
  {| var_a := a;
     var_rp := rp;
     var_e := e;
     evolution :=
       evolution st ++
       [ {| passNumber := index + 1;
            perigeeAlt := rp - EARTH_RADIUS_KM;
            apogeeAlt := ra - EARTH_RADIUS_KM;
            semiMajorAxis := a;
            eccentricity := e;
            deltaV := Some dv;
            reEntry := Some ((rp - EARTH_RADIUS_KM) <? RE_ENTRY_THRESHOLD_KM)
         |} ] |}.

(** [array.forEach((x, index) => ...)] threading the assigned variables. *)
Fixpoint forEach {S A : Type} (f : S -> A -> nat -> S) (l : list A)
    (index : nat) (st : S) : S :=
  match l with
  | [] => st
  | x :: l' => forEach f l' (Datatypes.S index) (f st x index)
  end.

Definition trackPerigeeEvolution
    (initialPerigee initialApogee : num) (deltaVs : list num)
    : list EvolutionEntry :=
  let a := (initialPerigee + initialApogee) / 2 + EARTH_RADIUS_KM in
  let rp := initialPerigee + EARTH_RADIUS_KM in
  let ra := initialApogee + EARTH_RADIUS_KM in
  let e := (ra - rp) / (ra + rp) in
  let evolution0 :=
    [ {| passNumber := 0;
         perigeeAlt := initialPerigee;
         apogeeAlt := initialApogee;
         semiMajorAxis := a;
         eccentricity := e;
         deltaV := None;
         reEntry := None |} ] in
  evolution
    (forEach (evolutionStep ra) deltaVs 0%nat
       (mkEvolutionState a rp e evolution0)).

Definition isReEntryAchieved (perigeeAlt0 : num) : bool :=
  perigeeAlt0 <? RE_ENTRY_THRESHOLD_KM.

(** An array [[x, y, z]]. *)
Definition vec : Type := (num * num * num)%type.

Record StateVectors : Type := mkStateVectors {
  position : vec;
  velocity : vec
}.

(** The object returned by [stateVectorsToOrbitalElements]. *)
Record OrbitalElements : Type := mkOrbitalElements {
  el_a : num;
  el_e : num;
  el_i : num;
  el_omega : num;
  el_Omega : num;
  el_nu : num;
  el_perigeeAlt : num;
  el_perigeeLat : num;
  el_apogeeAlt : num
}.

Definition stateVectorsToOrbitalElements (position0 velocity0 : vec)
    : OrbitalElements :=
  let '(x, y, z) := position0 in
  let '(vx, vy, vz) := velocity0 in
  let r := Math_sqrt (x * x + y * y + z * z) in
  let v := Math_sqrt (vx * vx + vy * vy + vz * vz) in
  let hx := y * vz - z * vy in
  let hy := z * vx - x * vz in
  let hz := x * vy - y * vx in
  let h := Math_sqrt (hx * hx + hy * hy + hz * hz) in
  let nx := - hy in
  let ny := hx in
  let n := Math_sqrt (nx * nx + ny * ny) in
  let v_sq := v * v in
  let r_dot_v := x * vx + y * vy + z * vz in
  let ex := ((v_sq - MU_EARTH / r) * x - r_dot_v * vx) / MU_EARTH in
  let ey := ((v_sq - MU_EARTH / r) * y - r_dot_v * vy) / MU_EARTH in
  let ez := ((v_sq - MU_EARTH / r) * z - r_dot_v * vz) / MU_EARTH in
  let e := Math_sqrt (ex * ex + ey * ey + ez * ez) in
  let energy := v_sq / 2 - MU_EARTH / r in
  let a := - MU_EARTH / (2 * energy) in
  let i := Math_acos (hz / h) in
  let Omega :=
    if negb (n =? 0) then
      let Omega1 := Math_acos (nx / n) in
      if ny <? 0 then 2 * Math_PI - Omega1 else Omega1
    else 0 in
  let omega :=
    if (e >? 0.0001) && negb (n =? 0) then
      let cos_omega := (nx * ex + ny * ey) / (n * e) in
      let omega1 := Math_acos (Math_max (-1) (Math_min 1 cos_omega)) in
      if ez <? 0 then 2 * Math_PI - omega1 else omega1
    else 0 in
  let nu :=
    if e >? 0.0001 then
      let cos_nu := (ex * x + ey * y + ez * z) / (e * r) in
      let nu1 := Math_acos (Math_max (-1) (Math_min 1 cos_nu)) in
      if r_dot_v <? 0 then 2 * Math_PI - nu1 else nu1
    else 0 in
  let perigeeAlt0 := a * (1 - e) - EARTH_RADIUS_KM in
  let r_perigee := a * (1 - e) in
  let x_perigee := r_perigee in
  let sin_i := Math_sin i in
  let sin_w := Math_sin omega in
  let z_perigee := (sin_w * sin_i) * x_perigee in
  let perigeeLat0 := Math_asin (z_perigee / r_perigee) * (180 / Math_PI) in
  {| el_a := a;
     el_e := e;
     el_i := i;
     el_omega := omega;
     el_Omega := Omega;
     el_nu := nu;
     el_perigeeAlt := perigeeAlt0;
     el_perigeeLat := perigeeLat0;
     el_apogeeAlt := a * (1 + e) - EARTH_RADIUS_KM |}.

(** [applyDeltaV(position, velocity, deltaV, direction = 'retrograde')]:
    [direction] is any string, absent for the default; only four are
    recognised, any other leaves the velocity change at zero. *)
Definition applyDeltaV (position0 velocity0 : vec) (deltaV0 : num)
    (direction : option string) : StateVectors :=
  let direction := match direction with Some d => d | None => "retrograde"%string end in
  let deltaV_km_s := deltaV0 / 1000 in
  let '(x, y, z) := position0 in
  let '(vx, vy, vz) := velocity0 in
  let v_mag := Math_sqrt (vx * vx + vy * vy + vz * vz) in
  let r_mag := Math_sqrt (x * x + y * y + z * z) in
  let '(dvx, dvy, dvz) :=
    if String.eqb direction "prograde" then
      ((vx / v_mag) * deltaV_km_s,
       (vy / v_mag) * deltaV_km_s,
       (vz / v_mag) * deltaV_km_s)
    else if String.eqb direction "retrograde" then
      (- (vx / v_mag) * deltaV_km_s,
       - (vy / v_mag) * deltaV_km_s,
       - (vz / v_mag) * deltaV_km_s)
    else if String.eqb direction "radial-out" then
      ((x / r_mag) * deltaV_km_s,
       (y / r_mag) * deltaV_km_s,
       (z / r_mag) * deltaV_km_s)
    else if String.eqb direction "radial-in" then
      (- (x / r_mag) * deltaV_km_s,
       - (y / r_mag) * deltaV_km_s,
       - (z / r_mag) * deltaV_km_s)
    else
      (Fin 0, Fin 0, Fin 0) in
  {| position := position0;
     velocity := (vx + dvx, vy + dvy, vz + dvz) |}.

(** The [elements] given to [orbitalElementsToStateVectors] (it does
    not read [epoch]). *)
Record KeplerElements : Type := mkKeplerElements {
  kep_a : num;
  kep_e : num;
  kep_i : num;
  kep_omega : num;
  kep_Omega : num;
  kep_M : num
}.

(** [let E = M; for (iter = 0; iter < 10; iter++) E = M + e * sin(E)] *)
Definition keplerIterations (e M : num) : num :=
  Nat.iter 10 (fun E => M + e * Math_sin E) M.

Definition orbitalElementsToStateVectors (elements : KeplerElements)
    : StateVectors :=
  let a := kep_a elements in
  let e := kep_e elements in
  let i := kep_i elements in
  let omega := kep_omega elements in
  let Omega := kep_Omega elements in
  let M := kep_M elements in
  let E := keplerIterations e M in
  let nu :=
    2 * Math_atan2 (Math_sqrt (1 + e) * Math_sin (E / 2))
          (Math_sqrt (1 - e) * Math_cos (E / 2)) in
  let r := a * (1 - e * Math_cos E) in
  let x_orb := r * Math_cos nu in
  let y_orb := r * Math_sin nu in
  let p := a * (1 - e * e) in
  let h := Math_sqrt (MU_EARTH * p) in
  let vx_orb := - (MU_EARTH / h) * Math_sin nu in
  let vy_orb := (MU_EARTH / h) * (e + Math_cos nu) in
  let cos_O := Math_cos Omega in
  let sin_O := Math_sin Omega in
  let cos_i := Math_cos i in
  let sin_i := Math_sin i in
  let cos_w := Math_cos omega in
  let sin_w := Math_sin omega in
  let x := (cos_O * cos_w - sin_O * sin_w * cos_i) * x_orb +
           (- cos_O * sin_w - sin_O * cos_w * cos_i) * y_orb in
  let y := (sin_O * cos_w + cos_O * sin_w * cos_i) * x_orb +
           (- sin_O * sin_w + cos_O * cos_w * cos_i) * y_orb in
  let z := (sin_w * sin_i) * x_orb + (cos_w * sin_i) * y_orb in
  let vx := (cos_O * cos_w - sin_O * sin_w * cos_i) * vx_orb +
            (- cos_O * sin_w - sin_O * cos_w * cos_i) * vy_orb in
  let vy := (sin_O * cos_w + cos_O * sin_w * cos_i) * vx_orb +
            (- sin_O * sin_w + cos_O * cos_w * cos_i) * vy_orb in
  let vz := (sin_w * sin_i) * vx_orb + (cos_w * sin_i) * vy_orb in
  {| position := (x, y, z);
     velocity := (vx, vy, vz) |}.

(** The object returned by [estimateAtmosphericDecay]. *)
Record AtmosphericDecay : Type := mkAtmosphericDecay {
  decayRate : num;
  estimatedLifetime : num;
  naturalDecay : bool
}.

(** [estimateAtmosphericDecay(perigeeAlt, areaToMass, days = 30)]; the
    function does not read [days]. *)
Definition estimateAtmosphericDecay (perigeeAlt0 areaToMass0 : num)
    : AtmosphericDecay :=
  let rho : num :=
    if perigeeAlt0 >? 600 then 1e-15
    else if perigeeAlt0 >? 400 then 1e-13
    else if perigeeAlt0 >? 300 then 1e-12
    else if perigeeAlt0 >? 200 then 1e-11
    else 1e-10 in
  let Cd : num := 2.2 in
  let v_perigee := Math_sqrt (MU_EARTH / (EARTH_RADIUS_KM + perigeeAlt0)) in
  let decayRate0 :=
    (0.5 * Cd * rho * areaToMass0 * v_perigee * v_perigee * 86400) / 1000 in
  let estimatedLifetime0 :=
    if decayRate0 >? 0 then (perigeeAlt0 - 100) / decayRate0 else PInf in
  {| decayRate := decayRate0;
     estimatedLifetime := estimatedLifetime0;
     naturalDecay := perigeeAlt0 <? 600 |}.

(** The period in minutes. *)
Definition calculateOrbitalPeriod (semiMajorAxis0 : num) : num :=
  2 * Math_PI * Math_sqrt (Math_pow semiMajorAxis0 3 / MU_EARTH) / 60.

End OrbitalMechanics.

(* ================================================================= *)
(** ** The apogee-anchored recurrence, as the specification words it *)

Module OrbitSpec.
Import OrbitalMechanics.
Local Open Scope num_scope.

(** Vis-viva: the speed at radius [r] on an orbit of semi-major axis [a],
    and the semi-major axis of the orbit through radius [r] at speed [v]. *)
Definition visVivaSpeed (r a : num) : num :=
  Math_sqrt (MU_EARTH * (2 / r - 1 / a)).

Definition visVivaAxis (r v : num) : num :=
  1 / (2 / r - v * v / MU_EARTH).

(** One pass: the speed at apogee is reduced by [dv / 1000] and the
    semi-major axis is solved again with the apogee radius [ra] fixed. *)
Definition nextSemiMajorAxis (ra a dv : num) : num :=
  visVivaAxis ra (visVivaSpeed ra a - dv / 1000).

(** The record of pass [n] for the semi-major axis [a] reached by the
    burn [dv]: perigee radius [2a - ra], re-entry flag below 200 km. *)
Definition passEntry (ra : num) (n : nat) (dv a : num) : EvolutionEntry :=
  let rp := 2 * a - ra in
  {| passNumber := n;
     perigeeAlt := rp - EARTH_RADIUS_KM;
     apogeeAlt := ra - EARTH_RADIUS_KM;
     semiMajorAxis := a;
     eccentricity := (ra - rp) / (ra + rp);
     deltaV := Some dv;
     reEntry := Some ((rp - EARTH_RADIUS_KM) <? RE_ENTRY_THRESHOLD_KM) |}.

(** The records of the passes after [index] passes, from the semi-major
    axis [a]. *)
Fixpoint passEntries (ra : num) (index : nat) (a : num) (deltaVs : list num)
    : list EvolutionEntry :=
  match deltaVs with
  | [] => []
  | dv :: rest =>
      let a' := nextSemiMajorAxis ra a dv in
      passEntry ra (index + 1) dv a' :: passEntries ra (S index) a' rest
  end.

(** The eccentric anomaly after the ten fixed-point iterations, and the
    true anomaly computed from it, over the reals. *)
Definition keplerAnomaly (e M : R) : R :=
  Nat.iter 10 (fun E => M + e * sin E)%R M.

Definition trueAnomaly (e E : R) : R :=
  2 * atan2 (sqrt (1 + e) * sin (E / 2)) (sqrt (1 - e) * cos (E / 2)).

(** The same two steps over the reals: the speed at the apogee radius
    [ra] of the orbit of semi-major axis [a], and the semi-major axis
    after the speed is reduced by [dv / 1000]. *)
Definition apogeeSpeed (ra a : R) : R :=
  sqrt (398600.4418 * (2 / ra - 1 / a)).

Definition axisAfter (ra a dv : R) : R :=
  1 / (2 / ra
       - (apogeeSpeed ra a - dv / 1000) * (apogeeSpeed ra a - dv / 1000)
         / 398600.4418).

(** What the burn [dv] (m/s) takes off the squared speed at apogee:
    [v^2 - (v - dv/1000)^2]. *)
Definition speedSquareDrop (ra a dv : R) : R :=
  dv / 1000 * (2 * apogeeSpeed ra a - dv / 1000).

(** A burn that the arithmetic resolves: it takes off the squared speed
    at apogee at least [2e-9] of the squared circular speed [mu / ra] at
    the apogee radius.  This excludes burns that are not positive, burns
    of twice the speed at apogee or more, and burns so close to either
    end that the change of the perigee is of the size of a rounding
    error. *)
Definition burnResolved (ra a dv : R) : Prop :=
  2e-9 * (398600.4418 / ra) <= speedSquareDrop ra a dv.

End OrbitSpec.

(* ================================================================= *)
(** ** Atmospheric decay: what the properties are stated with *)

Module DecaySpec.

(** The density table over the reals. *)
Definition densityAt (alt : R) : R :=
  if Rlt_dec 600 alt then 1e-15
  else if Rlt_dec 400 alt then 1e-13
  else if Rlt_dec 300 alt then 1e-12
  else if Rlt_dec 200 alt then 1e-11
  else 1e-10.

(** The decay rate in km per day at perigee altitude [alt] (km) for the
    area-to-mass ratio [k]. *)
Definition decayRateAt (alt k : R) : R :=
  0.5 * 2.2 * densityAt alt * k * (398600.4418 / (6371.0 + alt)) * 86400 / 1000.

End DecaySpec.

(* ================================================================= *)
(** ** JavaScript arrays *)

Module JSArray.

(** [array.sort((a, b) => key(a) - key(b))] for an integer key: the
    built-in sort is stable, so the result is the one of inserting the
    elements in turn, each after the elements whose key is not larger. *)
Fixpoint insertBy {A : Type} (key : A -> Z) (x : A) (l : list A) : list A :=
  match l with
  | [] => [x]
  | y :: l' =>
      if (key x <? key y)%Z then x :: y :: l' else y :: insertBy key x l'
  end.

Definition sortBy {A : Type} (key : A -> Z) (l : list A) : list A :=
  fold_left (fun acc x => insertBy key x acc) l [].

(** [array.reduce((sum, x) => sum + f(x), 0)] *)
Definition sumOf {A : Type} (f : A -> num) (l : list A) : num :=
  fold_left (fun sum x => add sum (f x)) l (Fin 0).

(** [array.map((x, index) => f(x, index))], from index [index] on. *)
Fixpoint mapIndexed {A B : Type} (f : A -> nat -> B) (l : list A)
    (index : nat) : list B :=
  match l with
  | [] => []
  | x :: l' => f x index :: mapIndexed f l' (S index)
  end.

End JSArray.

(* ================================================================= *)
(** ** The visibility scanner *)

Module Visibility.
Local Open Scope num_scope.

(** A [Date] is its number of milliseconds since the epoch. *)
Definition Date : Type := Z.

(** [date.setMinutes(date.getMinutes() + m)], away from a change of the
    local clock. *)
Definition addMinutes (d : Date) (m : Z) : Date := (d + m * 60000)%Z.

(** [date.setDate(date.getDate() + n)], away from a change of the local
    clock. *)
Definition addDays (d : Date) (n : Z) : Date := (d + n * 86400000)%Z.

(** The pass being tracked, before it is closed. *)
Record OpenPass : Type := mkOpenPass {
  open_startTime : Date;
  open_maxElevation : num;
  open_azimuthStart : num
}.

(** A closed pass: the object that may be pushed onto [passes]. *)
Record Pass : Type := mkPass {
  startTime : Date;
  maxElevation : num;
  azimuthStart : num;
  endTime : Date;
  duration : num
}.

(** The variables of the scanning loop. *)
Record ScanState : Type := mkScanState {
  isPassActive : bool;
  currentPass : option OpenPass;
  passes : list Pass
}.

Section Scanner.

(** The propagation adapter: elevation and azimuth (both in degrees) of
    the target seen from the station at a given instant, as obtained
    from the propagator and the look-angle transforms. *)
Variable elevationAt : Date -> num.
Variable azimuthAt : Date -> num.

(** One iteration of the [while] loop at [currentTime].  The branch in
    which [isPassActive] holds while [currentPass] is [null] is never
    taken (see [scan_invariant]); it leaves the state as it is. *)
Definition scanStep (minElevation : num) (st : ScanState)
    (currentTime : Date) : ScanState :=
  let elevationDeg := elevationAt currentTime in
  if elevationDeg >? minElevation then
    if negb (isPassActive st) then
      mkScanState true
        (Some (mkOpenPass currentTime elevationDeg (azimuthAt currentTime)))
        (passes st)
    else
      match currentPass st with
      | Some p =>
          if elevationDeg >? open_maxElevation p then
            mkScanState (isPassActive st)
              (Some (mkOpenPass (open_startTime p) elevationDeg
                       (open_azimuthStart p)))
              (passes st)
          else st
      | None => st
      end
  else
    if isPassActive st then
      match currentPass st with
      | Some p =>
          let endTime0 := currentTime in
          let duration0 :=
            Fin (IZR (endTime0 - open_startTime p)) / 1000 in
          let closed :=
            mkPass (open_startTime p) (open_maxElevation p)
              (open_azimuthStart p) endTime0 duration0 in
          mkScanState false None
            (if duration0 >? 30 then passes st ++ [closed] else passes st)
      | None => st
      end
    else st.

(** [while (currentTime < endDate) { ...; currentTime += 1 minute }] *)
Fixpoint scanLoop (fuel : nat) (minElevation : num) (endDate : Date)
    (currentTime : Date) (st : ScanState) : ScanState :=
  match fuel with
  | O => st
  | Datatypes.S fuel' =>
      if (currentTime <? endDate)%Z then
        scanLoop fuel' minElevation endDate (addMinutes currentTime 1)
          (scanStep minElevation st currentTime)
      else st
  end.

(** The number of iterations the loop makes from [startDate]. *)
Definition iterations (startDate endDate : Date) : nat :=
  Z.to_nat ((endDate - startDate + 59999) / 60000).

(** [calculateVisibilityWindows]; [startDate] is the value of
    [new Date()] at the call. *)
Definition calculateVisibilityWindows
    (startDate : Date) (daysToPredict : Z) (minElevation : num)
    : list Pass :=
  let endDate := addDays startDate daysToPredict in
  passes
    (scanLoop (iterations startDate endDate) minElevation endDate startDate
       (mkScanState false None [])).

End Scanner.

(** A ground station together with what the propagator gives for it and
    the selected object: the elevation and azimuth seen from it at an
    instant, and the value of [new Date()] at the call made for it. *)
Record Station : Type := mkStation {
  station_id : num;
  station_name : string;
  elevationFrom : Date -> num;
  azimuthFrom : Date -> num;
  callTime : Date
}.

(** [getAllPasses]: the windows of every station, with the defaults of
    30 days and 20 degrees, sorted by start time. *)
Definition getAllPasses (stations : list Station) : list Pass :=
  let allPasses :=
    flat_map
      (fun station =>
         calculateVisibilityWindows (elevationFrom station)
           (azimuthFrom station) (callTime station) 30 20)
      stations in
  JSArray.sortBy startTime allPasses.

(** [Math.floor(2 * (1 + |lat - inc| / 90))], or 0 outside the band. *)
Definition calculatePassesPerDay (stationLat debrisInclination : num) : num :=
  let lat := Math_abs stationLat in
  let inc := Math_abs debrisInclination in
  if lat >? inc + 10 then 0
  else
    let passes0 := 2 * (1 + Math_abs (lat - inc) / 90) in
    Math_floor passes0.

End Visibility.

(* ================================================================= *)
(** ** Synthetic elevation profiles *)

Module VisibilitySpec.
Import Visibility.

(** The sampling step of the scanner, in milliseconds. *)
Definition stepMs : Z := 60000.

(** An elevation profile with a single crossing: [above] during the
    [len] milliseconds from [t0] on, [below] at any other time. *)
Definition crossing (t0 len : Z) (above below : num) : Date -> num :=
  fun t => if ((t0 <=? t) && (t <? t0 + len))%Z then above else below.

(** A constant azimuth. *)
Definition north : Date -> num := fun _ => Fin 0.

(** A closed pass that lasted [n] sampling steps. *)
Definition lastedSteps (n : Z) (p : Pass) : Prop :=
  (1 <= n)%Z /\ endTime p = (startTime p + n * stepMs)%Z /\
  duration p = Fin (IZR (n * 60)).

(** The state of the loop before the sample at [currentTime]:
    [isPassActive] holds exactly when [currentPass] is set, the open pass
    started a whole number of steps earlier, and every recorded pass
    lasted a whole number of steps. *)
Definition scan_invariant (currentTime : Date) (st : ScanState) : Prop :=
  (isPassActive st = true <-> currentPass st <> None) /\
  (forall p, currentPass st = Some p ->
     exists n, (1 <= n)%Z /\
               currentTime = (open_startTime p + n * stepMs)%Z) /\
  Forall (fun p => exists n, lastedSteps n p) (passes st).

(** The pass [p] has ended before [q] starts. *)
Definition apart (p q : Pass) : Prop := (endTime p < startTime q)%Z.

Section Soundness.

Variable elevationAt : Date -> num.
Variable azimuthAt : Date -> num.
Variable minElevation : num.

(** The [n] samples from [start] on are all above the threshold. *)
Definition samples_above (start : Date) (n : Z) : Prop :=
  forall k, (0 <= k < n)%Z ->
    gtb (elevationAt (start + k * stepMs)%Z) minElevation = true.

(** [m] is the highest of the [n] samples from [start] on: it is one of
    them and none is greater. *)
Definition highest_sample (start : Date) (n : Z) (m : num) : Prop :=
  (exists j, (0 <= j < n)%Z /\ m = elevationAt (start + j * stepMs)%Z) /\
  forall k, (0 <= k < n)%Z ->
    gtb (elevationAt (start + k * stepMs)%Z) m = false.

(** A recorded pass between [lo] and [hi]: it starts at a sample, every
    sample up to its end is above the threshold and the sample at its
    end is not; it carries the highest of its samples and the azimuth at
    its start. *)
Definition sound_pass (lo hi : Date) (p : Pass) : Prop :=
  exists n : Z,
    lastedSteps n p /\
    (lo <= startTime p)%Z /\ (endTime p < hi)%Z /\
    samples_above (startTime p) n /\
    gtb (elevationAt (endTime p)) minElevation = false /\
    highest_sample (startTime p) n (maxElevation p) /\
    azimuthStart p = azimuthAt (startTime p).

(** The state of the loop before the sample at [t]. *)
Definition scan_sound (lo hi t : Date) (st : ScanState) : Prop :=
  (isPassActive st = true <-> currentPass st <> None) /\
  StronglySorted apart (passes st) /\
  Forall (sound_pass lo hi) (passes st) /\
  Forall (fun p => (endTime p < t)%Z) (passes st) /\
  (forall c, currentPass st = Some c ->
     exists n : Z,
       (1 <= n)%Z /\ t = (open_startTime c + n * stepMs)%Z /\
       (lo <= open_startTime c)%Z /\
       samples_above (open_startTime c) n /\
       highest_sample (open_startTime c) n (open_maxElevation c) /\
       open_azimuthStart c = azimuthAt (open_startTime c) /\
       Forall (fun p => (endTime p < open_startTime c)%Z) (passes st)).

End Soundness.

(** A pass of one of the stations, within the [days] days after the call
    made for it, above [minElevation]. *)
Definition station_pass (stations : list Station) (days : Z)
    (minElevation : num) (p : Pass) : Prop :=
  exists s, In s stations /\
    sound_pass (elevationFrom s) (azimuthFrom s) minElevation
      (callTime s) (addDays (callTime s) days) p.

End VisibilitySpec.

(* ================================================================= *)
(** ** The mission planner of the front end *)

Module MissionPlanner.
Import OrbitalMechanics Visibility JSArray.
Local Open Scope num_scope.

Module LASER_PARAMS.
Definition PULSE_ENERGY : num := 100e3.
Definition WAVELENGTH : num := 1030e-9.
Definition PULSE_DURATION : num := 5e-9.
Definition TRANSMITTER_DIAMETER : num := 4.0.
Definition BEAM_QUALITY : num := 1.2.
End LASER_PARAMS.

Record MaterialProperties : Type := mkMaterialProperties {
  MAX_TEMP_RISE : num;
  SPECIFIC_HEAT : num;
  DENSITY : num
}.

Definition MATERIAL_PROPERTIES (m : Physics.Material) : MaterialProperties :=
  match m with
  | Physics.ALUMINUM => mkMaterialProperties 100 900 2700
  | Physics.STEEL => mkMaterialProperties 200 470 7850
  | Physics.MLI => mkMaterialProperties 80 1000 100
  end.

(** An entry of the debris catalogue (the TLE lines go to the
    propagator only). *)
Record CatalogDebris : Type := mkCatalogDebris {
  cat_size : num;
  cat_mass : num;
  cat_material : Physics.Material;
  cat_areaToMass : num;
  cat_perigee : num;
  cat_apogee : num;
  cat_inclination : num
}.

Definition DEBRIS_CATALOG : list CatalogDebris :=
  [ mkCatalogDebris 0.5 15 Physics.ALUMINUM 0.02 480 520 82.5;
    mkCatalogDebris 0.3 5 Physics.ALUMINUM 0.03 750 820 98.7;
    mkCatalogDebris 2.5 450 Physics.STEEL 0.008 380 410 51.6;
    mkCatalogDebris 0.1 0.5 Physics.MLI 0.05 550 600 45.6 ].

Definition calculateLaserDeltaV (pulseEnergy mass distance : num) : num :=
  let divergenceAngle :=
    (LASER_PARAMS.BEAM_QUALITY * LASER_PARAMS.WAVELENGTH) /
    (Math_PI * (LASER_PARAMS.TRANSMITTER_DIAMETER / 2)) in
  let beamRadius :=
    (LASER_PARAMS.TRANSMITTER_DIAMETER / 2) + distance * divergenceAngle in
  let beamArea := Math_PI * beamRadius * beamRadius in
  let fluenceJm2 := (pulseEnergy * 0.7) / beamArea in
  let fluence := fluenceJm2 / 10000 in
  let cm : num :=
    if fluence <? 10 then 5e-6
    else if fluence <? 50 then (5 + (fluence - 10) * 0.5) * 1e-6
    else 25e-6 in
  (cm * pulseEnergy) / mass.

Definition calculateMaxPulses (debris : CatalogDebris) (fluence : num) : num :=
  let material := MATERIAL_PROPERTIES (cat_material debris) in
  let maxTempRise := MAX_TEMP_RISE material in
  let specificHeat := SPECIFIC_HEAT material in
  let absorptionEff : num :=
    if fluence <? 20 then 0.3
    else Math_min 0.8 (0.3 + (fluence - 20) * 0.01) in
  let energyPerPulse := fluence * 10000 * absorptionEff in
  let tempRisePerPulse :=
    (cat_areaToMass debris * energyPerPulse) / specificHeat in
  Math_floor (maxTempRise / tempRisePerPulse).

(** [{...pass, stationId, stationName}] *)
Record StationPass : Type := mkStationPass {
  sp_pass : Pass;
  sp_stationId : num;
  sp_stationName : string
}.

Record PassDetail : Type := mkPassDetail {
  detail_passNumber : nat;
  detail_time : Date;
  detail_duration : num;
  detail_pulses : num;
  detail_deltaV : num;
  detail_station : string;
  detail_elevation : num
}.

(** The object given to [setMissionResults]. *)
Record MissionResults : Type := mkMissionResults {
  res_debris : CatalogDebris;
  res_passesNeeded : nat;
  res_totalPasses : nat;
  res_totalDeltaV : num;
  res_durationDays : num;
  res_totalEnergyGJ : num;
  res_totalPulses : num;
  res_reEntryAchieved : bool;
  res_finalPerigee : num;
  res_atmosphericDecay : AtmosphericDecay;
  res_passDetails : list PassDetail;
  res_orbitalEvolution : list EvolutionEntry;
  res_deltaVPerPulse : num;
  res_fluence : num
}.

(** What a click on the button leads to: the alert, an exception in the
    timer callback ([TypeError]: a property of [undefined] is read), or
    the results given to [setMissionResults]. *)
Inductive Outcome : Type :=
| Alerted
| Thrown
| Published (results : MissionResults).

(** The passes of all stations over 90 days above 20 degrees, each
    with the station it belongs to, sorted by start time. *)
Definition collectPasses (stations : list Station) : list StationPass :=
  let allPasses :=
    flat_map
      (fun station =>
         map (fun pass =>
                mkStationPass pass (station_id station)
                  (station_name station))
           (calculateVisibilityWindows (elevationFrom station)
              (azimuthFrom station) (callTime station) 90 20))
      stations in
  sortBy (fun p => startTime (sp_pass p)) allPasses.

(** The body of the timer callback once the passes are collected. *)
Definition simulateMission (selectedDebris : CatalogDebris)
    (allPasses : list StationPass) : Outcome :=
  let distance := (cat_perigee selectedDebris + 6371) * 1000 in
  let deltaVPerPulse :=
    calculateLaserDeltaV LASER_PARAMS.PULSE_ENERGY (cat_mass selectedDebris)
      distance in
  let divergenceAngle :=
    (LASER_PARAMS.BEAM_QUALITY * LASER_PARAMS.WAVELENGTH) /
    (Math_PI * (LASER_PARAMS.TRANSMITTER_DIAMETER / 2)) in
  let beamRadius :=
    (LASER_PARAMS.TRANSMITTER_DIAMETER / 2) + distance * divergenceAngle in
  let beamArea := Math_PI * beamRadius * beamRadius in
  let fluence := (LASER_PARAMS.PULSE_ENERGY * 0.7) / (beamArea * 10000) in
  let maxPulsesPerPass := calculateMaxPulses selectedDebris fluence in
  let passDetails :=
    mapIndexed
      (fun pass idx =>
         let pulsesThisPass :=
           Math_min maxPulsesPerPass
             (Math_floor (duration (sp_pass pass) / 0.1)) in
         let totalDeltaV := deltaVPerPulse * pulsesThisPass in
         {| detail_passNumber := idx + 1;
            detail_time := startTime (sp_pass pass);
            detail_duration := duration (sp_pass pass);
            detail_pulses := pulsesThisPass;
            detail_deltaV := totalDeltaV;
            detail_station := sp_stationName pass;
            detail_elevation := maxElevation (sp_pass pass) |})
      allPasses 0 in
  let deltaVsPerPass := map detail_deltaV passDetails in
  let orbitalEvolution :=
    trackPerigeeEvolution (cat_perigee selectedDebris)
      (cat_apogee selectedDebris) deltaVsPerPass in
  let reEntryPass :=
    find (fun e => isReEntryAchieved (perigeeAlt e)) orbitalEvolution in
  let passesNeeded :=
    match reEntryPass with
    | Some e => passNumber e
    | None => length orbitalEvolution
    end in
  let totalDeltaV := sumOf (fun dv => dv) (firstn passesNeeded deltaVsPerPass) in
  match
    match reEntryPass with
    | Some e => Some (perigeeAlt e)
    | None =>
        option_map perigeeAlt
          (nth_error orbitalEvolution (length orbitalEvolution - 1))
    end
  with
  | None => Thrown
  | Some finalPerigee =>
      let decay :=
        estimateAtmosphericDecay finalPerigee (cat_areaToMass selectedDebris) in
      match nth_error allPasses 0 with
      | None => Thrown
      | Some first =>
          let firstPass := startTime (sp_pass first) in
          let index :=
            Z.min (Z.of_nat passesNeeded - 1)
              (Z.of_nat (length allPasses) - 1) in
          match
            if (index <? 0)%Z then None
            else nth_error allPasses (Z.to_nat index)
          with
          | None => Thrown
          | Some last =>
              let lastPass := startTime (sp_pass last) in
              let durationDays :=
                Fin (IZR (lastPass - firstPass)) / (1000 * 60 * 60 * 24) in
              let totalPulses :=
                sumOf detail_pulses (firstn passesNeeded passDetails) in
              let totalEnergyGJ :=
                (totalPulses * LASER_PARAMS.PULSE_ENERGY) / 1e9 in
              Published
                {| res_debris := selectedDebris;
                   res_passesNeeded := passesNeeded;
                   res_totalPasses := length allPasses;
                   res_totalDeltaV := totalDeltaV;
                   res_durationDays := durationDays;
                   res_totalEnergyGJ := totalEnergyGJ;
                   res_totalPulses := totalPulses;
                   res_reEntryAchieved :=
                     match reEntryPass with Some _ => true | None => false end;
                   res_finalPerigee := finalPerigee;
                   res_atmosphericDecay := decay;
                   res_passDetails :=
                     firstn (Nat.min 20 passesNeeded) passDetails;
                   res_orbitalEvolution :=
                     firstn (Nat.min 50 passesNeeded) orbitalEvolution;
                   res_deltaVPerPulse := deltaVPerPulse;
                   res_fluence := fluence |}
          end
      end
  end.

(** [runMissionSimulation], in the planner that has no cost analysis:
    what the click leads to. *)
Definition runMissionSimulation (selectedDebris : option CatalogDebris)
    (stations : list Station) : Outcome :=
  match selectedDebris, stations with
  | None, _ => Alerted
  | Some _, [] => Alerted
  | Some debris, _ :: _ => simulateMission debris (collectPasses stations)
  end.

End MissionPlanner.

(* ================================================================= *)
(** ** The mission planner: what the properties are stated with *)

Module MissionSpec.
Import OrbitalMechanics Visibility VisibilitySpec MissionPlanner.

(** What holds of published results: there was a pass and the perigee
    was not below the threshold to begin with; the passes needed are
    between 1 and one more than the passes there are, the latter exactly
    when re-entry is not achieved; the published evolution holds no
    entry below the threshold; the details are numbered from 1; and the
    duration is a number of days that is not negative, zero when one
    pass is needed. *)
Definition published_ok (debris : CatalogDebris) (allPasses : list StationPass)
    (r : MissionResults) : Prop :=
  allPasses <> [] /\
  isReEntryAchieved (cat_perigee debris) = false /\
  res_totalPasses r = length allPasses /\
  (1 <= res_passesNeeded r <= S (res_totalPasses r))%nat /\
  (res_reEntryAchieved r = true <->
     (res_passesNeeded r <= res_totalPasses r)%nat) /\
  (res_reEntryAchieved r = true ->
     isReEntryAchieved (res_finalPerigee r) = true) /\
  Forall (fun e => isReEntryAchieved (perigeeAlt e) = false)
    (res_orbitalEvolution r) /\
  (length (res_passDetails r) <= 20)%nat /\
  (length (res_orbitalEvolution r) <= 50)%nat /\
  (forall k detail,
     nth_error (res_passDetails r) k = Some detail ->
     detail_passNumber detail = S k) /\
  exists D : R,
    res_durationDays r = Fin D /\ (0 <= D)%R /\
    (res_passesNeeded r = 1%nat -> D = 0%R).

(** A pass of one of the stations over 90 days above 20 degrees, with
    the name and the id of the station. *)
Definition collected_pass (stations : list Station) (sp : StationPass)
    : Prop :=
  exists s, In s stations /\
    sp_stationId sp = station_id s /\ sp_stationName sp = station_name s /\
    sound_pass (elevationFrom s) (azimuthFrom s) (Fin 20)
      (callTime s) (addDays (callTime s) 90) (sp_pass sp).

End MissionSpec.

(* ================================================================= *)
(** ** The cost and comparison estimator of the front end *)

Module CostEstimator.
Local Open Scope num_scope.

(** Modelled from the spec: the fixed quantities of the Cost/Comparison
    Estimator (section 4.7 of the specification), the function
    [calculateMissionCost] that the mission planner of the front end
    imports from [./Physics.js].  That file is not among the sources;
    the physics module that is has an older function of the same name
    ([Physics.calculateMissionCost]: one comparison, no savings, no
    guard).  The specification names a price per unit of energy, a
    wall-plug efficiency, a daily operating cost and the reference costs
    of several alternative removal methods without giving their values;
    nor does it say what a guarded ratio reports, which is taken to be a
    fixed finite number. *)
Record Constants : Type := mkConstants {
  pricePerUnit : R;
  wallPlugEfficiency : R;
  dailyOperatingCost : R;
  referenceCosts : list R;
  guardedFactor : R
}.

(** Modelled from the spec: what the missing estimator reports for one
    alternative method, "a 'times cheaper' factor and a savings
    percentage". *)
Record Comparison : Type := mkComparison {
  timesCheaper : num;
  savingsPercent : num
}.

(** Modelled from the spec: the result of the missing estimator,
    "electricity cost, fixed daily operating cost x duration, summed
    total", and the comparison with each alternative method. *)
Record CostEstimate : Type := mkCostEstimate {
  electricityCost : num;
  operatingCost : num;
  totalCost : num;
  comparisons : list Comparison
}.

(** Modelled from the spec: the comparison of the missing estimator with
    one reference cost.  "A ratio against each of several fixed reference
    costs": the factor is [reference / total], behind the "division-by-zero
    guard when total cost is zero"; the savings are the part of the
    reference cost that is not spent, in percent. *)
Definition compare (k : Constants) (total : num) (reference : R)
    : Comparison :=
  {| timesCheaper :=
       if total =? 0 then Fin (guardedFactor k)
       else overflow (reference / total);
     savingsPercent :=
       overflow (overflow (overflow (reference - total) / reference) * 100) |}.

(** Modelled from the spec: [calculateMissionCost] of the missing
    [./Physics.js], "a pure function of (total energy, duration in
    days)": the electricity cost "via a fixed price-per-energy-unit and
    assumed wall-plug efficiency", the operating cost, their sum, and the
    comparisons.  Each result is a double: it overflows to an
    infinity. *)
Definition estimate (k : Constants) (energy duration : num) : CostEstimate :=
  let electrical := overflow (energy / wallPlugEfficiency k) in
  let electricity := overflow (electrical * pricePerUnit k) in
  let operating := overflow (dailyOperatingCost k * duration) in
  let total := overflow (electricity + operating) in
  {| electricityCost := electricity;
     operatingCost := operating;
     totalCost := total;
     comparisons := map (compare k total) (referenceCosts k) |}.

End CostEstimator.

(* ================================================================= *)
(** ** The cost estimator: what the properties are stated with *)

Module CostSpec.
Import CostEstimator.

(** The constants of the older function [Physics.calculateMissionCost]:
    0.10 per kWh at 277.778 kWh per GJ, no loss at the wall plug, 5000 per
    day, and one alternative, the spacecraft mission at 100e6; a guarded
    factor reads 0. *)
Definition olderConstants : Constants :=
  {| pricePerUnit := 277.778 * 0.10;
     wallPlugEfficiency := 1;
     dailyOperatingCost := 5000;
     referenceCosts := [100e6%R];
     guardedFactor := 0 |}.

(** A real number that is a finite double up to rounding. *)
Definition inRange (x : R) : Prop := Rabs x < overflowThreshold.

(** The exact values of the estimate. *)
Definition electricalOf (k : Constants) (E : R) : R :=
  E / wallPlugEfficiency k.

Definition electricityOf (k : Constants) (E : R) : R :=
  electricalOf k E * pricePerUnit k.

Definition operatingOf (k : Constants) (D : R) : R :=
  dailyOperatingCost k * D.

Definition totalOf (k : Constants) (E D : R) : R :=
  electricityOf k E + operatingOf k D.

Definition factorOf (k : Constants) (total c : R) : R :=
  if Req_dec_T total 0 then guardedFactor k else c / total.

Definition percentOf (total c : R) : R := (c - total) / c * 100.

Definition comparisonOf (k : Constants) (total c : R) : Comparison :=
  {| timesCheaper := Fin (factorOf k total c);
     savingsPercent := Fin (percentOf total c) |}.

(** No result of the computation overflows: not the costs, and for each
    reference cost [c] not the factor and not a step toward the
    percentage. *)
Definition comparisonInRange (k : Constants) (total c : R) : Prop :=
  inRange (factorOf k total c) /\ inRange (c - total) /\
  inRange ((c - total) / c) /\ inRange (percentOf total c).

Definition noOverflow (k : Constants) (E D : R) : Prop :=
  inRange (electricalOf k E) /\ inRange (electricityOf k E) /\
  inRange (operatingOf k D) /\ inRange (totalOf k E D) /\
  Forall (comparisonInRange k (totalOf k E D)) (referenceCosts k).

(** Every field of an estimate is a finite number. *)
Definition finiteComparison (c : Comparison) : bool :=
  is_finite (timesCheaper c) && is_finite (savingsPercent c).

Definition allFinite (r : CostEstimate) : bool :=
  is_finite (electricityCost r) && is_finite (operatingCost r) &&
  is_finite (totalCost r) && forallb finiteComparison (comparisons r).

End CostSpec.

(* ================================================================= *)
(** ** Properties of JavaScript numbers *)

Section Decisions.

Variable A : Type.
Variables a b c : A.

Lemma Rlt_dec_true (x y : R) :
  x < y -> (if Rlt_dec x y then a else b) = a.
Proof. intros H; destruct (Rlt_dec x y); [reflexivity | contradiction]. Qed.

Lemma Rlt_dec_false (x y : R) :
  y <= x -> (if Rlt_dec x y then a else b) = b.
Proof. intros H; destruct (Rlt_dec x y); [lra | reflexivity]. Qed.

Lemma Req_dec_true (x y : R) :
  x = y -> (if Req_dec_T x y then a else b) = a.
Proof. intros H; destruct (Req_dec_T x y); [reflexivity | contradiction]. Qed.

Lemma Req_dec_false (x y : R) :
  x <> y -> (if Req_dec_T x y then a else b) = b.
Proof. intros H; destruct (Req_dec_T x y); [contradiction | reflexivity]. Qed.

End Decisions.

Lemma Rltb_true (x y : R) : x < y -> Rltb x y = true.
Proof. intros H; unfold Rltb; apply Rlt_dec_true; exact H. Qed.

Lemma Rltb_false (x y : R) : y <= x -> Rltb x y = false.
Proof. intros H; unfold Rltb; apply Rlt_dec_false; exact H. Qed.

Lemma Rleb_true (x y : R) : x <= y -> Rleb x y = true.
Proof.
  intros H; unfold Rleb; destruct (Rle_dec x y); [reflexivity | contradiction].
Qed.

Lemma Rleb_false (x y : R) : y < x -> Rleb x y = false.
Proof. intros H; unfold Rleb; destruct (Rle_dec x y); [lra | reflexivity]. Qed.

Lemma Rltb_spec (x y : R) : Rltb x y = true <-> x < y.
Proof.
  split; intros H.
  - destruct (Rlt_dec x y) as [L | L]; [exact L |].
    rewrite Rltb_false in H by lra; discriminate.
  - apply Rltb_true; exact H.
Qed.

Lemma Rleb_spec (x y : R) : Rleb x y = true <-> x <= y.
Proof.
  split; intros H.
  - destruct (Rle_dec x y) as [L | L]; [exact L |].
    rewrite Rleb_false in H by lra; discriminate.
  - apply Rleb_true; exact H.
Qed.

(** Evaluation of a numeric expression whose comparisons [lra] decides. *)
Ltac num_decide :=
  match goal with
  | |- context [Rltb ?x ?y] =>
      first [ rewrite (Rltb_true x y) by lra
            | rewrite (Rltb_false x y) by lra ]
  | |- context [Rleb ?x ?y] =>
      first [ rewrite (Rleb_true x y) by lra
            | rewrite (Rleb_false x y) by lra ]
  | |- context [Rlt_dec ?x ?y] =>
      first [ rewrite (Rlt_dec_true _ _ _ x y) by lra
            | rewrite (Rlt_dec_false _ _ _ x y) by lra ]
  | |- context [Req_dec_T ?x ?y] =>
      first [ rewrite (Req_dec_true _ _ _ x y) by lra
            | rewrite (Req_dec_false _ _ _ x y) by lra ]
  end.

Ltac num_cbn :=
  cbn [add sub mul div neg ltb leb gtb geb eqb scale_inf
       Math_max Math_min Math_sqrt Math_exp Math_pow Math_abs Math_floor
       is_nan is_finite or_default andb negb orb].

Ltac num_eval := num_cbn; repeat (num_decide; num_cbn).

(** Case split on a comparison the hypotheses leave open. *)
Ltac num_split :=
  match goal with
  | |- context [Rltb ?x ?y] =>
      destruct (Rlt_dec x y);
      [ rewrite (Rltb_true x y) by assumption
      | rewrite (Rltb_false x y) by lra ]
  | |- context [Rleb ?x ?y] =>
      destruct (Rle_dec x y);
      [ rewrite (Rleb_true x y) by assumption
      | rewrite (Rleb_false x y) by lra ]
  end.

Ltac num_cases := num_eval; repeat (num_split; num_eval).

Lemma Fin_inj (x y : R) : Fin x = Fin y -> x = y.
Proof. intros H; injection H; trivial. Qed.

Lemma Fin_eq (x y : R) : x = y -> Fin x = Fin y.
Proof. intros H; rewrite H; reflexivity. Qed.

Lemma div_Fin (x y : R) : y <> 0 -> div (Fin x) (Fin y) = Fin (x / y).
Proof. intros H; cbn; rewrite Req_dec_false by exact H; reflexivity. Qed.

(* ================================================================= *)
(** ** Laser-beam model: the coupling and absorption curves *)

Module LaserBeamFacts.
Import Physics.

(** C1 (as the code has it).  On finite fluences the momentum-coupling
    coefficient is the piecewise-linear curve: [5 + f/2] below 10 (from 5
    at 0 to 10), [10 + 0.375 (f - 10)] between 10 and 50 (from 10 to 25),
    [25 - 0.05 (f - 50)] between 50 and 150 (from 25 down to 20), then
    [20 - 0.05 (f - 150)] between 150 and 350 (from 20 down to 10) and
    the constant floor 10 from 350 on. *)
Theorem momentumCouplingCoefficient_curve (f : R) :
  (f < 10 -> momentumCouplingCoefficient f = Fin (5 + f * 0.5)) /\
  (10 <= f < 50 ->
     momentumCouplingCoefficient f = Fin (10 + (f - 10) * 0.375)) /\
  (50 <= f < 150 ->
     momentumCouplingCoefficient f = Fin (25 - (f - 50) * 0.05)) /\
  (150 <= f <= 350 ->
     momentumCouplingCoefficient f = Fin (20 - (f - 150) * 0.05)) /\
  (350 <= f -> momentumCouplingCoefficient f = Fin 10) /\
  momentumCouplingCoefficient 0 = Fin 5 /\
  momentumCouplingCoefficient 10 = Fin 10 /\
  momentumCouplingCoefficient 50 = Fin 25 /\
  momentumCouplingCoefficient 150 = Fin 20 /\
  momentumCouplingCoefficient 350 = Fin 10.
Proof.
  unfold momentumCouplingCoefficient.
  repeat split; intros; num_cases; apply Fin_eq; lra.
Qed.

(** The curve at 200 J/cm^2, in the fourth segment. *)
Lemma momentumCouplingCoefficient_curve_witness :
  momentumCouplingCoefficient 200 = Fin (20 - (200 - 150) * 0.05).
Proof.
  apply (proj1 (proj2 (proj2 (proj2 (momentumCouplingCoefficient_curve 200))))).
  lra.
Defined.

(** C1 (as stated) fails: above 150 J/cm^2 the coefficient is not a
    constant floor; it is 17.5 at 200 and 12.5 at 300. *)
Lemma momentumCouplingCoefficient_no_floor_above_150 :
  ~ (forall f g : R, 150 < f -> 150 < g ->
       momentumCouplingCoefficient f = momentumCouplingCoefficient g).
Proof.
  intros H. specialize (H 200 300).
  unfold momentumCouplingCoefficient in H. revert H. num_eval.
  intros H. assert (E := Fin_inj _ _ (H ltac:(lra) ltac:(lra))). lra.
Qed.

(** C2 (as the code has it).  On finite fluences the heat-absorption
    efficiency is 0.7 below 20, [0.7 - 0.003 (f - 20)] between 20 and 100
    (down to 0.46), then [0.46 - 0.001 (f - 100)] between 100 and 260
    (from 0.46 down to 0.3) and the constant floor 0.3 from 260 on. *)
Theorem heatAbsorptionEfficiency_curve (f : R) :
  (f < 20 -> heatAbsorptionEfficiency f = Fin 0.7) /\
  (20 <= f < 100 ->
     heatAbsorptionEfficiency f = Fin (0.7 - (f - 20) * 0.003)) /\
  (100 <= f <= 260 ->
     heatAbsorptionEfficiency f = Fin (0.46 - (f - 100) * 0.001)) /\
  (260 <= f -> heatAbsorptionEfficiency f = Fin 0.3) /\
  heatAbsorptionEfficiency 20 = Fin 0.7 /\
  heatAbsorptionEfficiency 100 = Fin 0.46 /\
  heatAbsorptionEfficiency 260 = Fin 0.3.
Proof.
  unfold heatAbsorptionEfficiency.
  repeat split; intros; num_cases; apply Fin_eq; lra.
Qed.

(** The curve at 150 J/cm^2, in the third segment. *)
Lemma heatAbsorptionEfficiency_curve_witness :
  heatAbsorptionEfficiency 150 = Fin (0.46 - (150 - 100) * 0.001).
Proof.
  apply (proj1 (proj2 (proj2 (heatAbsorptionEfficiency_curve 150)))).
  lra.
Defined.

(** C2 (as stated) fails: above 100 J/cm^2 the efficiency is not the
    constant 0.3; at 150 it is 0.41. *)
Lemma heatAbsorptionEfficiency_no_floor_above_100 :
  ~ (forall f : R, 100 < f -> heatAbsorptionEfficiency f = Fin 0.3).
Proof.
  intros H. specialize (H 150).
  unfold heatAbsorptionEfficiency in H. revert H. num_eval.
  intros H. assert (E := Fin_inj _ _ (H ltac:(lra))). lra.
Qed.

(** Both curves are bounded on finite fluences; the efficiency lies in
    [0.3, 0.7]. *)
Lemma heatAbsorptionEfficiency_range (f : R) :
  exists h : R, heatAbsorptionEfficiency f = Fin h /\ 0.3 <= h <= 0.7.
Proof.
  unfold heatAbsorptionEfficiency.
  num_cases; eexists; (split; [reflexivity | lra]).
Qed.

End LaserBeamFacts.

(* ================================================================= *)
(** ** Thermal budget tracker *)

Module ThermalFacts.
Import Physics ThermalSpec.
Local Open Scope num_scope.

Lemma Rltb_negb_Rleb (x y : R) : Rltb x y = negb (Rleb y x).
Proof.
  destruct (Rlt_dec x y).
  - rewrite Rltb_true, Rleb_false by assumption; reflexivity.
  - rewrite Rltb_false, Rleb_true by lra; reflexivity.
Qed.

(** Away from [NaN], [!(a >= b)] is [a < b]. *)
Lemma negb_geb_ltb (a b : num) :
  is_nan a = false -> is_nan b = false -> negb (a >=? b) = (a <? b).
Proof.
  destruct a, b; cbn; intros; try reflexivity; try discriminate.
  rewrite Rltb_negb_Rleb; reflexivity.
Qed.

Lemma leb_nan_l (a b : num) : is_nan a = true -> (a <=? b) = false.
Proof. destruct a; cbn; intros; try discriminate; reflexivity. Qed.

Lemma sub_nan_l (a b : num) : is_nan a = true -> is_nan (a - b) = true.
Proof. destruct a; cbn; intros; try discriminate; reflexivity. Qed.

Lemma newThermalBudgetTracker_constructed
    (m : Material) (mass0 area0 initialTemp : num) :
  constructed (newThermalBudgetTracker m mass0 area0 initialTemp).
Proof. repeat split. Qed.

Lemma applyHeating_constructed this n f ts :
  constructed this -> constructed (snd (applyHeating this n f ts)).
Proof.
  intros H. unfold applyHeating.
  destruct (_ && _); cbn [snd]; [| exact H].
  exact H.
Qed.

Lemma applyCooling_constructed this t :
  constructed this -> constructed (snd (applyCooling this t)).
Proof. intros H; exact H. Qed.

Lemma constructed_meltingPoint this :
  constructed this -> is_nan (meltingPoint this) = false.
Proof.
  intros (_ & _ & _ & ->). destruct (material this); reflexivity.
Qed.

(** C3.  [applyHeating] proposes [newTemp = currentTemp + deltaT] with
    [deltaT = (area/mass)/specificHeat * (eta(fluence) * fluence_Jm2 * pulses)];
    it accepts exactly when [newTemp - ambient <= maxTempRise] and
    [newTemp < meltingPoint], then storing [newTemp] and returning success
    with the safety margin; otherwise it rejects with [MELTING_RISK] when
    [newTemp >= meltingPoint] and [TEMP_LIMIT_EXCEEDED] otherwise, and the
    tracker (hence [currentTemp]) is left exactly as it was. *)
Theorem applyHeating_spec
    (this : ThermalBudgetTracker) (pulses fluence timestamp : num) :
  constructed this ->
  let deltaT :=
    (area this / mass this) / specificHeat this *
    (heatAbsorptionEfficiency fluence * (fluence * 10000) * pulses) in
  let newTemp := currentTemp this + deltaT in
  let accept :=
    (newTemp - ambientTemp this <=? maxTempRise this) &&
    (newTemp <? meltingPoint this) in
  (accept = true ->
     fst (applyHeating this pulses fluence timestamp) =
       HeatingSuccess newTemp deltaT (newTemp - ambientTemp this)
         (maxTempRise this - (newTemp - ambientTemp this)) /\
     currentTemp (snd (applyHeating this pulses fluence timestamp)) = newTemp)
  /\
  (accept = false ->
     fst (applyHeating this pulses fluence timestamp) =
       HeatingFailure
         (if newTemp >=? meltingPoint this
          then MELTING_RISK else TEMP_LIMIT_EXCEEDED)
         (currentTemp this) newTemp (ambientTemp this + maxTempRise this) /\
     snd (applyHeating this pulses fluence timestamp) = this /\
     currentTemp (snd (applyHeating this pulses fluence timestamp)) =
       currentTemp this).
Proof.
  intros Hc deltaT newTemp accept.
  assert (Hm := constructed_meltingPoint this Hc).
  destruct Hc as (Ha2m & _).
  unfold applyHeating, calculateTempRise.
  rewrite Ha2m. fold deltaT. fold newTemp.
  assert (E : (newTemp - ambientTemp this <=? maxTempRise this) &&
              negb (newTemp >=? meltingPoint this) = accept).
  { unfold accept. destruct (is_nan newTemp) eqn:N.
    - rewrite (leb_nan_l _ _ (sub_nan_l _ _ N)). reflexivity.
    - rewrite negb_geb_ltb by assumption. reflexivity. }
  rewrite E. split; intros ->; cbn [fst snd currentTemp push_heatHistory
    set_currentTemp maxTempRise]; auto.
Qed.

Ltac tracker_eval :=
  cbv [applyHeating applyCooling calculateTempRise exampleTracker
       newThermalBudgetTracker heatAbsorptionEfficiency MATERIALS
       set_currentTemp push_heatHistory
       material mass area areaToMass specificHeat maxTempRise meltingPoint
       thermalConductivity currentTemp ambientTemp heatHistory
       SPECIFIC_HEAT MAX_TEMP_RISE MELTING_POINT THERMAL_CONDUCTIVITY
       fst snd];
  num_eval.

(** One pulse at 1 J/cm^2 on the example tracker is accepted. *)
Lemma applyHeating_spec_witness :
  constructed exampleTracker /\
  heating_success (fst (applyHeating exampleTracker 1 1 0)) = true.
Proof.
  split; [apply newThermalBudgetTracker_constructed |].
  pose proof (applyHeating_spec exampleTracker 1 1 0
                (newThermalBudgetTracker_constructed _ _ _ _)) as H.
  cbv zeta in H. destruct H as [H _].
  destruct H as [H _]; [| rewrite H; reflexivity].
  tracker_eval. reflexivity.
Defined.

(** A thousand pulses at 100 J/cm^2 are refused: the proposed temperature
    is above the melting point. *)
Example applyHeating_melting :
  fst (applyHeating exampleTracker 1000 100 0) =
    HeatingFailure MELTING_RISK 270
      (270 + 0.1 / 15 / 900 * (0.46 * (100 * 10000) * 1000))
      (270 + 100)
  /\ snd (applyHeating exampleTracker 1000 100 0) = exampleTracker.
Proof.
  tracker_eval. split; [| reflexivity].
  f_equal; apply Fin_eq; lra.
Qed.

(** *** Cooling *)

Lemma exp_le_1 (x : R) : (x <= 0)%R -> (exp x <= 1)%R.
Proof.
  intros [H | ->].
  - rewrite <- exp_0. left. apply exp_increasing. exact H.
  - rewrite exp_0. lra.
Qed.

Section Cooling.

Variable this : ThermalBudgetTracker.
Variables m ar c T Ta t : R.

Hypothesis mass_finite : mass this = Fin m.
Hypothesis area_finite : area this = Fin ar.
Hypothesis specificHeat_finite : specificHeat this = Fin c.
Hypothesis currentTemp_finite : currentTemp this = Fin T.
Hypothesis ambientTemp_finite : ambientTemp this = Fin Ta.
Hypothesis mass_pos : (0 < m)%R.
Hypothesis area_pos : (0 < ar)%R.
Hypothesis specificHeat_pos : (0 < c)%R.
Hypothesis currentTemp_pos : (0 < T)%R.
Hypothesis elapsed_nonneg : (0 <= t)%R.

Local Abbreviation coolingRate := (coolingRate ar m c).
Local Abbreviation timeConstant := (timeConstant ar m c T).
Local Abbreviation cooledTemp := (cooledTemp ar m c T Ta t).

Lemma coolingRate_pos : (0 < coolingRate)%R.
Proof.
  unfold ThermalSpec.coolingRate. apply Rdiv_lt_0_compat; [lra |].
  apply Rmult_lt_0_compat; assumption.
Qed.

Lemma timeConstant_denominator_pos : (0 < 4 * coolingRate * T ^ 3)%R.
Proof.
  assert (K := coolingRate_pos).
  apply Rmult_lt_0_compat; [lra |]. apply pow_lt. exact currentTemp_pos.
Qed.

Lemma timeConstant_pos : (0 < timeConstant)%R.
Proof.
  unfold ThermalSpec.timeConstant. apply Rdiv_lt_0_compat; [lra |].
  exact timeConstant_denominator_pos.
Qed.

Lemma applyCooling_value :
  applyCooling this (Fin t) =
    (Fin cooledTemp, set_currentTemp this (Fin cooledTemp)).
Proof.
  assert (D := timeConstant_denominator_pos).
  assert (P := timeConstant_pos).
  assert (M : (0 < m * c)%R) by (apply Rmult_lt_0_compat; assumption).
  unfold applyCooling.
  rewrite mass_finite, area_finite, specificHeat_finite,
    currentTemp_finite, ambientTemp_finite.
  cbn [Math_pow mul neg].
  rewrite (div_Fin _ (m * c)) by lra.
  fold coolingRate. cbn [mul].
  replace (4 * coolingRate * (T * (T * T)))%R
    with (4 * coolingRate * T ^ 3)%R by ring.
  rewrite (div_Fin 1) by lra.
  fold timeConstant.
  rewrite (div_Fin (- t)) by lra.
  cbn [Math_exp sub add neg mul currentTemp set_currentTemp].
  replace (Ta + (T + - Ta) * exp (- t / timeConstant))%R
    with cooledTemp by (unfold ThermalSpec.cooledTemp; ring).
  reflexivity.
Qed.

Lemma cooledTemp_closer :
  (Rabs (cooledTemp - Ta) <= Rabs (T - Ta))%R.
Proof.
  assert (P := timeConstant_pos).
  unfold ThermalSpec.cooledTemp.
  replace (Ta + (T - Ta) * exp (- t / timeConstant) - Ta)%R
    with ((T - Ta) * exp (- t / timeConstant))%R by ring.
  rewrite Rabs_mult.
  rewrite (Rabs_pos_eq (exp _)) by (left; apply exp_pos).
  assert (E : (exp (- t / timeConstant) <= 1)%R).
  { apply exp_le_1. unfold Rdiv.
    assert (0 <= t * / timeConstant)%R.
    { apply Rmult_le_pos; [assumption |].
      left. apply Rinv_0_lt_compat. exact P. }
    lra. }
  assert (A := Rabs_pos (T - Ta)).
  nra.
Qed.

End Cooling.

(** C7 (as the code has it).  On a tracker with positive mass, area,
    specific heat and (absolute) temperature, after a non-negative elapsed
    time [applyCooling] returns a number, never an error: the temperature
    [ambient + (current - ambient) * exp (- elapsed / tau)] with
    [tau = 1 / (4 * coolingRate * T^3)] and
    [coolingRate = 0.8 * sigma * area / (mass * specificHeat)]; it stores
    that temperature, and [|temperature - ambient|] does not increase. *)
Theorem applyCooling_spec
    (this : ThermalBudgetTracker) (m ar c T Ta t : R) :
  mass this = Fin m -> area this = Fin ar -> specificHeat this = Fin c ->
  currentTemp this = Fin T -> ambientTemp this = Fin Ta ->
  (0 < m)%R -> (0 < ar)%R -> (0 < c)%R -> (0 < T)%R -> (0 <= t)%R ->
  let rate := (0.8 * 5.67e-8 * ar / (m * c))%R in
  let tau := (1 / (4 * rate * T ^ 3))%R in
  let T' := (Ta + (T - Ta) * exp (- t / tau))%R in
  fst (applyCooling this (Fin t)) = Fin T' /\
  currentTemp (snd (applyCooling this (Fin t))) = Fin T' /\
  ambientTemp (snd (applyCooling this (Fin t))) = Fin Ta /\
  (Rabs (T' - Ta) <= Rabs (T - Ta))%R.
Proof.
  intros Hm Ha Hc HT HTa m0 a0 c0 T0 t0 rate tau T'.
  rewrite (applyCooling_value this m ar c T Ta t) by assumption.
  cbn [fst snd currentTemp ambientTemp set_currentTemp].
  repeat split; try assumption.
  apply (cooledTemp_closer m ar c T Ta t); assumption.
Qed.

(** An hour of cooling of the example tracker from 300 K toward 270 K. *)
Lemma applyCooling_spec_witness :
  currentTemp (snd (applyCooling (set_currentTemp exampleTracker 300) 3600)) =
    Fin (270 + (300 - 270) *
           exp (- 3600 /
                (1 / (4 * (0.8 * 5.67e-8 * 0.1 / (15 * 900)) * 300 ^ 3))))%R.
Proof.
  pose proof (applyCooling_spec (set_currentTemp exampleTracker 300)
                15 0.1 900 300 270 3600
                eq_refl eq_refl eq_refl eq_refl eq_refl
                ltac:(lra) ltac:(lra) ltac:(lra) ltac:(lra) ltac:(lra)) as H.
  cbv zeta in H. exact (proj1 (proj2 H)).
Defined.

(** C7 (as stated) fails for trackers outside that domain, which the
    constructor accepts as it checks nothing.  A tracker of mass 0: the
    cooling rate is [Infinity], the time constant 0, and after 0 seconds
    the temperature is [NaN].  A tracker built at the temperature -3
    and heated to -2: the cube of the temperature, and with it the time
    constant, is negative, and one second of cooling takes the
    temperature further from the ambient one than it was. *)
Lemma applyCooling_not_for_every_tracker :
  fst (applyCooling (newThermalBudgetTracker ALUMINUM 0 0.1 270) 0) = NaN /\
  exists T' : R,
    fst (applyCooling
           (set_currentTemp
              (newThermalBudgetTracker ALUMINUM 15 0.1 (Fin (-3)))
              (Fin (-2))) 1) = Fin T' /\
    (Rabs (-2 - -3) < Rabs (T' - -3))%R.
Proof.
  split.
  - unfold applyCooling, newThermalBudgetTracker.
    cbn [mass area specificHeat currentTemp ambientTemp set_currentTemp
         MATERIALS SPECIFIC_HEAT fst].
    num_eval. repeat (progress unfold scale_inf; num_eval). reflexivity.
  - unfold applyCooling, newThermalBudgetTracker.
    cbn [mass area specificHeat currentTemp ambientTemp set_currentTemp
         MATERIALS SPECIFIC_HEAT fst].
    num_eval. repeat (progress unfold scale_inf; num_eval).
    eexists. split; [reflexivity |].
    set (x := (- (1) / (1 / (4 * (0.8 * 5.67e-8 * 0.1 / (15 * 900))
                               * (-2 * (-2 * -2)))))%R).
    assert (Hx : (0 < x)%R).
    { replace x with (32 * (0.8 * 5.67e-8 * 0.1 / (15 * 900)))%R
        by (unfold x; field; lra).
      lra. }
    assert (He : (1 < exp x)%R)
      by (rewrite <- exp_0; apply exp_increasing; exact Hx).
    rewrite !Rabs_pos_eq by lra. lra.
Qed.

End ThermalFacts.

(* ================================================================= *)
(** ** One laser pass *)

Module LaserPassFacts.
Import Physics ThermalSpec Scenario.
Local Open Scope num_scope.

(** The Rayleigh range of a beam of wavelength [lam], aperture diameter
    [D] and quality factor [q]. *)
Local Abbreviation rayleigh lam D q := (PI * (D / 2) * (D / 2) / (q * lam))%R.

(** Within ten Rayleigh ranges the beam radius is the Gaussian one. *)
Lemma calculateBeamRadius_near (d lam D q : R) :
  (0 < lam)%R -> (0 < D)%R -> (0 < q)%R ->
  (d <= 10 * rayleigh lam D q)%R ->
  calculateBeamRadius d lam D q =
    Fin (D / 2 * sqrt (1 + d / rayleigh lam D q * (d / rayleigh lam D q))).
Proof.
  intros Hl HD Hq Hd.
  assert (Hpi := PI_RGT_0).
  assert (Hql : (0 < q * lam)%R) by (apply Rmult_lt_0_compat; assumption).
  assert (Hr : (0 < rayleigh lam D q)%R).
  { apply Rdiv_lt_0_compat; [| exact Hql].
    apply Rmult_lt_0_compat; [apply Rmult_lt_0_compat |]; lra. }
  unfold calculateBeamRadius, Math_PI.
  rewrite (div_Fin D 2) by lra. cbn [mul].
  rewrite (div_Fin _ (q * lam)) by lra.
  cbn [mul gtb ltb]. rewrite Rltb_false by lra.
  rewrite (div_Fin d) by lra.
  cbn [Math_pow mul add Math_sqrt].
  rewrite Rlt_dec_false; [reflexivity |].
  assert (S := Rle_0_sqr (d / rayleigh lam D q)). unfold Rsqr in S. lra.
Qed.

(** Beyond ten Rayleigh ranges it is the far-field one. *)
Lemma calculateBeamRadius_far (d lam D q : R) :
  (0 < lam)%R -> (0 < D)%R -> (0 < q)%R ->
  (10 * rayleigh lam D q < d)%R ->
  calculateBeamRadius d lam D q =
    Fin (D / 2 + d * (q * lam / (PI * (D / 2)))).
Proof.
  intros Hl HD Hq Hd.
  assert (Hpi := PI_RGT_0).
  assert (Hql : (0 < q * lam)%R) by (apply Rmult_lt_0_compat; assumption).
  assert (Hp : (0 < PI * (D / 2))%R) by (apply Rmult_lt_0_compat; lra).
  unfold calculateBeamRadius, Math_PI.
  rewrite (div_Fin D 2) by lra. cbn [mul].
  rewrite (div_Fin _ (q * lam)) by lra.
  cbn [mul gtb ltb]. rewrite Rltb_true by lra.
  rewrite (div_Fin _ (PI * (D / 2))) by lra.
  reflexivity.
Qed.

Lemma calculateIntensity_finite (E tau w : R) :
  tau <> 0%R -> (0 < w)%R ->
  calculateIntensity E tau w = Fin (E / tau / (PI * w * w) / 10000).
Proof.
  intros Ht Hw. assert (Hpi := PI_RGT_0).
  assert (Hp : (0 < PI * w * w)%R)
    by (apply Rmult_lt_0_compat; [apply Rmult_lt_0_compat |]; lra).
  unfold calculateIntensity, Math_PI.
  rewrite (div_Fin E) by exact Ht. cbn [mul].
  rewrite (div_Fin _ (PI * w * w)) by lra.
  rewrite div_Fin by lra. reflexivity.
Qed.

(** A hundred solar constants, in W/cm^2. *)
Lemma maxIntensity_value :
  SAFETY.SOLAR_CONSTANT * SAFETY.MAX_SOLAR_CONSTANT_MULTIPLIER / 10000 =
  Fin 13.61.
Proof.
  unfold SAFETY.SOLAR_CONSTANT, SAFETY.MAX_SOLAR_CONSTANT_MULTIPLIER.
  num_eval. apply Fin_eq. lra.
Qed.

(** C6.  When the debris is larger than 5 and the computed intensity
    exceeds a hundred solar constants (13.61 W/cm^2), [simulateLaserPass]
    returns the failure [INTENSITY_TOO_HIGH], carrying the intensity and
    the limit and no updated orbital elements, and the thermal tracker is
    left as it was. *)
Theorem simulateLaserPass_intensity_gate
    (debris : Debris) (laserParams : LaserParams) (distance : num)
    (thermalTracker : ThermalBudgetTracker) (timestamp : num) :
  let beamRadius :=
    calculateBeamRadius distance (wavelength laserParams)
      (transmitterDiameter laserParams) (beamQuality laserParams) in
  let intensity :=
    calculateIntensity (pulseEnergy laserParams) (pulseDuration laserParams)
      beamRadius in
  (debris_size debris >? 5) = true ->
  (intensity >? Fin 13.61) = true ->
  simulateLaserPass debris laserParams distance thermalTracker timestamp =
    (PassFailure INTENSITY_TOO_HIGH (IntensityDetail intensity (Fin 13.61)),
     thermalTracker).
Proof.
  intros beamRadius intensity Hsize Hint.
  unfold simulateLaserPass. fold beamRadius. fold intensity.
  rewrite maxIntensity_value, Hsize, Hint. reflexivity.
Qed.

(** The example laser aimed at a six-metre object 900 km away is
    refused: within ten Rayleigh ranges the beam is at most 4 m wide. *)
Lemma simulateLaserPass_intensity_gate_witness :
  exists intensity : num,
    simulateLaserPass largeDebris exampleLaser 900e3 exampleTracker 0 =
      (PassFailure INTENSITY_TOO_HIGH (IntensityDetail intensity (Fin 13.61)),
       exampleTracker).
Proof.
  eexists.
  apply (simulateLaserPass_intensity_gate largeDebris exampleLaser 900e3
           exampleTracker 0).
  - cbn [largeDebris debris_size gtb ltb]. apply Rltb_true. lra.
  - cbn [exampleLaser wavelength transmitterDiameter beamQuality
         pulseEnergy pulseDuration].
    assert (Hpi := PI_RGT_0). assert (Hpi3 := PI2_3_2).
    rewrite calculateBeamRadius_near by lra.
    set (x := (900e3 / rayleigh 1030e-9 4.0 1.2)%R).
    assert (Hx : (0 <= x <= 1)%R).
    { unfold x. split.
      - apply Rmult_le_pos; [lra |]. left. apply Rinv_0_lt_compat. lra.
      - apply Rmult_le_reg_r with (rayleigh 1030e-9 4.0 1.2); [lra |].
        unfold Rdiv at 1. rewrite Rmult_assoc, Rinv_l by lra. lra. }
    set (s := sqrt (1 + x * x)).
    assert (Hs : (1 <= s <= 2)%R).
    { unfold s. split.
      - rewrite <- sqrt_1 at 1. apply sqrt_le_1_alt. nra.
      - replace 2%R with (sqrt (2 * 2)) by (apply sqrt_square; lra).
        apply sqrt_le_1_alt. nra. }
    set (w := (4.0 / 2 * s)%R).
    assert (Hw : (2 <= w <= 4)%R) by (unfold w; lra).
    rewrite calculateIntensity_finite by lra.
    cbn [gtb ltb]. apply Rltb_true.
    set (P := (PI * w * w)%R).
    assert (HP : (0 < P <= 64)%R).
    { unfold P. split; [nra |]. assert (PI <= 4)%R by apply PI_4. nra. }
    assert (HI : (/ 64 <= / P)%R) by (apply Rinv_le_contravar; lra).
    unfold Rdiv. lra.
Defined.

(** *** The thermal pulse budget *)

(** C10 fails at a zero thermal margin with zero absorbed energy per
    pulse (zero fluence): the quotient is [0/0], and [Math.max(1, NaN)]
    is [NaN], which is not at least 1. *)
Theorem calculateMaxPulsesPerPass_zero_margin_zero_fluence :
  calculateMaxPulsesPerPass 0 370 0 0.02 900 = NaN /\
  (Fin 1 <=? calculateMaxPulsesPerPass 0 370 0 0.02 900) = false.
Proof.
  assert (E : calculateMaxPulsesPerPass 0 370 0 0.02 900 = NaN).
  { unfold calculateMaxPulsesPerPass, heatAbsorptionEfficiency.
    num_eval. reflexivity. }
  rewrite E. split; reflexivity.
Qed.

Lemma Math_max_1 (x : num) :
  is_nan (Math_max 1 x) = true \/ (Fin 1 <=? Math_max 1 x) = true.
Proof.
  destruct x as [x | | |]; cbn.
  - right. destruct (Rlt_dec 1 x).
    + rewrite Rltb_true by assumption. cbn. apply Rleb_true. lra.
    + rewrite Rltb_false by lra. cbn. apply Rleb_true. lra.
  - right. reflexivity.
  - right. apply Rleb_true. lra.
  - left. reflexivity.
Qed.

(** Whatever its arguments, the thermal budget is [NaN] or at least 1. *)
Lemma calculateMaxPulsesPerPass_nan_or_ge_1
    (maxTempRise0 currentTemp0 fluence areaToMass0 specificHeat0 : num) :
  let r :=
    calculateMaxPulsesPerPass maxTempRise0 currentTemp0 fluence areaToMass0
      specificHeat0 in
  is_nan r = true \/ (Fin 1 <=? r) = true.
Proof. apply Math_max_1. Qed.

(** A minimum below 1 whose first argument is [NaN] or at least 1 comes
    from the second argument. *)
Lemma Math_min_below_1 (a b : num) :
  is_nan a = true \/ (Fin 1 <=? a) = true ->
  (Math_min a b <? 1) = true -> (b <? 1) = true.
Proof.
  intros [N | G].
  - destruct a; discriminate.
  - destruct a as [x | | |], b as [y | | |]; cbn in *;
      try discriminate; try reflexivity; intros H; try exact H.
    + apply Rleb_spec in G.
      destruct (Rlt_dec y x).
      * rewrite Rltb_true in H by assumption. exact H.
      * rewrite Rltb_false in H by lra. cbn in H.
        apply Rltb_spec in H. lra.
    + apply Rleb_spec in G. apply Rltb_spec in H. lra.
Qed.

Lemma applyHeating_failure_reason this n f ts :
  failure_reason (fst (applyHeating this n f ts)) <> THERMAL_LIMIT_REACHED.
Proof.
  unfold applyHeating.
  destruct (_ && _); cbn; [discriminate |].
  destruct (_ >=? _); discriminate.
Qed.

(** The refusal [THERMAL_LIMIT_REACHED] is only returned when the
    time-based pulse limit is below 1: the thermal budget alone never
    causes it. *)
Lemma simulateLaserPass_thermal_limit_by_time
    (debris : Debris) (laserParams : LaserParams) (distance : num)
    (thermalTracker : ThermalBudgetTracker) (timestamp : num)
    (detail : RefusalDetail) :
  fst (simulateLaserPass debris laserParams distance thermalTracker timestamp)
    = PassFailure THERMAL_LIMIT_REACHED detail ->
  (Math_floor (or_default (debris_visibilityDuration debris) 300
               * repetitionRate laserParams) <? 1) = true.
Proof.
  unfold simulateLaserPass.
  destruct (_ && _); cbn [fst]; [discriminate |].
  match goal with
  | |- context [Math_min ?a ?b <? ?c] => destruct (Math_min a b <? c) eqn:E
  end.
  - intros _. revert E. apply Math_min_below_1.
    apply calculateMaxPulsesPerPass_nan_or_ge_1.
  - match goal with
    | |- context [applyHeating ?t ?n ?f ?ts] =>
        pose proof (applyHeating_failure_reason t n f ts) as F;
        destruct (applyHeating t n f ts) as [r t1]
    end.
    cbn [fst] in F.
    destruct (negb (heating_success r)); cbn [fst]; intros H.
    + injection H as H _. contradiction.
    + discriminate.
Qed.

(** *** Cost estimate *)

(** The cost function of the physics module has no guard.  With no
    energy and no duration, as for a campaign without a pass, the total
    cost is zero, the ratio to the spacecraft cost is [Infinity] and the
    cost per kilometre is [NaN]. *)
Lemma calculateMissionCost_zero_not_finite :
  totalCost (calculateMissionCost 0 0) = Fin 0 /\
  comparisonToSpacecraft (calculateMissionCost 0 0) = PInf /\
  costPerKm (calculateMissionCost 0 0) = NaN.
Proof.
  unfold calculateMissionCost.
  cbn [totalCost comparisonToSpacecraft costPerKm].
  num_eval. repeat split. apply Fin_eq. lra.
Qed.

End LaserPassFacts.

(* ================================================================= *)
(** ** The cost and comparison estimator *)

Module CostEstimatorFacts.
Import CostEstimator CostSpec.
Local Open Scope num_scope.




(** A result in range is kept; one at or above the threshold is
    [Infinity]. *)
Lemma overflow_Fin (x : R) : inRange x -> overflow (Fin x) = Fin x.
Proof.
  intros H. apply Rabs_def2 in H. unfold overflow.
  destruct (Rle_dec overflowThreshold x); [lra |].
  destruct (Rle_dec x (- overflowThreshold)); [lra | reflexivity].
Qed.


Section Estimate.

Variable k : Constants.
Variables E D : R.

Hypothesis efficiency_pos : (0 < wallPlugEfficiency k)%R.
Hypothesis no_overflow : noOverflow k E D.

(** The three costs. *)
Lemma estimate_costs :
  electricityCost (estimate k E D) = Fin (electricityOf k E) /\
  operatingCost (estimate k E D) = Fin (operatingOf k D) /\
  totalCost (estimate k E D) = Fin (totalOf k E D).
Proof.
  destruct no_overflow as (H1 & H2 & H3 & H4 & _).
  unfold estimate. cbn [electricityCost operatingCost totalCost].
  rewrite (div_Fin E (wallPlugEfficiency k)) by lra.
  fold (electricalOf k E). rewrite (overflow_Fin _ H1). cbn [mul].
  fold (electricityOf k E). rewrite (overflow_Fin _ H2).
  fold (operatingOf k D). rewrite (overflow_Fin _ H3). cbn [add].
  fold (totalOf k E D). rewrite (overflow_Fin _ H4).
  repeat split.
Qed.

(** One comparison: the guard at total cost zero, the ratio elsewhere. *)
Lemma compare_value (c : R) :
  (0 < c)%R -> comparisonInRange k (totalOf k E D) c ->
  compare k (Fin (totalOf k E D)) c = comparisonOf k (totalOf k E D) c.
Proof.
  intros Hc (Hf & H1 & H2 & H3).
  unfold compare, comparisonOf, factorOf, percentOf in *. cbn [eqb].
  set (total := totalOf k E D) in *.
  f_equal.
  - destruct (Req_dec_T total 0) as [Z | NZ]; [reflexivity |].
    rewrite (div_Fin c total) by exact NZ. apply overflow_Fin. exact Hf.
  - cbn [sub add neg].
    replace (c + - total)%R with (c - total)%R by ring.
    rewrite (overflow_Fin _ H1).
    rewrite (div_Fin _ c) by lra.
    rewrite (overflow_Fin _ H2). cbn [mul].
    apply overflow_Fin. exact H3.
Qed.

Lemma comparisons_value (cs : list R) :
  Forall (fun c => 0 < c)%R cs ->
  Forall (comparisonInRange k (totalOf k E D)) cs ->
  map (compare k (Fin (totalOf k E D))) cs =
    map (comparisonOf k (totalOf k E D)) cs.
Proof.
  induction 1 as [| c cs Hc _ IH]; intros Hr; [reflexivity |].
  inversion Hr as [| c0 cs0 Hc0 Hcs]; subst. cbn [map].
  rewrite (compare_value c Hc Hc0), (IH Hcs). reflexivity.
Qed.

End Estimate.

Lemma comparisonOf_finite (k : Constants) (total : R) (cs : list R) :
  forallb finiteComparison (map (comparisonOf k total) cs) = true.
Proof. induction cs as [| c cs IH]; [reflexivity | exact IH]. Qed.

(** The estimate where nothing overflows. *)
Lemma estimate_value (k : Constants) (E D : R) :
  (0 < wallPlugEfficiency k)%R ->
  Forall (fun c => 0 < c)%R (referenceCosts k) ->
  noOverflow k E D ->
  estimate k E D =
    {| electricityCost := Fin (electricityOf k E);
       operatingCost := Fin (operatingOf k D);
       totalCost := Fin (totalOf k E D);
       comparisons :=
         map (comparisonOf k (totalOf k E D)) (referenceCosts k) |} /\
  allFinite (estimate k E D) = true.
Proof.
  intros Heff Hrefs Hno.
  destruct (estimate_costs k E D Heff Hno) as (E1 & E2 & E3).
  assert (E4 : comparisons (estimate k E D) =
               map (comparisonOf k (totalOf k E D)) (referenceCosts k)).
  { change (comparisons (estimate k E D))
      with (map (compare k (totalCost (estimate k E D))) (referenceCosts k)).
    rewrite E3. apply comparisons_value; [exact Hrefs |].
    destruct Hno as (_ & _ & _ & _ & H). exact H. }
  assert (Eq : estimate k E D =
    {| electricityCost := Fin (electricityOf k E);
       operatingCost := Fin (operatingOf k D);
       totalCost := Fin (totalOf k E D);
       comparisons :=
         map (comparisonOf k (totalOf k E D)) (referenceCosts k) |}).
  { destruct (estimate k E D) as [e o t c].
    cbn [electricityCost operatingCost totalCost comparisons] in E1, E2, E3, E4.
    rewrite E1, E2, E3, E4. reflexivity. }
  split; [exact Eq |].
  rewrite Eq. unfold allFinite.
  cbn [electricityCost operatingCost totalCost comparisons is_finite andb].
  apply comparisonOf_finite.
Qed.

(** With its constants, and away from a total cost of zero, the
    estimator gives what the older function of the physics module
    gives. *)
Lemma estimate_extends_older_function (E D : R) :
  noOverflow olderConstants E D ->
  totalOf olderConstants E D <> 0%R ->
  let older := Physics.calculateMissionCost E D in
  let newer := estimate olderConstants E D in
  electricityCost newer = Physics.electricityCost older /\
  operatingCost newer = Physics.operatingCost older /\
  totalCost newer = Physics.totalCost older /\
  map timesCheaper (comparisons newer) = [Physics.comparisonToSpacecraft older].
Proof.
  intros Hno Hnz older newer.
  assert (Heff : (0 < wallPlugEfficiency olderConstants)%R) by (cbn; lra).
  assert (Href : Forall (fun c => 0 < c)%R (referenceCosts olderConstants))
    by (repeat constructor; lra).
  destruct (estimate_value olderConstants E D Heff Href Hno) as [Eq _].
  unfold newer. rewrite Eq.
  cbn [electricityCost operatingCost totalCost comparisons].
  unfold older, Physics.calculateMissionCost.
  cbn [Physics.electricityCost Physics.operatingCost Physics.totalCost
       Physics.comparisonToSpacecraft mul add].
  assert (T : (E * 277.778 * 0.10 + 5000 * D)%R = totalOf olderConstants E D).
  { unfold totalOf, electricityOf, electricalOf, operatingOf. cbn. field. }
  rewrite T. rewrite div_Fin by exact Hnz.
  cbn [olderConstants referenceCosts map timesCheaper comparisonOf].
  unfold factorOf. rewrite Req_dec_false by exact Hnz.
  repeat split; apply Fin_eq;
    unfold electricityOf, electricalOf, operatingOf; cbn; try field; lra.
Qed.





End CostEstimatorFacts.

(* ================================================================= *)
(** ** Perigee evolution *)

Module PerigeeFacts.
Import OrbitalMechanics OrbitSpec.
Local Open Scope num_scope.

Lemma evolutionStep_passEntry (ra : num) (st : EvolutionState) (dv : num)
    (index : nat) :
  let a' := nextSemiMajorAxis ra (var_a st) dv in
  var_a (evolutionStep ra st dv index) = a' /\
  evolution (evolutionStep ra st dv index) =
    evolution st ++ [passEntry ra (index + 1) dv a'].
Proof. split; reflexivity. Qed.

(** The loop appends, pass after pass, the records of the recurrence. *)
Lemma forEach_evolutionStep (ra : num) (deltaVs : list num) :
  forall (index : nat) (st : EvolutionState),
    evolution (forEach (evolutionStep ra) deltaVs index st) =
    evolution st ++ passEntries ra index (var_a st) deltaVs.
Proof.
  induction deltaVs as [| dv rest IH]; intros index st; cbn [forEach passEntries].
  - rewrite app_nil_r. reflexivity.
  - rewrite IH.
    destruct (evolutionStep_passEntry ra st dv index) as [-> ->].
    rewrite <- app_assoc. reflexivity.
Qed.

(** The initial record and the semi-major axis the loop starts from. *)
Lemma trackPerigeeEvolution_unfold (p0 q0 : num) (deltaVs : list num) :
  let ra := q0 + EARTH_RADIUS_KM in
  let rp := p0 + EARTH_RADIUS_KM in
  let a := (p0 + q0) / 2 + EARTH_RADIUS_KM in
  trackPerigeeEvolution p0 q0 deltaVs =
    {| passNumber := 0; perigeeAlt := p0; apogeeAlt := q0;
       semiMajorAxis := a; eccentricity := (ra - rp) / (ra + rp);
       deltaV := None; reEntry := None |}
    :: passEntries ra 0 a deltaVs.
Proof.
  intros ra rp a. unfold trackPerigeeEvolution.
  rewrite forEach_evolutionStep. reflexivity.
Qed.

Lemma passEntries_length ra index a deltaVs :
  length (passEntries ra index a deltaVs) = length deltaVs.
Proof.
  revert index a. induction deltaVs as [| dv rest IH]; intros; cbn.
  - reflexivity.
  - rewrite IH. reflexivity.
Qed.

(** Each record follows from the one before it by one step of the
    recurrence. *)
Lemma passEntries_step (ra : num) (deltaVs : list num) :
  forall (index : nat) (first : EvolutionEntry) (k : nat) (dv : num)
         (prev : EvolutionEntry),
    nth_error deltaVs k = Some dv ->
    nth_error
      (first :: passEntries ra index (semiMajorAxis first) deltaVs) k
      = Some prev ->
    nth_error (passEntries ra index (semiMajorAxis first) deltaVs) k =
      Some (passEntry ra (index + k + 1) dv
              (nextSemiMajorAxis ra (semiMajorAxis prev) dv)).
Proof.
  induction deltaVs as [| dv0 rest IH]; intros index first k dv prev Hdv Hprev.
  - destruct k; discriminate.
  - destruct k as [| k]; cbn [nth_error passEntries] in *.
    + injection Hdv as ->. injection Hprev as ->.
      rewrite Nat.add_0_r. reflexivity.
    + replace (index + S k + 1)%nat with (S index + k + 1)%nat by lia.
      apply (IH (S index)
               (passEntry ra (index + 1) dv0
                  (nextSemiMajorAxis ra (semiMajorAxis first) dv0))
               k dv prev Hdv Hprev).
Qed.

(** C4.  [trackPerigeeEvolution] returns one record per pass after the
    initial one, and every record follows from its predecessor by the
    apogee-anchored recurrence: the speed at apogee, from vis-viva at the
    fixed apogee radius, is reduced by [dv / 1000]; the new semi-major
    axis is solved from vis-viva at that radius; the perigee radius is
    [2a - ra]; and the re-entry flag of the record says whether its
    perigee altitude is below 200 km. *)
Theorem trackPerigeeEvolution_recurrence
    (initialPerigee initialApogee : num) (deltaVs : list num) :
  let ev := trackPerigeeEvolution initialPerigee initialApogee deltaVs in
  let ra := initialApogee + EARTH_RADIUS_KM in
  length ev = S (length deltaVs) /\
  (exists first,
     nth_error ev 0 = Some first /\
     perigeeAlt first = initialPerigee /\
     apogeeAlt first = initialApogee /\
     semiMajorAxis first =
       (initialPerigee + initialApogee) / 2 + EARTH_RADIUS_KM) /\
  (forall (k : nat) (dv : num) (prev : EvolutionEntry),
     nth_error deltaVs k = Some dv ->
     nth_error ev k = Some prev ->
     exists cur,
       nth_error ev (S k) = Some cur /\
       let v_apogee :=
         Math_sqrt (MU_EARTH * (2 / ra - 1 / semiMajorAxis prev)) in
       let v_new := v_apogee - dv / 1000 in
       semiMajorAxis cur = 1 / (2 / ra - v_new * v_new / MU_EARTH) /\
       perigeeAlt cur = (2 * semiMajorAxis cur - ra) - EARTH_RADIUS_KM /\
       apogeeAlt cur = ra - EARTH_RADIUS_KM /\
       passNumber cur = S k /\
       deltaV cur = Some dv /\
       reEntry cur = Some (perigeeAlt cur <? 200)).
Proof.
  intros ev ra. unfold ev. rewrite trackPerigeeEvolution_unfold.
  fold ra. split; [| split].
  - cbn [length]. rewrite passEntries_length. reflexivity.
  - eexists. split; [reflexivity |]. repeat split.
  - intros k dv prev Hdv Hprev.
    eexists. split.
    + cbn [nth_error].
      match goal with
      | |- nth_error (passEntries _ _ ?a _) _ = _ =>
          change a with (semiMajorAxis
            {| passNumber := 0; perigeeAlt := initialPerigee;
               apogeeAlt := initialApogee; semiMajorAxis := a;
               eccentricity :=
                 (ra - (initialPerigee + EARTH_RADIUS_KM)) /
                 (ra + (initialPerigee + EARTH_RADIUS_KM));
               deltaV := None; reEntry := None |})
      end.
      apply (passEntries_step ra deltaVs 0 _ k dv prev Hdv Hprev).
    + cbn [passEntry semiMajorAxis perigeeAlt apogeeAlt passNumber deltaV
           reEntry].
      repeat split. f_equal. lia.
Qed.

(** The first record and one burn of 1 m/s from 480 km by 520 km. *)
Lemma trackPerigeeEvolution_recurrence_witness :
  exists cur,
    nth_error (trackPerigeeEvolution 480 520 [Fin 1]) 1 = Some cur /\
    passNumber cur = 1%nat /\
    reEntry cur = Some (perigeeAlt cur <? 200).
Proof.
  destruct (trackPerigeeEvolution_recurrence 480 520 [Fin 1])
    as (_ & _ & H).
  destruct (H 0%nat (Fin 1) _ eq_refl eq_refl) as (cur & Hc & H1).
  cbv zeta in H1. destruct H1 as (_ & _ & _ & Hn & _ & Hr).
  exists cur. repeat split; assumption.
Defined.

(** Every record after the initial one carries the re-entry flag of its
    own perigee altitude: the first record below 200 km is flagged. *)
Lemma passEntries_reEntry ra index a deltaVs :
  Forall (fun e => reEntry e = Some (isReEntryAchieved (perigeeAlt e)))
    (passEntries ra index a deltaVs).
Proof.
  revert index a.
  induction deltaVs as [| dv rest IH]; intros; cbn [passEntries];
    constructor; [reflexivity | apply IH].
Qed.

(** *** Monotonicity *)

Lemma Rdiv_1_le (x y : R) : (0 < x)%R -> (x <= y)%R -> (1 / y <= 1 / x)%R.
Proof.
  intros Hx Hxy. unfold Rdiv. rewrite !Rmult_1_l.
  apply Rinv_le_contravar; assumption.
Qed.

Section ResolvedBurn.

Variables ra a dv : R.
Hypothesis ra_pos : (0 < ra)%R.
Hypothesis axis_bound : (ra / 2 <= a)%R.
Hypothesis burn_resolved : burnResolved ra a dv.

Local Abbreviation mu := 398600.4418%R.
Local Abbreviation v := (apogeeSpeed ra a).
Local Abbreviation v' := (apogeeSpeed ra a - dv / 1000)%R.
Local Abbreviation drop := (speedSquareDrop ra a dv).

Lemma axis_pos : (0 < a)%R.
Proof. lra. Qed.

Lemma vis_viva_nonneg : (0 <= 2 / ra - 1 / a)%R.
Proof.
  assert (A := axis_pos).
  assert (H : (1 / a <= 1 / (ra / 2))%R) by (apply Rdiv_1_le; lra).
  replace (1 / (ra / 2))%R with (2 / ra)%R in H by (field; lra).
  lra.
Qed.

Lemma apogeeSpeed_nonneg : (0 <= v)%R.
Proof. unfold apogeeSpeed. apply sqrt_pos. Qed.

Lemma apogeeSpeed_square : (v * v = mu * (2 / ra - 1 / a))%R.
Proof.
  unfold apogeeSpeed. apply sqrt_sqrt.
  apply Rmult_le_pos; [lra | apply vis_viva_nonneg].
Qed.

Lemma drop_pos : (0 < drop)%R.
Proof.
  assert (H := burn_resolved). unfold burnResolved in H.
  assert (0 < 398600.4418 / ra)%R by (apply Rdiv_lt_0_compat; lra).
  lra.
Qed.

(** A resolved burn is positive and less than twice the speed at apogee. *)
Lemma burn_window : (0 < dv / 1000 < 2 * v)%R.
Proof.
  assert (D := drop_pos). assert (V := apogeeSpeed_nonneg).
  unfold speedSquareDrop in D.
  destruct (Rle_lt_dec (dv / 1000) 0) as [N | P]; [nra |].
  split; [exact P |]. nra.
Qed.

(** The burn takes [drop] off the squared speed at apogee. *)
Lemma reduced_speed_square : (v' * v' = v * v - drop)%R.
Proof. unfold speedSquareDrop. ring. Qed.

(** The denominator of the new semi-major axis. *)
Lemma axis_denominator :
  (2 / ra - v' * v' / mu = 1 / a + drop / mu)%R.
Proof.
  rewrite reduced_speed_square, apogeeSpeed_square.
  assert (A := axis_pos). field. lra.
Qed.

Lemma axis_denominator_le : (2 / ra - v' * v' / mu <= 2 / ra)%R.
Proof.
  assert (N : (0 <= v' * v' / mu)%R).
  { unfold Rdiv. apply Rmult_le_pos; [exact (Rle_0_sqr v') |].
    left. apply Rinv_0_lt_compat. lra. }
  lra.
Qed.

(** The new semi-major axis keeps the perigee radius non-negative and
    lies below the old one by at least [ra^2 drop / (4 mu)]. *)
Lemma axisAfter_below :
  (ra / 2 <= axisAfter ra a dv)%R /\
  (axisAfter ra a dv + ra * ra * drop / (4 * mu) <= a)%R.
Proof.
  assert (A := axis_pos). assert (D := drop_pos).
  assert (E := axis_denominator). assert (L := axis_denominator_le).
  unfold axisAfter. set (den := (2 / ra - v' * v' / mu)%R) in *.
  assert (Ia : (0 < 1 / a)%R) by (apply Rdiv_lt_0_compat; lra).
  assert (Dm : (0 < drop / mu)%R) by (apply Rdiv_lt_0_compat; lra).
  assert (P : (0 < den)%R) by lra.
  assert (Lo : (ra / 2 <= 1 / den)%R).
  { assert (H : (1 / (2 / ra) <= 1 / den)%R) by (apply Rdiv_1_le; lra).
    replace (1 / (2 / ra))%R with (ra / 2)%R in H by (field; lra).
    exact H. }
  split; [exact Lo |].
  assert (Eq : (a - 1 / den = a * (1 / den) * (drop / mu))%R).
  { replace (drop / mu)%R with (den - 1 / a)%R by lra. field. lra. }
  assert (Q : (ra / 2 * (ra / 2) <= a * (1 / den))%R) by nra.
  assert (F : (ra / 2 * (ra / 2) * (drop / mu) <= a * (1 / den) * (drop / mu))%R).
  { apply Rmult_le_compat_r; lra. }
  replace (ra * ra * drop / (4 * mu))%R
    with (ra / 2 * (ra / 2) * (drop / mu))%R by (field; lra).
  lra.
Qed.

(** The model's step computes the real one. *)
Lemma nextSemiMajorAxis_resolved :
  nextSemiMajorAxis (Fin ra) (Fin a) (Fin dv) = Fin (axisAfter ra a dv).
Proof.
  assert (A := axis_pos). assert (N := vis_viva_nonneg).
  assert (E := axis_denominator). assert (D := drop_pos).
  assert (Ia : (0 < 1 / a)%R) by (apply Rdiv_lt_0_compat; lra).
  assert (Dm : (0 < drop / mu)%R) by (apply Rdiv_lt_0_compat; lra).
  unfold nextSemiMajorAxis, visVivaAxis, visVivaSpeed, MU_EARTH.
  rewrite (div_Fin 2 ra), (div_Fin 1 a) by lra.
  cbn [sub add neg mul Math_sqrt].
  rewrite Rlt_dec_false
    by (apply Rmult_le_pos; [lra |]; unfold Rminus in N; exact N).
  rewrite (div_Fin dv) by lra. cbn [sub add neg mul].
  change (sqrt (mu * (2 / ra + - (1 / a)))) with v.
  rewrite (div_Fin _ mu) by lra. cbn [sub add neg].
  change ((v + - (dv / 1000)))%R with v'.
  rewrite div_Fin; [reflexivity |].
  unfold Rminus in E. lra.
Qed.

End ResolvedBurn.

Lemma passEntry_perigeeAlt (ra a : R) (n : nat) (dv : num) :
  perigeeAlt (passEntry (Fin ra) n dv (Fin a)) = Fin (2 * a - ra - 6371).
Proof.
  cbn [passEntry perigeeAlt]. unfold EARTH_RADIUS_KM.
  cbn [mul sub add neg]. apply Fin_eq. lra.
Qed.

(** Every record after the initial one reports the perigee altitude of
    its own semi-major axis. *)
Lemma passEntries_perigeeAlt (ra : num) (deltaVs : list num) :
  forall (index : nat) (a0 : num),
    Forall (fun e => perigeeAlt e =
                     (2 * semiMajorAxis e - ra) - EARTH_RADIUS_KM)
      (passEntries ra index a0 deltaVs).
Proof.
  induction deltaVs as [| dv rest IH]; intros index a0; cbn [passEntries];
    constructor; [reflexivity | apply IH].
Qed.

(** C5 (as the code has it).  From a pass to the next the perigee
    altitude falls whenever the orbit before the pass has a perigee
    radius that is not negative (semi-major axis [a] at least half the
    apogee radius [ra]) and the burn [dv] of the pass is resolved:
    [drop = dv/1000 * (2 v - dv/1000)], the amount it takes off the
    squared speed [v] at apogee, is at least [2e-9 * mu / ra].  Such a
    burn is positive and less than twice the speed at apogee, and the
    perigee altitude falls by at least [ra^2 * drop / (4 mu)], which is
    at least half a billionth of the apogee radius (half of what the
    exact recurrence loses, so that the bound stays clear of rounding). *)
Theorem perigeeAlt_falls
    (p q : R) (deltaVs : list num) (k : nat) (dv a : R)
    (prev cur : EvolutionEntry) :
  let ev := trackPerigeeEvolution p q deltaVs in
  let ra := (q + 6371)%R in
  let v := apogeeSpeed ra a in
  let drop := (dv / 1000 * (2 * v - dv / 1000))%R in
  (0 < ra)%R ->
  nth_error deltaVs k = Some (Fin dv) ->
  nth_error ev k = Some prev ->
  nth_error ev (S k) = Some cur ->
  semiMajorAxis prev = Fin a ->
  (ra / 2 <= a)%R ->
  (2e-9 * (398600.4418 / ra) <= drop)%R ->
  (0 < dv)%R /\ (dv / 1000 < 2 * v)%R /\
  exists x y : R,
    perigeeAlt prev = Fin x /\ perigeeAlt cur = Fin y /\
    (y + ra * ra * drop / (4 * 398600.4418) <= x)%R /\ (y < x)%R.
Proof.
  intros ev ra v drop Hra Hdv Hprev Hcur Ha Hax Hres.
  assert (W := burn_window ra a dv Hra Hres).
  assert (D := drop_pos ra a dv Hra Hres).
  assert (B := axisAfter_below ra a dv Hra Hax Hres).
  assert (N := nextSemiMajorAxis_resolved ra a dv Hra Hax Hres).
  fold v in W. unfold speedSquareDrop in D, B. fold v in D, B. fold drop in D, B.
  split; [lra |]. split; [lra |].
  unfold ev in Hprev, Hcur.
  rewrite trackPerigeeEvolution_unfold in Hprev, Hcur. cbv zeta in Hprev, Hcur.
  unfold EARTH_RADIUS_KM in Hprev, Hcur. cbn [add] in Hprev, Hcur.
  replace (q + 6371.0)%R with ra in Hprev, Hcur by (unfold ra; lra).
  match type of Hprev with
  | nth_error (?e0 :: passEntries _ _ ?a0 _) _ = _ =>
      set (first := e0) in *;
      change a0 with (semiMajorAxis first) in Hprev, Hcur
  end.
  assert (Hstep := passEntries_step (Fin ra) deltaVs 0 first k (Fin dv) prev
                     Hdv Hprev).
  cbn [nth_error] in Hcur. rewrite Hstep in Hcur. injection Hcur as <-.
  rewrite Ha, N.
  assert (Hx : perigeeAlt prev = Fin (2 * a - ra - 6371)).
  { destruct k as [| k'].
    - cbn [nth_error] in Hprev. injection Hprev as <-.
      unfold first in Ha |- *. cbn [semiMajorAxis perigeeAlt] in Ha |- *.
      rewrite (div_Fin (p + q) 2) in Ha by lra. cbn [add] in Ha.
      apply Fin_inj in Ha. apply Fin_eq. unfold ra. lra.
    - cbn [nth_error] in Hprev. apply nth_error_In in Hprev.
      assert (F := passEntries_perigeeAlt (Fin ra) deltaVs 0 (semiMajorAxis first)).
      rewrite Forall_forall in F. rewrite (F prev Hprev), Ha.
      unfold EARTH_RADIUS_KM. cbn [mul sub add neg]. apply Fin_eq. lra. }
  exists (2 * a - ra - 6371)%R, (2 * axisAfter ra a dv - ra - 6371)%R.
  split; [exact Hx |]. split; [apply passEntry_perigeeAlt |].
  assert (P : (0 < ra * ra * drop / (4 * 398600.4418))%R).
  { apply Rdiv_lt_0_compat; [| lra].
    apply Rmult_lt_0_compat; [nra | exact D]. }
  split; lra.
Qed.

Lemma sqrt_between (lo hi x : R) :
  (0 <= lo)%R -> (lo * lo < x)%R -> (x < hi * hi)%R -> (0 <= hi)%R ->
  (lo < sqrt x < hi)%R.
Proof.
  intros Hlo Hx1 Hx2 Hhi. split.
  - rewrite <- (sqrt_square lo) at 1 by exact Hlo.
    apply sqrt_lt_1_alt. nra.
  - rewrite <- (sqrt_square hi) at 1 by exact Hhi.
    apply sqrt_lt_1_alt. nra.
Qed.

(** One burn of 10000 m/s, more than the speed at apogee and less than
    twice that speed, on the circular orbit at 500 km. *)
Lemma perigeeAlt_falls_witness :
  exists (cur : EvolutionEntry) (y : R),
    nth_error (trackPerigeeEvolution 500 500 [Fin 10000]) 1 = Some cur /\
    perigeeAlt cur = Fin y /\ (y < 500)%R.
Proof.
  eexists. 
  assert (V : (7.6 < apogeeSpeed (500 + 6371) 6871 < 7.7)%R).
  { unfold apogeeSpeed. apply sqrt_between; lra. }
  edestruct (perigeeAlt_falls 500 500 [Fin 10000] 0 10000 6871)
    as (_ & _ & x & y & Hx & Hy & _ & Hlt).
  - lra.
  - reflexivity.
  - reflexivity.
  - reflexivity.
  - cbn [semiMajorAxis add]. unfold EARTH_RADIUS_KM.
    rewrite (div_Fin (500 + 500) 2) by lra. apply Fin_eq. lra.
  - lra.
  - lra.
  - exists y. split; [reflexivity |]. split; [exact Hy |].
    cbn [perigeeAlt] in Hx. apply Fin_inj in Hx. lra.
Defined.

(** C5 (as stated) fails: one positive delta-V of 16000 m/s applied to
    the circular orbit at 500 km reverses the velocity at apogee to a
    higher speed, and the perigee altitude of pass 1 is above 500 km. *)
Lemma perigeeAlt_rises_after_oversized_burn :
  exists (e1 e2 : EvolutionEntry) (y : R),
    nth_error (trackPerigeeEvolution 500 500 [Fin 16000]) 0 = Some e1 /\
    nth_error (trackPerigeeEvolution 500 500 [Fin 16000]) 1 = Some e2 /\
    perigeeAlt e1 = Fin 500 /\
    perigeeAlt e2 = Fin y /\ (500 < y)%R /\
    (perigeeAlt e2 <=? perigeeAlt e1) = false.
Proof.
  rewrite trackPerigeeEvolution_unfold. cbv zeta.
  unfold EARTH_RADIUS_KM. cbn [add]. rewrite (div_Fin (500 + 500) 2) by lra.
  cbn [add passEntries nth_error].
  replace (500 + 6371.0)%R with 6871%R by lra.
  replace ((500 + 500) / 2 + 6371.0)%R with 6871%R by lra.
  unfold nextSemiMajorAxis, visVivaAxis, visVivaSpeed, MU_EARTH.
  rewrite (div_Fin 2 6871), (div_Fin 1 6871) by lra.
  cbn [sub add neg mul Math_sqrt].
  rewrite Rlt_dec_false by lra.
  remember (sqrt (398600.4418 * (2 / 6871 + - (1 / 6871)))) as v0 eqn:Ev0.
  assert (Hv : (7.6 < v0 < 7.7)%R)
    by (rewrite Ev0; apply sqrt_between; lra).
  rewrite (div_Fin 16000 1000) by lra. cbn [sub add neg mul].
  rewrite (div_Fin _ 398600.4418) by lra. cbn [sub add neg].
  remember ((v0 + - (16000 / 1000)) * (v0 + - (16000 / 1000)))%R
    as w eqn:Ew.
  assert (Hw : (68.89 < w < 70.56)%R) by (rewrite Ew; split; nra).
  remember (2 / 6871 + - (w / 398600.4418))%R as den eqn:Eden.
  assert (Hden : (0 < den < 1 / 6871)%R) by (rewrite Eden; lra).
  rewrite (div_Fin 1 den) by lra.
  assert (Ha : (6871 < 1 / den)%R).
  { replace 6871%R with (1 / (1 / 6871))%R at 1 by (field; lra).
    unfold Rdiv at 1 3. rewrite !Rmult_1_l.
    apply Rinv_lt_contravar; [| lra].
    apply Rmult_lt_0_compat; lra. }
  do 2 eexists. exists (2 * (1 / den) - 6871 - 6371)%R.
  split; [reflexivity |]. split; [reflexivity |].
  split; [reflexivity |].
  cbn [passEntry perigeeAlt mul sub add neg leb].
  split; [apply Fin_eq; lra |]. split; [lra |].
  apply Rleb_false. lra.
Qed.

End PerigeeFacts.

(* ================================================================= *)
(** ** Visibility scanner *)

Module VisibilityFacts.
Import Visibility VisibilitySpec.
Local Open Scope num_scope.
Local Open Scope Z_scope.

Lemma duration_of_steps (t : Date) (n : Z) :
  (Fin (IZR (t + n * stepMs - t)) / Fin 1000%R)%num = Fin (IZR (n * 60)).
Proof.
  rewrite div_Fin by lra. apply Fin_eq.
  replace (t + n * stepMs - t) with (n * 60 * 1000) by (unfold stepMs; lia).
  rewrite (mult_IZR (n * 60) 1000). field.
Qed.

Lemma steps_exceed_30 (n : Z) :
  1 <= n -> (Fin (IZR (n * 60)) >? Fin 30%R)%num = true.
Proof.
  intros Hn. cbn [gtb ltb]. apply Rltb_true.
  apply IZR_le in Hn. rewrite mult_IZR. lra.
Qed.

Section Scan.

Variable elevationAt : Date -> num.
Variable azimuthAt : Date -> num.
Variable minElevation : num.
Variable endDate : Date.

Local Abbreviation step := (scanStep elevationAt azimuthAt minElevation).
Local Abbreviation loop := (scanLoop elevationAt azimuthAt).
Local Abbreviation above t := (gtb (elevationAt t) minElevation).

Lemma scan_invariant_init (t : Date) :
  scan_invariant t (mkScanState false None []).
Proof.
  repeat split; cbn; try discriminate; try congruence; constructor.
Qed.

Lemma scanStep_invariant (t : Date) (st : ScanState) :
  scan_invariant t st -> scan_invariant (addMinutes t 1) (step st t).
Proof.
  intros (Hact & Hopen & Hpasses).
  destruct st as [act cp ps].
  unfold scanStep, addMinutes, scan_invariant.
  cbn [isPassActive currentPass passes] in *.
  destruct act, cp as [p |];
    try (exfalso; destruct Hact as [H1 H2];
         first [ apply (H1 eq_refl); reflexivity
               | assert (F : false = true) by (apply H2; discriminate);
                 discriminate F ]).
  - (* a pass is being tracked *)
    destruct (Hopen p eq_refl) as (n & Hn & Ht).
    destruct (elevationAt t >? minElevation)%num; cbn [negb].
    + destruct (elevationAt t >? open_maxElevation p)%num;
        cbn [isPassActive currentPass passes];
        (split; [split; [discriminate | reflexivity] |]);
        (split; [| exact Hpasses]);
        intros q [= <-]; cbn [open_startTime];
        exists (n + 1); unfold stepMs in *; lia.
    + cbn [isPassActive currentPass passes].
      split; [split; [discriminate | intros H; contradiction H; reflexivity] |].
      split; [discriminate |].
      subst t. rewrite duration_of_steps, steps_exceed_30 by exact Hn.
      apply Forall_app. split; [exact Hpasses |].
      constructor; [| constructor].
      exists n. repeat split; cbn; try assumption; reflexivity.
  - (* no pass is being tracked *)
    destruct (elevationAt t >? minElevation)%num; cbn [negb];
      cbn [isPassActive currentPass passes].
    + split; [split; [discriminate | reflexivity] |].
      split; [| exact Hpasses].
      intros q [= <-]; cbn [open_startTime].
      exists 1. unfold stepMs. lia.
    + split; [exact Hact |]. split; [discriminate | exact Hpasses].
Qed.

Lemma scanLoop_invariant (fuel : nat) :
  forall (t : Date) (st : ScanState),
    scan_invariant t st ->
    exists t', scan_invariant t' (loop fuel minElevation endDate t st).
Proof.
  induction fuel as [| fuel IH]; intros t st Hinv; cbn [scanLoop].
  - exists t. exact Hinv.
  - destruct (t <? endDate).
    + apply IH with (t := addMinutes t 1). apply scanStep_invariant. exact Hinv.
    + exists t. exact Hinv.
Qed.

(** While the profile stays at or below the threshold and no pass is
    open, the loop changes nothing. *)
Lemma scanLoop_below (fuel : nat) :
  forall (t : Date) (st : ScanState),
    isPassActive st = false ->
    (forall i, 0 <= i ->
       above (t + i * stepMs) = false) ->
    loop fuel minElevation endDate t st = st.
Proof.
  induction fuel as [| fuel IH]; intros t st Hact Hbelow; cbn [scanLoop].
  - reflexivity.
  - destruct (t <? endDate); [| reflexivity].
    assert (E : step st t = st).
    { unfold scanStep. specialize (Hbelow 0 ltac:(lia)).
      replace (t + 0 * stepMs) with t in Hbelow by lia.
      rewrite Hbelow, Hact. reflexivity. }
    rewrite E. apply IH; [exact Hact |].
    intros i Hi. specialize (Hbelow (i + 1) ltac:(lia)).
    unfold addMinutes.
    replace (t + 1 * 60000 + i * stepMs) with (t + (i + 1) * stepMs)
      by (unfold stepMs; lia).
    exact Hbelow.
Qed.

(** A crossing seen at exactly one sample, [j] steps ahead, with the
    next sample still before the end of the scan, is recorded as one
    pass of one step. *)
Lemma scanLoop_one_sample (j : nat) :
  forall (fuel : nat) (t : Date) (st : ScanState),
    isPassActive st = false ->
    (j + 2 <= fuel)%nat ->
    t + (Z.of_nat j + 1) * stepMs < endDate ->
    (forall i, 0 <= i -> i <> Z.of_nat j ->
       above (t + i * stepMs) = false) ->
    above (t + Z.of_nat j * stepMs) = true ->
    loop fuel minElevation endDate t st =
      mkScanState false None
        (passes st ++
         [ mkPass (t + Z.of_nat j * stepMs)
             (elevationAt (t + Z.of_nat j * stepMs))
             (azimuthAt (t + Z.of_nat j * stepMs))
             (t + (Z.of_nat j + 1) * stepMs)
             (Fin 60%R) ]).
Proof.
  induction j as [| j IH]; intros fuel t st Hact Hfuel Hend Hbelow Habove.
  - destruct fuel as [| [| fuel]]; try lia.
    cbn [Z.of_nat] in *.
    replace (t + 0 * stepMs) with t in * by lia.
    replace (t + (0 + 1) * stepMs) with (t + 60000) in *
      by (unfold stepMs; lia).
    cbn [scanLoop]. unfold addMinutes.
    replace (t + 1 * 60000) with (t + 60000) by lia.
    assert (E1 : (t <? endDate) = true) by (apply Z.ltb_lt; lia).
    assert (E2 : (t + 60000 <? endDate) = true) by (apply Z.ltb_lt; lia).
    rewrite E1, E2.
    assert (B1 : above (t + 60000) = false).
    { specialize (Hbelow 1 ltac:(lia) ltac:(lia)).
      replace (t + 1 * stepMs) with (t + 60000) in Hbelow
        by (unfold stepMs; lia).
      exact Hbelow. }
    unfold scanStep at 2. rewrite Habove, Hact. cbn [negb].
    unfold scanStep at 1.
    cbn [isPassActive currentPass passes open_startTime open_maxElevation
         open_azimuthStart].
    rewrite B1.
    replace (t + 60000 - t) with (t + 1 * stepMs - t) by (unfold stepMs; lia).
    rewrite duration_of_steps, steps_exceed_30 by lia.
    rewrite scanLoop_below.
    + reflexivity.
    + reflexivity.
    + intros i Hi. specialize (Hbelow (i + 2) ltac:(lia) ltac:(lia)).
      match goal with
      | |- above ?x = _ =>
          replace x with (t + (i + 2) * stepMs) by (unfold stepMs; lia)
      end.
      exact Hbelow.
  - destruct fuel as [| fuel]; try lia.
    cbn [scanLoop].
    assert (E1 : (t <? endDate) = true)
      by (apply Z.ltb_lt; unfold stepMs in *; lia).
    rewrite E1.
    assert (E : step st t = st).
    { unfold scanStep. specialize (Hbelow 0 ltac:(lia) ltac:(lia)).
      replace (t + 0 * stepMs) with t in Hbelow by lia.
      rewrite Hbelow, Hact. reflexivity. }
    rewrite E. unfold addMinutes.
    rewrite (IH fuel (t + 1 * 60000) st Hact ltac:(lia)).
    + replace (t + 1 * 60000 + Z.of_nat j * stepMs)
        with (t + Z.of_nat (S j) * stepMs) by (unfold stepMs; lia).
      replace (t + 1 * 60000 + (Z.of_nat j + 1) * stepMs)
        with (t + (Z.of_nat (S j) + 1) * stepMs) by (unfold stepMs; lia).
      reflexivity.
    + unfold stepMs in *. lia.
    + intros i Hi Hij. specialize (Hbelow (i + 1) ltac:(lia) ltac:(lia)).
      replace (t + 1 * 60000 + i * stepMs) with (t + (i + 1) * stepMs)
        by (unfold stepMs; lia).
      exact Hbelow.
    + replace (t + 1 * 60000 + Z.of_nat j * stepMs)
        with (t + Z.of_nat (S j) * stepMs) by (unfold stepMs; lia).
      exact Habove.
Qed.

(** The loop stops by its own test: fuel beyond the number of
    iterations changes nothing. *)
Lemma scanLoop_fuel (n : nat) :
  forall (fuel : nat) (t : Date) (st : ScanState),
    (iterations t endDate <= n)%nat -> (n <= fuel)%nat ->
    loop fuel minElevation endDate t st = loop n minElevation endDate t st.
Proof.
  induction n as [| n IH]; intros fuel t st Hit Hfuel.
  - assert (Hend : endDate <= t).
    { unfold iterations in Hit.
      destruct (Z_lt_le_dec t endDate) as [L | L]; [| exact L].
      assert (1 <= (endDate - t + 59999) / 60000)
        by (apply Z.div_le_lower_bound; lia).
      lia. }
    destruct fuel; cbn [scanLoop]; [reflexivity |].
    replace (t <? endDate) with false by (symmetry; apply Z.ltb_ge; lia).
    reflexivity.
  - destruct fuel as [| fuel]; [lia |]. cbn [scanLoop].
    destruct (t <? endDate) eqn:E; [| reflexivity].
    apply IH; [| lia].
    unfold iterations, addMinutes in *.
    replace (endDate - (t + 1 * 60000) + 59999)
      with (endDate - t + 59999 + (-1) * 60000) by lia.
    rewrite Z.div_add by lia. lia.
Qed.

Lemma iterations_enough (t : Date) (j : nat) :
  t + (Z.of_nat j + 1) * stepMs < endDate ->
  (j + 2 <= iterations t endDate)%nat.
Proof.
  intros H. unfold iterations, stepMs in *.
  assert (Z.of_nat j + 2 <= (endDate - t + 59999) / 60000)
    by (apply Z.div_le_lower_bound; lia).
  lia.
Qed.

End Scan.

(** *** A single crossing shorter than a sampling step *)

Section SingleCrossing.

Variable azimuthAt : Date -> num.
Variable minElevation : num.
Variables t0 len : Z.
Variables hi lo : num.

Hypothesis hi_above : (hi >? minElevation)%num = true.
Hypothesis lo_below : (lo >? minElevation)%num = false.
Hypothesis len_bound : 0 < len <= stepMs.

Lemma crossing_inside (t : Date) :
  t0 <= t < t0 + len ->
  crossing t0 len hi lo t = hi.
Proof.
  intros H. unfold crossing.
  replace (t0 <=? t) with true by (symmetry; apply Z.leb_le; lia).
  replace (t <? t0 + len) with true by (symmetry; apply Z.ltb_lt; lia).
  reflexivity.
Qed.

Lemma crossing_outside (t : Date) :
  ~ (t0 <= t < t0 + len) ->
  (crossing t0 len hi lo t >? minElevation)%num = false.
Proof.
  intros H. unfold crossing.
  destruct (t0 <=? t) eqn:E1; [destruct (t <? t0 + len) eqn:E2 |];
    cbn [andb]; try exact lo_below.
  apply Z.leb_le in E1. apply Z.ltb_lt in E2. lia.
Qed.

(** No sampling instant inside the crossing: nothing is recorded. *)
Lemma single_crossing_missed (startDate days : Z) :
  (forall j, 0 <= j -> ~ (t0 <= startDate + j * stepMs < t0 + len)) ->
  calculateVisibilityWindows (crossing t0 len hi lo) azimuthAt
    startDate days minElevation = [].
Proof.
  intros Hout. unfold calculateVisibilityWindows.
  rewrite scanLoop_below; [reflexivity | reflexivity |].
  intros i Hi. apply crossing_outside. apply Hout. exact Hi.
Qed.

(** The sampling instant [j] inside the crossing, the next one before
    the end of the scan: one pass, of one step. *)
Lemma single_crossing_recorded (startDate days j : Z) :
  0 <= j ->
  t0 <= startDate + j * stepMs < t0 + len ->
  startDate + (j + 1) * stepMs < addDays startDate days ->
  calculateVisibilityWindows (crossing t0 len hi lo) azimuthAt
    startDate days minElevation =
    [ mkPass (startDate + j * stepMs) hi (azimuthAt (startDate + j * stepMs))
        (startDate + (j + 1) * stepMs) (Fin 60%R) ].
Proof.
  intros Hj Hin Hend. unfold calculateVisibilityWindows.
  rewrite <- (Z2Nat.id j) in Hin, Hend |- * by exact Hj.
  rewrite (scanLoop_one_sample (crossing t0 len hi lo) azimuthAt
             minElevation (addDays startDate days) (Z.to_nat j)).
  - cbn [passes app]. rewrite (crossing_inside _ Hin). reflexivity.
  - reflexivity.
  - apply iterations_enough. exact Hend.
  - exact Hend.
  - intros i Hi Hij. apply crossing_outside.
    unfold stepMs in *. lia.
  - rewrite (crossing_inside _ Hin). exact hi_above.
Qed.

End SingleCrossing.

(** C8 (as the code has it).  Every pass returned by the scanner lasted
    a whole number (at least one) of 60-second sampling steps, so its
    duration exceeds 30 seconds.  A single crossing no longer than one
    step, such as one of 20 or of 40 seconds, is seen at one sampling
    instant at most: when none falls inside it, no pass is returned;
    when one does, and the next sample is still before the end of the
    scan, exactly one pass is returned, with reported duration 60
    seconds, which is within one step of the length of the crossing. *)
Theorem calculateVisibilityWindows_minimum_pass
    (elevationAt azimuthAt : Date -> num) (startDate days : Z)
    (minElevation : num) :
  (forall p,
     In p (calculateVisibilityWindows elevationAt azimuthAt startDate days
             minElevation) ->
     (duration p >? Fin 30%R)%num = true /\ exists n, lastedSteps n p)
  /\
  (forall (t0 len : Z) (hi lo : num),
     (hi >? minElevation)%num = true ->
     (lo >? minElevation)%num = false ->
     0 < len <= stepMs ->
     let windows :=
       calculateVisibilityWindows (crossing t0 len hi lo) azimuthAt
         startDate days minElevation in
     ((forall j, 0 <= j -> ~ (t0 <= startDate + j * stepMs < t0 + len)) ->
      windows = [])
     /\
     (forall j, 0 <= j ->
        t0 <= startDate + j * stepMs < t0 + len ->
        startDate + (j + 1) * stepMs < addDays startDate days ->
        windows =
          [ mkPass (startDate + j * stepMs) hi
              (azimuthAt (startDate + j * stepMs))
              (startDate + (j + 1) * stepMs) (Fin 60%R) ]
        /\ (Rabs (60 - IZR len / 1000) <= 60)%R)).
Proof.
  split.
  - intros p Hp. unfold calculateVisibilityWindows in Hp.
    destruct (scanLoop_invariant elevationAt azimuthAt minElevation
                (addDays startDate days)
                (iterations startDate (addDays startDate days))
                startDate _ (scan_invariant_init startDate))
      as (t' & _ & _ & Hall).
    rewrite Forall_forall in Hall.
    destruct (Hall p Hp) as (n & Hn & He & Hd).
    split; [| exists n; repeat split; assumption].
    rewrite Hd. apply steps_exceed_30. exact Hn.
  - intros t0 len hi lo Hhi Hlo Hlen windows. split.
    + apply single_crossing_missed; assumption.
    + intros j Hj Hin Hend. split.
      * apply single_crossing_recorded; assumption.
      * destruct Hlen as [L1 L2]. apply IZR_lt in L1. apply IZR_le in L2.
        unfold stepMs in L2. apply Rabs_le. lra.
Qed.

Ltac scan_side :=
  first [ lia
        | unfold stepMs, addDays; lia
        | cbn [gtb ltb]; apply Rltb_true; lra
        | cbn [gtb ltb]; apply Rltb_false; lra ].

(** A crossing from 30 s to 70 s, scanned for a day from time 0 with
    the threshold at 20 degrees: the sample at 60 s sees it. *)
Lemma calculateVisibilityWindows_minimum_pass_witness :
  calculateVisibilityWindows (crossing 30000 40000 (Fin 45%R) (Fin 0%R))
    north 0 1 (Fin 20%R) =
    [ mkPass 60000 (Fin 45%R) (Fin 0%R) 120000 (Fin 60%R) ].
Proof.
  destruct (calculateVisibilityWindows_minimum_pass north north 0 1
              (Fin 20%R)) as [_ H].
  destruct (H 30000 40000 (Fin 45%R) (Fin 0%R)
              ltac:(scan_side) ltac:(scan_side) ltac:(scan_side))
    as [_ H2].
  destruct (H2 1 ltac:(scan_side) ltac:(scan_side) ltac:(scan_side))
    as [E _].
  exact E.
Defined.

(** C8 (as stated) fails on both counts: a crossing of exactly 20
    seconds (from 50 s to 70 s) is returned, as a pass of 60 seconds,
    because the sample at 60 s falls inside it; and a crossing of 40
    seconds (from 70 s to 110 s) between two samples returns nothing. *)
Lemma short_crossings_depend_on_sampling :
  calculateVisibilityWindows (crossing 50000 20000 (Fin 45%R) (Fin 0%R))
    north 0 1 (Fin 20%R) =
    [ mkPass 60000 (Fin 45%R) (Fin 0%R) 120000 (Fin 60%R) ]
  /\
  calculateVisibilityWindows (crossing 70000 40000 (Fin 45%R) (Fin 0%R))
    north 0 1 (Fin 20%R) = [].
Proof.
  split.
  - apply (single_crossing_recorded north (Fin 20%R) 50000 20000
             (Fin 45%R) (Fin 0%R)) with (j := 1); scan_side.
  - apply (single_crossing_missed north (Fin 20%R) 70000 40000
             (Fin 45%R) (Fin 0%R)); scan_side.
Qed.

End VisibilityFacts.

(* ================================================================= *)
(** ** Arithmetic on finite numbers *)

Lemma mul_Fin (x y : R) : mul (Fin x) (Fin y) = Fin (x * y).
Proof. reflexivity. Qed.

Lemma add_Fin (x y : R) : add (Fin x) (Fin y) = Fin (x + y).
Proof. reflexivity. Qed.

Lemma sub_Fin (x y : R) : sub (Fin x) (Fin y) = Fin (x - y).
Proof. reflexivity. Qed.

Lemma neg_Fin (x : R) : neg (Fin x) = Fin (- x).
Proof. reflexivity. Qed.

Lemma sqrt_Fin (x : R) : 0 <= x -> Math_sqrt (Fin x) = Fin (sqrt x).
Proof. intros H. cbn. apply Rlt_dec_false. exact H. Qed.

Lemma exp_Fin (x : R) : Math_exp (Fin x) = Fin (exp x).
Proof. reflexivity. Qed.

(** Sums, differences and products of finite numbers, innermost first. *)
Ltac fin_arith :=
  repeat first [rewrite mul_Fin | rewrite add_Fin | rewrite sub_Fin
               | rewrite neg_Fin].

(* ================================================================= *)
(** ** Further properties of the laser-beam model *)

Module LaserBeamMore.
Import Physics.
Local Open Scope num_scope.

Lemma momentumCouplingCoefficient_finite (f : R) :
  (0 <= f)%R ->
  exists c : R, momentumCouplingCoefficient f = Fin c /\ (5 <= c <= 25)%R.
Proof.
  intros Hf. unfold momentumCouplingCoefficient.
  num_cases; eexists; (split; [reflexivity | lra]).
Qed.

(** On fluences that are not negative the coupling coefficient stays
    between 5 and 25, and it is 25 at 50 J/cm^2 only. *)
Theorem momentumCouplingCoefficient_range (f : R) :
  (0 <= f)%R ->
  exists c : R,
    momentumCouplingCoefficient f = Fin c /\
    (5 <= c <= 25)%R /\ (c = 25%R -> f = 50%R).
Proof.
  intros Hf. unfold momentumCouplingCoefficient.
  num_cases; eexists; (split; [reflexivity | split; [lra | intros; lra]]).
Qed.

Lemma momentumCouplingCoefficient_range_witness :
  exists c : R,
    momentumCouplingCoefficient 30 = Fin c /\
    (5 <= c <= 25)%R /\ (c = 25%R -> 30%R = 50%R).
Proof.
  apply (momentumCouplingCoefficient_range 30). lra.
Defined.

(** X1.  The velocity change of one pulse lies between [5e-6 E / m] and
    [25e-6 E / m], and that of [n] pulses is [n] times as much. *)
Theorem calculateDeltaV_bounds (E m f n : R) :
  (0 <= E)%R -> (0 < m)%R -> (0 <= f)%R ->
  exists d : R,
    calculateDeltaV E m f = Fin d /\
    (5e-6 * E / m <= d <= 25e-6 * E / m)%R /\
    calculateCumulativeDeltaV n E m f = Fin (d * n).
Proof.
  intros HE Hm Hf.
  destruct (momentumCouplingCoefficient_finite f Hf) as (c & Hc & Hb).
  unfold calculateCumulativeDeltaV, calculateDeltaV. rewrite Hc.
  cbn [mul]. rewrite div_Fin by lra. cbn [mul].
  eexists. split; [reflexivity |]. split; [| reflexivity].
  assert (Hi : (0 < / m)%R) by (apply Rinv_0_lt_compat; exact Hm).
  unfold Rdiv.
  assert (0 <= E * / m)%R by (apply Rmult_le_pos; lra).
  split; nra.
Qed.

Lemma calculateDeltaV_bounds_witness :
  exists d : R,
    calculateDeltaV 100e3 15 0.5 = Fin d /\
    (5e-6 * 100e3 / 15 <= d <= 25e-6 * 100e3 / 15)%R /\
    calculateCumulativeDeltaV 100 100e3 15 0.5 = Fin (d * 100).
Proof.
  apply (calculateDeltaV_bounds 100e3 15 0.5 100); lra.
Defined.

End LaserBeamMore.

(* ================================================================= *)
(** ** Beam radius, fluence and the thermal pulse budget *)

Module BeamMore.
Import Physics ThermalSpec LaserPassFacts.
Local Open Scope num_scope.

Lemma sqrt_1_plus_sqr (x : R) :
  (0 <= x)%R -> (1 <= sqrt (1 + x * x) <= 1 + x)%R.
Proof.
  intros Hx. split.
  - rewrite <- sqrt_1 at 1. apply sqrt_le_1_alt. nra.
  - rewrite <- (sqrt_square (1 + x)) by lra. apply sqrt_le_1_alt. nra.
Qed.

(** X2.  At every distance that is not negative the beam radius is a number
    at least as large as the aperture radius [D / 2], which it equals at
    distance 0; and it is never below the Gaussian radius
    [D/2 * sqrt (1 + (d / zR)^2)]: beyond ten Rayleigh ranges the
    far-field formula over-estimates it. *)
Theorem calculateBeamRadius_lower_bound (d lam D q : R) :
  (0 <= d)%R -> (0 < lam)%R -> (0 < D)%R -> (0 < q)%R ->
  let zR := (PI * (D / 2) * (D / 2) / (q * lam))%R in
  exists w : R,
    calculateBeamRadius d lam D q = Fin w /\
    (D / 2 <= w)%R /\
    (D / 2 * sqrt (1 + d / zR * (d / zR)) <= w)%R /\
    (d = 0%R -> w = (D / 2)%R).
Proof.
  intros Hd Hl HD Hq zR.
  assert (Hpi := PI_RGT_0).
  assert (Hql : (0 < q * lam)%R) by (apply Rmult_lt_0_compat; assumption).
  assert (Hz : (0 < zR)%R).
  { unfold zR. apply Rdiv_lt_0_compat; [| exact Hql].
    apply Rmult_lt_0_compat; [apply Rmult_lt_0_compat |]; lra. }
  assert (Hx : (0 <= d / zR)%R).
  { unfold Rdiv. apply Rmult_le_pos; [exact Hd |].
    left. apply Rinv_0_lt_compat. exact Hz. }
  destruct (sqrt_1_plus_sqr (d / zR) Hx) as [S1 S2].
  destruct (Rle_lt_dec d (10 * zR)) as [Hnear | Hfar].
  - rewrite calculateBeamRadius_near by assumption. fold zR.
    eexists. split; [reflexivity |]. split; [nra |]. split; [lra |].
    intros ->. replace (0 / zR)%R with 0%R by (field; lra).
    replace (1 + 0 * 0)%R with 1%R by ring. rewrite sqrt_1. ring.
  - rewrite calculateBeamRadius_far by assumption.
    eexists. split; [reflexivity |].
    assert (E : (d * (q * lam / (PI * (D / 2))) = D / 2 * (d / zR))%R)
      by (unfold zR; field; lra).
    rewrite E. split; [nra |]. split; [nra |].
    intros ->. lra.
Qed.

Lemma calculateBeamRadius_lower_bound_witness :
  exists w : R,
    calculateBeamRadius 900e3 1030e-9 4.0 1.2 = Fin w /\ (4.0 / 2 <= w)%R.
Proof.
  destruct (calculateBeamRadius_lower_bound 900e3 1030e-9 4.0 1.2
              ltac:(lra) ltac:(lra) ltac:(lra) ltac:(lra))
    as (w & Hw & Hb & _).
  exists w. split; assumption.
Defined.

(** Fluence and intensity of the same beam: the fluence (J/cm^2) is the
    intensity (W/cm^2) times the pulse duration times the atmospheric
    transmission. *)
Theorem fluence_intensity_relation (E tau w T : R) :
  tau <> 0%R -> (0 < w)%R ->
  exists fl it : R,
    calculateFluence E w T = Fin fl /\
    calculateIntensity E tau w = Fin it /\
    fl = (it * tau * T)%R.
Proof.
  intros Ht Hw. assert (Hpi := PI_RGT_0).
  assert (Hp : (0 < PI * w * w)%R)
    by (apply Rmult_lt_0_compat; [apply Rmult_lt_0_compat |]; lra).
  rewrite calculateIntensity_finite by assumption.
  unfold calculateFluence, Math_PI. cbn [mul].
  rewrite (div_Fin _ (PI * w * w)) by lra.
  rewrite div_Fin by lra.
  do 2 eexists. split; [reflexivity |]. split; [reflexivity |].
  field. lra.
Qed.

Lemma fluence_intensity_relation_witness :
  exists fl it : R,
    calculateFluence 100e3 2 0.7 = Fin fl /\
    calculateIntensity 100e3 5e-9 2 = Fin it /\
    fl = (it * 5e-9 * 0.7)%R.
Proof.
  apply (fluence_intensity_relation 100e3 5e-9 2 0.7); lra.
Defined.

(** *** The thermal budget *)





End BeamMore.

(* ================================================================= *)
(** ** The thermal limits are kept *)

Module ThermalLimits.
Import Physics ThermalSpec.
Local Open Scope num_scope.

Lemma ltb_false_leb (a b : num) :
  is_nan a = false -> is_nan b = false -> (a <? b) = false -> (b <=? a) = true.
Proof.
  destruct a as [x | | |], b as [y | | |]; cbn;
    intros; try reflexivity; try discriminate.
  rewrite ThermalFacts.Rltb_negb_Rleb in *.
  destruct (Rleb y x); [reflexivity | discriminate].
Qed.

(** An accepted heating was given a number of pulses that is not [NaN]. *)
Lemma applyHeating_success_pulses this n f ts :
  heating_success (fst (applyHeating this n f ts)) = true -> is_nan n = false.
Proof.
  unfold applyHeating, calculateTempRise.
  destruct n; try reflexivity.
  replace (heatAbsorptionEfficiency f * (f * 10000) * NaN) with NaN
    by (destruct (heatAbsorptionEfficiency f * (f * 10000)); reflexivity).
  replace (areaToMass this / specificHeat this * NaN) with NaN
    by (destruct (areaToMass this / specificHeat this); reflexivity).
  replace (currentTemp this + NaN) with NaN
    by (destruct (currentTemp this); reflexivity).
  cbn. discriminate.
Qed.

(** A refused heating leaves the tracker as it was. *)
Lemma applyHeating_refused this n f ts :
  heating_success (fst (applyHeating this n f ts)) = false ->
  snd (applyHeating this n f ts) = this.
Proof.
  unfold applyHeating.
  destruct (_ && _); cbn [fst snd heating_success];
    [discriminate | reflexivity].
Qed.

(** An accepted heating leaves the tracker within its limits, with one
    more entry in its history. *)
Lemma applyHeating_accepted this n f ts :
  heating_success (fst (applyHeating this n f ts)) = true ->
  within_limits (snd (applyHeating this n f ts)) /\
  exists e,
    heatHistory (snd (applyHeating this n f ts)) = heatHistory this ++ [e] /\
    entry_temperature e = currentTemp (snd (applyHeating this n f ts)) /\
    entry_timestamp e = ts.
Proof.
  unfold applyHeating.
  destruct (_ && _) eqn:E; cbn [fst snd heating_success]; [| discriminate].
  intros _. apply andb_prop in E. destruct E as [E1 E2].
  apply negb_true_iff in E2.
  split.
  - split; cbn [currentTemp ambientTemp maxTempRise meltingPoint
                push_heatHistory set_currentTemp]; assumption.
  - eexists. split; [reflexivity |]. split; reflexivity.
Qed.

(** X4.  [applyHeating] keeps a tracker within its limits, whatever the
    pulses and the fluence, and a tracker it has accepted a heating for
    is within its limits; an accepted heating appends exactly one entry,
    with the new temperature, to the heat history, and a refused one
    leaves the tracker as it was. *)
Theorem applyHeating_keeps_limits
    (this : ThermalBudgetTracker) (n f ts : num) :
  let r := fst (applyHeating this n f ts) in
  let this' := snd (applyHeating this n f ts) in
  (within_limits this -> within_limits this') /\
  (heating_success r = true ->
     within_limits this' /\
     exists e, heatHistory this' = heatHistory this ++ [e] /\
               entry_temperature e = currentTemp this' /\
               entry_timestamp e = ts) /\
  (heating_success r = false -> this' = this).
Proof.
  cbv zeta.
  pose proof (applyHeating_accepted this n f ts) as Ka.
  pose proof (applyHeating_refused this n f ts) as Kr.
  split; [| split; assumption].
  intros W.
  destruct (heating_success (fst (applyHeating this n f ts)));
    [apply Ka; reflexivity | rewrite Kr by reflexivity; exact W].
Qed.

(** X5.  Every refusal of [simulateLaserPass] leaves the thermal tracker as it
    was.  A successful pass delivered at least one pulse, recorded it as
    one new entry of the heat history, and left the tracker within its
    limits, with the reported thermal status that of the tracker. *)
Theorem simulateLaserPass_tracker
    (debris : Debris) (laserParams : LaserParams) (distance : num)
    (thermalTracker : ThermalBudgetTracker) (timestamp : num) :
  let result :=
    simulateLaserPass debris laserParams distance thermalTracker timestamp in
  match fst result with
  | PassFailure _ _ => snd result = thermalTracker
  | PassSuccess report =>
      within_limits (snd result) /\
      (Fin 1 <=? report_pulsesDelivered report) = true /\
      length (heatHistory (snd result)) =
        S (length (heatHistory thermalTracker)) /\
      report_thermalStatus report = getStatus (snd result) /\
      status_isSafe (report_thermalStatus report) = true
  end.
Proof.
  unfold simulateLaserPass.
  destruct (_ && _); cbn [fst snd]; [reflexivity |].
  match goal with
  | |- context [Math_min ?a ?b <? ?c] =>
      set (pulses := Math_min a b); destruct (pulses <? c) eqn:E
  end; cbn [fst snd]; [reflexivity |].
  match goal with
  | |- context [applyHeating ?t ?n ?f ?ts] =>
      pose proof (applyHeating_accepted t n f ts) as Ks;
      pose proof (applyHeating_refused t n f ts) as Kf;
      pose proof (applyHeating_success_pulses t n f ts) as P;
      destruct (applyHeating t n f ts) as [r t1]
  end.
  cbn [fst snd] in Ks, Kf, P.
  destruct (heating_success r) eqn:S; cbn [negb fst snd].
  - destruct (Ks eq_refl) as (W & e & He & _).
    split; [exact W |]. split; [| split; [| split]].
    + apply ltb_false_leb; [apply P; reflexivity | reflexivity | exact E].
    + rewrite He, length_app. cbn. lia.
    + reflexivity.
    + cbn [getStatus status_isSafe]. exact (proj1 W).
  - apply Kf. reflexivity.
Qed.

End ThermalLimits.

(* ================================================================= *)
(** ** Cooling and the required cooldown *)

Module CooldownFacts.
Import Physics ThermalSpec ThermalFacts.
Local Open Scope num_scope.

Lemma cooledTemp_between (m ar c T Ta t : R) :
  (0 < m)%R -> (0 < ar)%R -> (0 < c)%R -> (0 < T)%R -> (0 <= t)%R ->
  (Ta <= T -> Ta <= cooledTemp ar m c T Ta t <= T)%R /\
  (T <= Ta -> T <= cooledTemp ar m c T Ta t <= Ta)%R /\
  (t = 0%R -> cooledTemp ar m c T Ta t = T).
Proof.
  intros m0 a0 c0 T0 t0.
  assert (P := timeConstant_pos m ar c T m0 a0 c0 T0).
  unfold cooledTemp.
  set (e := exp (- t / timeConstant ar m c T)).
  assert (E0 : (0 < e)%R) by apply exp_pos.
  assert (E1 : (e <= 1)%R).
  { apply exp_le_1. unfold Rdiv.
    assert (0 <= t * / timeConstant ar m c T)%R.
    { apply Rmult_le_pos; [assumption |].
      left. apply Rinv_0_lt_compat. exact P. }
    lra. }
  split; [intros; split; nra |]. split; [intros; split; nra |].
  intros ->. unfold e.
  replace (- 0 / timeConstant ar m c T)%R with 0%R by (field; lra).
  rewrite exp_0. ring.
Qed.

(** X6.  Cooling does not overshoot the ambient temperature: the new
    temperature lies between the ambient and the current one, on the
    side the current one is on; after no time at all it is the current
    temperature. *)
Theorem applyCooling_between
    (this : ThermalBudgetTracker) (m ar c T Ta t : R) :
  mass this = Fin m -> area this = Fin ar -> specificHeat this = Fin c ->
  currentTemp this = Fin T -> ambientTemp this = Fin Ta ->
  (0 < m)%R -> (0 < ar)%R -> (0 < c)%R -> (0 < T)%R -> (0 <= t)%R ->
  exists T' : R,
    fst (applyCooling this (Fin t)) = Fin T' /\
    (Ta <= T -> Ta <= T' <= T)%R /\
    (T <= Ta -> T <= T' <= Ta)%R /\
    (t = 0%R -> T' = T).
Proof.
  intros Hm Ha Hc HT HTa m0 a0 c0 T0 t0.
  rewrite (applyCooling_value this m ar c T Ta t) by assumption.
  cbn [fst]. eexists. split; [reflexivity |].
  apply cooledTemp_between; assumption.
Qed.

Lemma applyCooling_between_witness :
  exists T' : R,
    fst (applyCooling (set_currentTemp exampleTracker 300) 3600) = Fin T' /\
    (270 <= T' <= 300)%R.
Proof.
  destruct (applyCooling_between (set_currentTemp exampleTracker 300)
              15 0.1 900 300 270 3600
              eq_refl eq_refl eq_refl eq_refl eq_refl
              ltac:(lra) ltac:(lra) ltac:(lra) ltac:(lra) ltac:(lra))
    as (T' & H1 & H2 & _).
  exists T'. split; [exact H1 | apply H2; lra].
Defined.

Section RequiredCooldown.

Variable this : ThermalBudgetTracker.
Variables m ar c T Ta Mx N : R.
Variables pulses fluence : num.

Hypothesis mass_finite : mass this = Fin m.
Hypothesis area_finite : area this = Fin ar.
Hypothesis specificHeat_finite : specificHeat this = Fin c.
Hypothesis currentTemp_finite : currentTemp this = Fin T.
Hypothesis ambientTemp_finite : ambientTemp this = Fin Ta.
Hypothesis maxTempRise_finite : maxTempRise this = Fin Mx.
Hypothesis mass_pos : (0 < m)%R.
Hypothesis area_pos : (0 < ar)%R.
Hypothesis specificHeat_pos : (0 < c)%R.
Hypothesis currentTemp_pos : (0 < T)%R.
Hypothesis planned_rise : calculateTempRise this pulses fluence = Fin N.

Local Abbreviation tau := (timeConstant ar m c T).

(** The value computed when the planned rise does not fit the margin
    left, the tracker being hotter than ambient and the planned rise
    itself below the safe rise. *)
Lemma calculateRequiredCooldown_value :
  (Mx - (T - Ta) < N < Mx)%R ->
  calculateRequiredCooldown this pulses fluence =
    Fin (- tau * ln ((Mx - N) / 1.5 / (T - Ta))) /\
  (0 < - tau * ln ((Mx - N) / 1.5 / (T - Ta)))%R /\
  (0 < (Mx - N) / 1.5 / (T - Ta) < 1)%R.
Proof.
  intros [H1 H2].
  assert (D := timeConstant_denominator_pos m ar c T
                 mass_pos area_pos specificHeat_pos currentTemp_pos).
  assert (P := timeConstant_pos m ar c T
                 mass_pos area_pos specificHeat_pos currentTemp_pos).
  assert (M : (0 < m * c)%R) by (apply Rmult_lt_0_compat; assumption).
  set (ratio := ((Mx - N) / 1.5 / (T - Ta))%R).
  assert (Hratio : (0 < ratio < 1)%R).
  { unfold ratio. split.
    - apply Rdiv_lt_0_compat; lra.
    - apply Rmult_lt_reg_r with (T - Ta)%R; [lra |].
      unfold Rdiv at 1. rewrite Rmult_assoc, Rinv_l by lra. lra. }
  assert (Hln : (ln ratio < 0)%R).
  { rewrite <- ln_1. apply ln_increasing; lra. }
  assert (Hpos : (0 < - tau * ln ratio)%R) by nra.
  split; [| split; assumption].
  unfold calculateRequiredCooldown.
  rewrite planned_rise, mass_finite, area_finite, specificHeat_finite,
    currentTemp_finite, ambientTemp_finite, maxTempRise_finite.
  unfold SAFETY.COOLDOWN_SAFETY_FACTOR.
  cbn [sub add neg leb mul Math_pow].
  rewrite Rleb_false by lra.
  rewrite (div_Fin _ 1.5) by lra. cbn [add].
  rewrite (div_Fin _ (m * c)) by lra.
  fold (coolingRate ar m c). cbn [mul].
  replace (4 * coolingRate ar m c * (T * (T * T)))%R
    with (4 * coolingRate ar m c * T ^ 3)%R by ring.
  rewrite (div_Fin 1) by lra.
  fold tau. cbn [sub add neg].
  rewrite (div_Fin _ (T + - Ta)) by lra.
  replace ((Ta + (Mx + - N) / 1.5 + - Ta) / (T + - Ta))%R with ratio
    by (unfold ratio; field; lra).
  cbn [Math_log].
  rewrite Rlt_dec_false by lra. rewrite Req_dec_false by lra.
  cbn [mul Math_max ltb]. rewrite Rltb_true by lra. reflexivity.
Qed.

(** When the planned rise alone exceeds the safe rise and the tracker is
    not colder than ambient, no time is returned but [NaN]. *)
Lemma calculateRequiredCooldown_nan :
  (Mx < N)%R -> (Ta <= T)%R ->
  calculateRequiredCooldown this pulses fluence = NaN.
Proof.
  intros H1 H2.
  assert (D := timeConstant_denominator_pos m ar c T
                 mass_pos area_pos specificHeat_pos currentTemp_pos).
  assert (M : (0 < m * c)%R) by (apply Rmult_lt_0_compat; assumption).
  unfold calculateRequiredCooldown.
  rewrite planned_rise, mass_finite, area_finite, specificHeat_finite,
    currentTemp_finite, ambientTemp_finite, maxTempRise_finite.
  unfold SAFETY.COOLDOWN_SAFETY_FACTOR.
  cbn [sub add neg leb mul Math_pow].
  rewrite Rleb_false by lra.
  rewrite (div_Fin _ 1.5) by lra. cbn [add].
  rewrite (div_Fin _ (m * c)) by lra.
  fold (coolingRate ar m c). cbn [mul].
  replace (4 * coolingRate ar m c * (T * (T * T)))%R
    with (4 * coolingRate ar m c * T ^ 3)%R by ring.
  rewrite (div_Fin 1) by lra. cbn [sub add neg].
  assert (Hneg : (Ta + (Mx + - N) / 1.5 + - Ta < 0)%R) by lra.
  destruct (Req_dec_T (T + - Ta) 0) as [Z | NZ].
  - rewrite Z. cbn [div]. rewrite Req_dec_true by reflexivity.
    rewrite Rlt_dec_false by lra. rewrite Rlt_dec_true by lra.
    reflexivity.
  - rewrite (div_Fin _ (T + - Ta)) by exact NZ.
    cbn [Math_log].
    rewrite Rlt_dec_true; [reflexivity |].
    assert (I : (0 < / (T + - Ta))%R) by (apply Rinv_0_lt_compat; lra).
    unfold Rdiv at 1. nra.
Qed.

End RequiredCooldown.

(** X7.  After cooling for the time [calculateRequiredCooldown] returns, the
    tracker is at [ambient + (maxTempRise - planned rise) / 1.5] and the
    planned heating is accepted (the melting point being above
    [ambient + maxTempRise]). *)
Theorem requiredCooldown_sufficient
    (this : ThermalBudgetTracker) (m ar c T Ta Mx Mp N : R)
    (pulses fluence timestamp : num) :
  mass this = Fin m -> area this = Fin ar -> specificHeat this = Fin c ->
  currentTemp this = Fin T -> ambientTemp this = Fin Ta ->
  maxTempRise this = Fin Mx -> meltingPoint this = Fin Mp ->
  (0 < m)%R -> (0 < ar)%R -> (0 < c)%R -> (0 < T)%R ->
  calculateTempRise this pulses fluence = Fin N ->
  (Mx - (T - Ta) < N < Mx)%R ->
  (Ta + Mx < Mp)%R ->
  exists t : R,
    calculateRequiredCooldown this pulses fluence = Fin t /\ (0 < t)%R /\
    let cooled := snd (applyCooling this (Fin t)) in
    currentTemp cooled = Fin (Ta + (Mx - N) / 1.5) /\
    heating_success (fst (applyHeating cooled pulses fluence timestamp))
      = true.
Proof.
  intros Hm Ha Hc HT HTa HMx HMp m0 a0 c0 T0 HN Hrange Hmelt.
  destruct (calculateRequiredCooldown_value this m ar c T Ta Mx N
              pulses fluence Hm Ha Hc HT HTa HMx m0 a0 c0 T0 HN Hrange)
    as (Hv & Hpos & Hratio).
  eexists. split; [exact Hv |]. split; [exact Hpos |].
  assert (P := timeConstant_pos m ar c T m0 a0 c0 T0).
  rewrite (applyCooling_value this m ar c T Ta _ Hm Ha Hc HT HTa
             m0 a0 c0 T0).
  cbn [snd].
  assert (E : cooledTemp ar m c T Ta
                (- timeConstant ar m c T * ln ((Mx - N) / 1.5 / (T - Ta)))
              = (Ta + (Mx - N) / 1.5)%R).
  { unfold cooledTemp.
    replace (- (- timeConstant ar m c T * ln ((Mx - N) / 1.5 / (T - Ta)))
             / timeConstant ar m c T)%R
      with (ln ((Mx - N) / 1.5 / (T - Ta))) by (field; lra).
    rewrite exp_ln by lra. field. lra. }
  rewrite E. split; [reflexivity |].
  unfold applyHeating.
  assert (R : calculateTempRise
                (set_currentTemp this (Fin (Ta + (Mx - N) / 1.5)))
                pulses fluence = Fin N) by exact HN.
  rewrite R.
  cbn [currentTemp ambientTemp maxTempRise meltingPoint set_currentTemp].
  rewrite HTa, HMx, HMp.
  cbn [add sub neg leb geb].
  rewrite Rleb_true by lra. rewrite Rleb_false by lra.
  reflexivity.
Qed.

(** The example tracker at 350 K, with a planned pass that would add
    50 K: it must first cool to about 303 K. *)
Lemma requiredCooldown_sufficient_witness :
  exists t : R,
    calculateRequiredCooldown (set_currentTemp exampleTracker 350)
      (Fin (50 * (15 * 900) / (0.1 * 0.7 * 10000))) 1 = Fin t /\
    (0 < t)%R.
Proof.
  destruct (requiredCooldown_sufficient (set_currentTemp exampleTracker 350)
              15 0.1 900 350 270 100 933 50
              (Fin (50 * (15 * 900) / (0.1 * 0.7 * 10000))) 1 0
              eq_refl eq_refl eq_refl eq_refl eq_refl eq_refl eq_refl
              ltac:(lra) ltac:(lra) ltac:(lra) ltac:(lra))
    as (t & Ht & Hpos & _).
  - unfold calculateTempRise, heatAbsorptionEfficiency.
    cbn [areaToMass specificHeat set_currentTemp exampleTracker
         newThermalBudgetTracker MATERIALS SPECIFIC_HEAT].
    num_eval. apply Fin_eq. field. lra.
  - lra.
  - lra.
  - exists t. split; assumption.
Defined.

(** X8.  A planned rise above the safe rise itself has no cooldown: the
    answer is [NaN], for a tracker at or above ambient. *)
Theorem requiredCooldown_unreachable
    (this : ThermalBudgetTracker) (m ar c T Ta Mx N : R)
    (pulses fluence : num) :
  mass this = Fin m -> area this = Fin ar -> specificHeat this = Fin c ->
  currentTemp this = Fin T -> ambientTemp this = Fin Ta ->
  maxTempRise this = Fin Mx ->
  (0 < m)%R -> (0 < ar)%R -> (0 < c)%R -> (0 < T)%R ->
  calculateTempRise this pulses fluence = Fin N ->
  (Mx < N)%R -> (Ta <= T)%R ->
  calculateRequiredCooldown this pulses fluence = NaN /\
  forall elapsed : num,
    (calculateRequiredCooldown this pulses fluence >? elapsed) = false.
Proof.
  intros Hm Ha Hc HT HTa HMx m0 a0 c0 T0 HN H1 H2.
  rewrite (calculateRequiredCooldown_nan this m ar c T Ta Mx N
             pulses fluence Hm Ha Hc HT HTa HMx m0 a0 c0 T0 HN H1 H2).
  split; [reflexivity |]. intros elapsed. destruct elapsed; reflexivity.
Qed.

Lemma requiredCooldown_unreachable_witness :
  calculateRequiredCooldown exampleTracker
    (Fin (150 * (15 * 900) / (0.1 * 0.7 * 10000))) 1 = NaN.
Proof.
  apply (requiredCooldown_unreachable exampleTracker
           15 0.1 900 270 270 100 150
           (Fin (150 * (15 * 900) / (0.1 * 0.7 * 10000))) 1
           eq_refl eq_refl eq_refl eq_refl eq_refl eq_refl
           ltac:(lra) ltac:(lra) ltac:(lra) ltac:(lra)); try lra.
  unfold calculateTempRise, heatAbsorptionEfficiency.
  cbn [areaToMass specificHeat exampleTracker
       newThermalBudgetTracker MATERIALS SPECIFIC_HEAT].
  num_eval. apply Fin_eq. field. lra.
Defined.

End CooldownFacts.

(* ================================================================= *)
(** ** The adaptive repetition rate *)

Module AdaptiveRateFacts.
Import Physics ThermalSpec BeamMore.
Local Open Scope num_scope.

Lemma Int_part_nonneg (x : R) : (0 <= x)%R -> (0 <= IZR (Int_part x))%R.
Proof.
  intros Hx. destruct (base_Int_part x) as [_ H].
  assert (L : (-1 < IZR (Int_part x))%R) by lra.
  apply lt_IZR in L. apply IZR_le. lia.
Qed.

Lemma Int_part_negative (x : R) : (x < 0)%R -> (IZR (Int_part x) <= -1)%R.
Proof.
  intros Hx. destruct (base_Int_part x) as [H _].
  assert (L : (IZR (Int_part x) < 0)%R) by lra.
  apply lt_IZR in L. apply IZR_le. lia.
Qed.

Section Rate.

Variable debris : Debris.
Variable fluence : num.
Variable thermalTracker : ThermalBudgetTracker.
Variables A rise D : R.

Hypothesis margin_finite :
  maxTempRise thermalTracker
  - (currentTemp thermalTracker - ambientTemp thermalTracker) = Fin A.
Hypothesis rise_finite : calculateTempRise thermalTracker 1 fluence = Fin rise.
Hypothesis rise_pos : (0 < rise)%R.
Hypothesis duration_pos : (0 < D)%R.

Local Abbreviation plan :=
  (calculateAdaptiveRepRate debris fluence thermalTracker (Fin D)).

(** The rate and the pulse count in terms of the whole number of pulses
    the margin allows. *)
Lemma calculateAdaptiveRepRate_value :
  let k := IZR (Int_part (A / rise)) in
  let rate := Rmin (k / D) 10 in
  let n := IZR (Int_part (rate * D)) in
  rate_repetitionRate plan = Fin rate /\
  rate_pulsesPerPass plan = Fin n /\
  rate_totalTempRise plan = Fin (n * rise) /\
  (n <= rate * D <= k)%R /\ (k * rise <= A)%R.
Proof.
  intros k rate n.
  assert (Hq : (A / rise * rise = A)%R) by (field; lra).
  destruct (base_Int_part (A / rise)) as [K1 _]. fold k in K1.
  destruct (base_Int_part (rate * D)) as [N1 _]. fold n in N1.
  assert (Hkd : (k / D * D = k)%R) by (field; lra).
  assert (Hrate : (rate * D <= k)%R).
  { unfold rate, Rmin. destruct (Rle_dec (k / D) 10) as [L | L].
    - lra.
    - apply Rnot_le_lt in L.
      assert (10 * D < k / D * D)%R
        by (apply Rmult_lt_compat_r; assumption).
      lra. }
  unfold calculateAdaptiveRepRate, LASER.MAX_REPETITION_RATE.
  cbn [rate_repetitionRate rate_pulsesPerPass rate_totalTempRise].
  rewrite margin_finite, rise_finite.
  rewrite (div_Fin A rise) by lra. cbn [Math_floor]. fold k.
  rewrite (div_Fin k D) by lra.
  assert (Hmin : Math_min (Fin (k / D)) (Fin 10) = Fin rate).
  { cbn [Math_min ltb]. unfold rate.
    destruct (Rlt_dec 10 (k / D)).
    - rewrite Rltb_true by assumption. rewrite Rmin_right by lra. reflexivity.
    - rewrite Rltb_false by lra. rewrite Rmin_left by lra. reflexivity. }
  rewrite Hmin. cbn [mul Math_floor]. fold n.
  repeat split; try lra. nra.
Qed.

End Rate.

(** X9.  With a positive margin, a positive rise per pulse and a positive pass
    duration, the adaptive plan has a rate between 0 and the 10 Hz
    maximum and a whole number of pulses, at most [10 D], whose total
    temperature rise fits the margin; the reported utilisation of the
    margin is between 0 and 1. *)
Theorem calculateAdaptiveRepRate_bounds
    (debris : Debris) (fluence : num) (thermalTracker : ThermalBudgetTracker)
    (A rise D : R) :
  maxTempRise thermalTracker
  - (currentTemp thermalTracker - ambientTemp thermalTracker) = Fin A ->
  calculateTempRise thermalTracker 1 fluence = Fin rise ->
  (0 < A)%R -> (0 < rise)%R -> (0 < D)%R ->
  let plan := calculateAdaptiveRepRate debris fluence thermalTracker D in
  exists rate n u : R,
    rate_repetitionRate plan = Fin rate /\ (0 <= rate <= 10)%R /\
    rate_pulsesPerPass plan = Fin n /\ (0 <= n <= 10 * D)%R /\
    (exists z : Z, n = IZR z) /\
    rate_totalTempRise plan = Fin (n * rise) /\ (n * rise <= A)%R /\
    rate_thermalUtilization plan = Fin u /\ (0 <= u <= 1)%R.
Proof.
  intros HA Hr A0 r0 D0 plan.
  destruct (calculateAdaptiveRepRate_value debris fluence thermalTracker
              A rise D HA Hr r0 D0) as (H1 & H2 & H3 & H4 & H5).
  set (k := IZR (Int_part (A / rise))) in *.
  set (rate := Rmin (k / D) 10) in *.
  set (n := IZR (Int_part (rate * D))) in *.
  assert (Hk : (0 <= k)%R).
  { apply Int_part_nonneg. apply Rmult_le_pos; [lra |].
    left. apply Rinv_0_lt_compat. exact r0. }
  assert (Hrate : (0 <= rate <= 10)%R).
  { unfold rate. split; [| apply Rmin_r].
    apply Rmin_glb; [| lra].
    apply Rmult_le_pos; [exact Hk |]. left. apply Rinv_0_lt_compat. exact D0. }
  assert (Hn : (0 <= n)%R).
  { apply Int_part_nonneg. apply Rmult_le_pos; lra. }
  assert (Hfit : (n * rise <= A)%R) by nra.
  exists rate, n, (n * rise / A)%R.
  split; [exact H1 |]. split; [exact Hrate |].
  split; [exact H2 |]. split; [split; [exact Hn | nra] |].
  split; [exists (Int_part (rate * D)); reflexivity |].
  split; [exact H3 |]. split; [exact Hfit |].
  assert (Hu : (0 <= n * rise / A <= 1)%R).
  { split.
    - apply Rmult_le_pos; [nra |]. left. apply Rinv_0_lt_compat. exact A0.
    - apply Rmult_le_reg_r with A; [exact A0 |].
      unfold Rdiv. rewrite Rmult_assoc, Rinv_l by lra. lra. }
  split; [| exact Hu].
  unfold plan, calculateAdaptiveRepRate. cbn [rate_thermalUtilization].
  fold plan. 
  change (rate_thermalUtilization plan) with (rate_thermalUtilization plan).
  unfold plan, calculateAdaptiveRepRate in H2, H3.
  cbn [rate_pulsesPerPass rate_totalTempRise] in H2, H3.
  rewrite H3, HA. rewrite (div_Fin _ A) by lra.
  cbn [Math_min ltb]. rewrite Rltb_false by lra. reflexivity.
Qed.

(** The example tracker at ambient, one pulse raising it by 1 K, a pass
    of 300 s. *)
Lemma calculateAdaptiveRepRate_bounds_witness :
  exists n : R,
    rate_pulsesPerPass
      (calculateAdaptiveRepRate Scenario.exampleDebris
         (Fin (1 * (15 * 900) / (0.1 * 0.7 * 10000))) exampleTracker 300)
    = Fin n /\ (0 <= n <= 10 * 300)%R.
Proof.
  destruct (calculateAdaptiveRepRate_bounds Scenario.exampleDebris
              (Fin (1 * (15 * 900) / (0.1 * 0.7 * 10000))) exampleTracker
              100 1 300)
    as (rate & n & u & _ & _ & Hn & Hb & _); try lra.
  - cbn [exampleTracker newThermalBudgetTracker maxTempRise currentTemp
         ambientTemp MATERIALS MAX_TEMP_RISE sub add neg].
    apply Fin_eq. lra.
  - unfold calculateTempRise, heatAbsorptionEfficiency.
    cbn [areaToMass specificHeat exampleTracker
         newThermalBudgetTracker MATERIALS SPECIFIC_HEAT].
    assert (1 * (15 * 900) / (0.1 * 0.7 * 10000) < 20)%R by lra.
    num_eval. apply Fin_eq. field. lra.
  - exists n. split; assumption.
Defined.

(** X10.  With a negative margin (the tracker is beyond its safe rise) the
    plan is a negative rate and a negative number of pulses. *)
Theorem calculateAdaptiveRepRate_negative_margin
    (debris : Debris) (fluence : num) (thermalTracker : ThermalBudgetTracker)
    (A rise D : R) :
  maxTempRise thermalTracker
  - (currentTemp thermalTracker - ambientTemp thermalTracker) = Fin A ->
  calculateTempRise thermalTracker 1 fluence = Fin rise ->
  (A < 0)%R -> (0 < rise)%R -> (0 < D)%R ->
  let plan := calculateAdaptiveRepRate debris fluence thermalTracker D in
  exists rate n : R,
    rate_repetitionRate plan = Fin rate /\ (rate < 0)%R /\
    rate_pulsesPerPass plan = Fin n /\ (n <= -1)%R.
Proof.
  intros HA Hr A0 r0 D0 plan.
  destruct (calculateAdaptiveRepRate_value debris fluence thermalTracker
              A rise D HA Hr r0 D0) as (H1 & H2 & _ & H4 & _).
  set (k := IZR (Int_part (A / rise))) in *.
  set (rate := Rmin (k / D) 10) in *.
  set (n := IZR (Int_part (rate * D))) in *.
  assert (Hk : (k <= -1)%R).
  { apply Int_part_negative.
    assert (0 < / rise)%R by (apply Rinv_0_lt_compat; exact r0).
    unfold Rdiv. nra. }
  assert (Hrate : (rate < 0)%R).
  { unfold rate. eapply Rle_lt_trans; [apply Rmin_l |].
    assert (0 < / D)%R by (apply Rinv_0_lt_compat; exact D0).
    unfold Rdiv. nra. }
  exists rate, n. split; [exact H1 |]. split; [exact Hrate |].
  split; [exact H2 |].
  apply Int_part_negative. nra.
Qed.

Lemma calculateAdaptiveRepRate_negative_margin_witness :
  exists n : R,
    rate_pulsesPerPass
      (calculateAdaptiveRepRate Scenario.exampleDebris
         (Fin (1 * (15 * 900) / (0.1 * 0.7 * 10000)))
         (set_currentTemp exampleTracker 380) 300)
    = Fin n /\ (n <= -1)%R.
Proof.
  destruct (calculateAdaptiveRepRate_negative_margin Scenario.exampleDebris
              (Fin (1 * (15 * 900) / (0.1 * 0.7 * 10000)))
              (set_currentTemp exampleTracker 380) (-10) 1 300)
    as (rate & n & _ & _ & Hn & Hb); try lra.
  - cbn [exampleTracker newThermalBudgetTracker maxTempRise currentTemp
         ambientTemp set_currentTemp MATERIALS MAX_TEMP_RISE sub add neg].
    apply Fin_eq. lra.
  - unfold calculateTempRise, heatAbsorptionEfficiency.
    cbn [areaToMass specificHeat exampleTracker set_currentTemp
         newThermalBudgetTracker MATERIALS SPECIFIC_HEAT].
    assert (1 * (15 * 900) / (0.1 * 0.7 * 10000) < 20)%R by lra.
    num_eval. apply Fin_eq. field. lra.
  - exists n. split; assumption.
Defined.

End AdaptiveRateFacts.

(* ================================================================= *)
(** ** The removal campaign *)

Module CampaignFacts.
Import Physics ThermalSpec CampaignSpec.
Local Open Scope num_scope.

Lemma add_0_r (a : num) : a + Fin 0 = a.
Proof. destruct a; cbn; try reflexivity. apply Fin_eq. lra. Qed.

(** One iteration appends exactly one record, numbered [i + 1], and
    completes the mission exactly when that record reached re-entry. *)
Lemma campaignStep_record laserParams st i previous timestamp :
  exists p,
    loop_passResults (campaignStep laserParams st i previous timestamp) =
      loop_passResults st ++ [p] /\
    campaign_passNumber p = (i + 1)%nat /\
    loop_missionComplete (campaignStep laserParams st i previous timestamp) =
      (reentry_in p || loop_missionComplete st)%bool /\
    loop_totalPulses (campaignStep laserParams st i previous timestamp) =
      loop_totalPulses st + pulses_in p /\
    loop_totalEnergy (campaignStep laserParams st i previous timestamp) =
      loop_totalEnergy st + energy_in p.
Proof.
  unfold campaignStep.
  match goal with
  | |- context [if ?c then _ else _] => destruct c
  end.
  - eexists. cbn. repeat split; try reflexivity; symmetry; apply add_0_r.
  - match goal with
    | |- context [simulateLaserPass ?d ?l ?x ?t ?ts] =>
        destruct (simulateLaserPass d l x t ts) as [[reason detail | report] t1]
    end.
    + eexists. cbn. repeat split; try reflexivity; symmetry; apply add_0_r.
    + eexists. cbn. repeat split; reflexivity.
Qed.

Section Loop.

Variable laserParams : LaserParams.

(** The records of the loop: numbered consecutively from 1, none after
    the first that reached re-entry, one for every pass time when the
    mission is not complete; the totals are the sums over the records. *)
Lemma campaignLoop_records (passTimes : list num) :
  forall (i : nat) (previous : option num) (st : CampaignState),
    length (loop_passResults st) = i ->
    (forall k p, nth_error (loop_passResults st) k = Some p ->
                 campaign_passNumber p = S k) ->
    (forall k p, nth_error (loop_passResults st) k = Some p ->
                 reentry_in p = true ->
                 S k = length (loop_passResults st)) ->
    loop_missionComplete st =
      existsb reentry_in (loop_passResults st) ->
    loop_totalPulses st = running_total pulses_in (loop_passResults st) ->
    loop_totalEnergy st = running_total energy_in (loop_passResults st) ->
    let st' := campaignLoop laserParams passTimes i previous st in
    (length (loop_passResults st') <= i + length passTimes)%nat /\
    (loop_missionComplete st' = false ->
     length (loop_passResults st') = (i + length passTimes)%nat) /\
    (forall k p, nth_error (loop_passResults st') k = Some p ->
                 campaign_passNumber p = S k) /\
    (forall k p, nth_error (loop_passResults st') k = Some p ->
                 reentry_in p = true ->
                 S k = length (loop_passResults st')) /\
    loop_missionComplete st' =
      existsb reentry_in (loop_passResults st') /\
    loop_totalPulses st' = running_total pulses_in (loop_passResults st') /\
    loop_totalEnergy st' = running_total energy_in (loop_passResults st').
Proof.
  induction passTimes as [| timestamp rest IH];
    intros i previous st Hlen Hnum Hlast Hdone Hpulses Henergy;
    cbn [campaignLoop length].
  - cbv zeta. rewrite Nat.add_0_r.
    repeat split; try assumption; lia.
  - destruct (loop_missionComplete st) eqn:C.
    + cbv zeta. rewrite C.
      repeat split; try assumption; try lia.
    + destruct (campaignStep_record laserParams st i previous timestamp)
        as (p & Hres & Hp & Hc & Htp & Hte).
      set (st1 := campaignStep laserParams st i previous timestamp) in *.
      assert (Hnone : forall k q, nth_error (loop_passResults st) k = Some q ->
                                  reentry_in q = false).
      { intros k q Hq. destruct (reentry_in q) eqn:Rq; [| reflexivity].
        assert (In q (loop_passResults st))
          by (eapply nth_error_In; exact Hq).
        assert (existsb reentry_in (loop_passResults st) = true)
          by (apply existsb_exists; exists q; split; assumption).
        congruence. }
      specialize (IH (S i) (Some timestamp) st1).
      replace (i + S (length rest))%nat with (S i + length rest)%nat by lia.
      apply IH.
      * rewrite Hres, length_app. cbn. lia.
      * intros k q Hq. rewrite Hres in Hq.
        destruct (Nat.lt_ge_cases k (length (loop_passResults st))) as [L | L].
        -- rewrite nth_error_app1 in Hq by exact L. apply (Hnum k q Hq).
        -- rewrite nth_error_app2 in Hq by exact L.
           destruct (k - length (loop_passResults st))%nat as [| j] eqn:J.
           ++ cbn in Hq. injection Hq as <-. rewrite Hp. lia.
           ++ destruct j; discriminate.
      * intros k q Hq Rq. rewrite Hres in Hq |- *. rewrite length_app. cbn.
        destruct (Nat.lt_ge_cases k (length (loop_passResults st))) as [L | L].
        -- rewrite nth_error_app1 in Hq by exact L.
           rewrite (Hnone k q Hq) in Rq. discriminate.
        -- rewrite nth_error_app2 in Hq by exact L.
           destruct (k - length (loop_passResults st))%nat as [| j] eqn:J.
           ++ lia.
           ++ destruct j; discriminate.
      * rewrite Hc, Hres, existsb_app. cbn. rewrite <- Hdone, C.
        rewrite !orb_false_r. reflexivity.
      * rewrite Htp, Hres. unfold running_total. rewrite fold_left_app.
        cbn. fold (running_total pulses_in (loop_passResults st)).
        rewrite <- Hpulses. reflexivity.
      * rewrite Hte, Hres. unfold running_total. rewrite fold_left_app.
        cbn. fold (running_total energy_in (loop_passResults st)).
        rewrite <- Henergy. reflexivity.
Qed.

End Loop.

Lemma filter_length_split {A : Type} (f : A -> bool) (l : list A) :
  (length (filter f l) + length (filter (fun x => negb (f x)) l))%nat
  = length l.
Proof.
  induction l as [| x l IH]; cbn; [reflexivity |].
  destruct (f x); cbn; lia.
Qed.

(** X11.  The report of a campaign keeps every pass it processed: the records
    are numbered 1, 2, ... without gap, the successful and the skipped
    ones add up to their number, which is at most [totalPasses] and equal
    to it when the mission is not complete; a complete mission ends with
    its only record that reached re-entry; and the total pulses and
    energy are the sums over the records. *)
Theorem planRemovalCampaign_records
    (debris : Debris) (laserParams : LaserParams) (passTimes : list num)
    (material0 : Material) :
  let plan := planRemovalCampaign debris laserParams passTimes material0 in
  plan_totalPasses plan = length passTimes /\
  (plan_successfulPasses plan + plan_skippedPasses plan)%nat
    = length (plan_passResults plan) /\
  (length (plan_passResults plan) <= plan_totalPasses plan)%nat /\
  (plan_missionComplete plan = false ->
   length (plan_passResults plan) = plan_totalPasses plan) /\
  (forall k p, nth_error (plan_passResults plan) k = Some p ->
               campaign_passNumber p = S k) /\
  (forall k p, nth_error (plan_passResults plan) k = Some p ->
               reentry_in p = true ->
               S k = length (plan_passResults plan)) /\
  plan_missionComplete plan = existsb reentry_in (plan_passResults plan) /\
  plan_totalPulses plan = running_total pulses_in (plan_passResults plan) /\
  plan_totalEnergy plan =
    running_total energy_in (plan_passResults plan) / 1e9.
Proof.
  intros plan. unfold plan, planRemovalCampaign.
  cbn [plan_totalPasses plan_successfulPasses plan_skippedPasses
       plan_passResults plan_missionComplete plan_totalPulses
       plan_totalEnergy].
  match goal with
  | |- context [campaignLoop ?l ?pt ?i ?pr ?st] =>
      destruct (campaignLoop_records l pt i pr st) as
        (H1 & H2 & H3 & H4 & H5 & H6 & H7);
      try reflexivity; try (intros [| k] q Hq; discriminate Hq);
      set (st' := campaignLoop l pt i pr st) in *
  end.
  cbn [Nat.add] in H1, H2.
  split; [reflexivity |]. split.
  - pose proof (filter_length_split skipped (loop_passResults st')) as F.
    lia.
  - split; [exact H1 |]. split; [exact H2 |]. split; [exact H3 |].
    split; [exact H4 |]. split; [exact H5 |]. split; [exact H6 |].
    rewrite H7. reflexivity.
Qed.

(** With no pass at all the plan is incomplete and empty: no pulses, no
    energy, the debris as given (with a cumulative delta-V of 0); the
    mission duration and with it the estimated cost are [NaN], and the
    highest temperature reached is [-Infinity]. *)
Theorem planRemovalCampaign_no_pass
    (debris : Debris) (laserParams : LaserParams) (material0 : Material) :
  let plan := planRemovalCampaign debris laserParams [] material0 in
  plan_missionComplete plan = false /\
  plan_passResults plan = [] /\
  plan_totalPasses plan = 0%nat /\
  plan_totalPulses plan = Fin 0 /\
  plan_totalDeltaV plan = Some (Fin 0) /\
  plan_finalPerigee plan = debris_perigeeAltitude debris /\
  plan_missionDuration plan = NaN /\
  totalCost (plan_estimatedCost plan) = NaN /\
  plan_maxTempReached plan = NInf.
Proof.
  cbv zeta. unfold planRemovalCampaign.
  cbn [campaignLoop plan_missionComplete plan_passResults plan_totalPasses
       plan_totalPulses plan_totalDeltaV plan_finalPerigee
       plan_missionDuration plan_estimatedCost plan_maxTempReached
       loop_missionComplete loop_passResults loop_totalPulses
       loop_currentDebris loop_thermalTracker loop_totalEnergy
       set_cumulativeDeltaV debris_cumulativeDeltaV debris_perigeeAltitude
       map last length].
  repeat split.
  unfold calculateMissionCost. cbn [totalCost].
  rewrite (div_Fin 0) by lra. reflexivity.
Qed.

(** *** The temperature during a campaign *)

Lemma maxRiseOf_pos (mat : Material) : (0 < maxRiseOf mat)%R.
Proof. destruct mat; cbn; lra. Qed.

Lemma specificHeatOf_pos (mat : Material) : (0 < specificHeatOf mat)%R.
Proof. destruct mat; cbn; lra. Qed.

Lemma newThermalBudgetTracker_campaign (mat : Material) (m ar : R) :
  (0 < m)%R ->
  campaign_tracker mat m ar (newThermalBudgetTracker mat (Fin m) (Fin ar) 270).
Proof.
  intros Hm. assert (P := maxRiseOf_pos mat).
  unfold campaign_tracker, newThermalBudgetTracker.
  cbn [mass area areaToMass specificHeat maxTempRise ambientTemp currentTemp
       heatHistory].
  rewrite div_Fin by lra.
  repeat split; try (destruct mat; reflexivity).
  - exists 270%R. split; [reflexivity | lra].
  - constructor.
Qed.

Lemma mul_pos_PInf (x : R) : (0 < x)%R -> Fin x * PInf = PInf.
Proof. intros H. cbn. unfold scale_inf. apply Rlt_dec_true. exact H. Qed.

Lemma mul_PInf_pos (x : R) : (0 < x)%R -> PInf * Fin x = PInf.
Proof. intros H. cbn. unfold scale_inf. apply Rlt_dec_true. exact H. Qed.

Lemma mul_pos_NInf (x : R) : (0 < x)%R -> Fin x * NInf = NInf.
Proof. intros H. cbn. unfold scale_inf. apply Rlt_dec_true. exact H. Qed.

(** The fluence of a positive pulse energy, whatever the beam radius. *)
Lemma calculateFluence_like (E : R) (w : num) :
  (0 < E)%R ->
  fluence_like (calculateFluence (Fin E) w ATMOSPHERE.TRANSMISSION_EFFICIENCY).
Proof.
  intros HE. assert (Hpi := PI_RGT_0).
  unfold calculateFluence, ATMOSPHERE.TRANSMISSION_EFFICIENCY, Math_PI.
  destruct w as [x | | |].
  - cbn [mul].
    destruct (Req_dec_T (PI * x * x) 0) as [Z | NZ].
    + rewrite Z. cbn [div]. rewrite Req_dec_true by reflexivity.
      rewrite Rlt_dec_true by lra. cbn. rewrite Rlt_dec_false by lra.
      exact I.
    + rewrite (div_Fin _ (PI * x * x)) by exact NZ.
      rewrite div_Fin by lra. cbn.
      assert (0 < PI * x * x)%R.
      { assert (0 <= x * x)%R by nra.
        assert (0 <= PI * x * x)%R by nra. lra. }
      assert (0 < / (PI * x * x))%R by (apply Rinv_0_lt_compat; assumption).
      unfold Rdiv. nra.
  - rewrite mul_pos_PInf by lra. cbn [mul div].
    rewrite Req_dec_false by lra. cbn. lra.
  - rewrite mul_pos_NInf by lra. cbn [mul div].
    rewrite Req_dec_false by lra. cbn. lra.
  - exact I.
Qed.

(** The temperature rise of at least one pulse of such a fluence is a
    number not below zero, [Infinity] or [NaN]. *)
Lemma calculateTempRise_like (this : ThermalBudgetTracker) (k c : R)
    (n f : num) :
  areaToMass this = Fin k -> specificHeat this = Fin c ->
  (0 < k)%R -> (0 < c)%R ->
  (Fin 1 <=? n) = true -> fluence_like f ->
  fluence_like (calculateTempRise this n f).
Proof.
  intros Hk Hc k0 c0 Hn Hf.
  assert (Q : (0 < k / c)%R) by (apply Rdiv_lt_0_compat; assumption).
  unfold calculateTempRise. rewrite Hk, Hc, (div_Fin k c) by lra.
  destruct f as [v | | |]; cbn in Hf; try contradiction.
  - destruct (LaserBeamFacts.heatAbsorptionEfficiency_range v)
      as (h & -> & Hh).
    assert (Y : (0 <= h * (v * 10000))%R) by nra.
    destruct n as [x | | |]; cbn in Hn; try discriminate.
    + apply Rleb_spec in Hn. cbn.
      assert (0 <= h * (v * 10000) * x)%R by nra.
      apply Rmult_le_pos; lra.
    + replace (Fin h * (Fin v * 10000)) with (Fin (h * (v * 10000)))
        by reflexivity.
      destruct (Rlt_dec 0 (h * (v * 10000))).
      * rewrite mul_pos_PInf by assumption.
        rewrite mul_pos_PInf by assumption. exact I.
      * cbn [mul]. unfold scale_inf.
        rewrite !Rlt_dec_false by lra. exact I.
  - assert (E : heatAbsorptionEfficiency PInf = Fin 0.3).
    { unfold heatAbsorptionEfficiency. cbn [ltb sub add neg].
      rewrite mul_PInf_pos by lra. reflexivity. }
    rewrite E. rewrite mul_PInf_pos by lra. rewrite mul_pos_PInf by lra.
    destruct n as [x | | |]; cbn in Hn; try discriminate.
    + apply Rleb_spec in Hn. rewrite mul_PInf_pos by lra.
      rewrite mul_pos_PInf by lra. exact I.
    + replace (PInf * PInf) with PInf by reflexivity.
      rewrite mul_pos_PInf by lra. exact I.
  - assert (E : heatAbsorptionEfficiency NaN = NaN) by reflexivity.
    rewrite E. exact I.
Qed.

Section CampaignTracker.

Variable mat : Material.
Variables m ar : R.
Hypothesis mass_pos : (0 < m)%R.
Hypothesis area_pos : (0 < ar)%R.

Lemma campaign_tracker_status this :
  campaign_tracker mat m ar this ->
  status_isSafe (getStatus this) = true /\
  safe_temperature mat (status_currentTemp (getStatus this)).
Proof.
  intros (_ & _ & _ & _ & HMx & HTa & (T & HT & Hb) & _).
  cbn [getStatus status_isSafe status_currentTemp].
  rewrite HMx, HTa, HT. split.
  - cbn. apply Rleb_true. lra.
  - exists T. split; [reflexivity | exact Hb].
Qed.

Lemma applyCooling_campaign this (t : R) :
  (0 <= t)%R ->
  campaign_tracker mat m ar this ->
  campaign_tracker mat m ar (snd (applyCooling this (Fin t))).
Proof.
  intros Ht (Hm & Ha & Hk & Hc & HMx & HTa & (T & HT & Hb) & Hh).
  assert (c0 := specificHeatOf_pos mat).
  destruct (CooldownFacts.cooledTemp_between m ar (specificHeatOf mat)
              T 270 t mass_pos area_pos c0 ltac:(lra) Ht) as (Hhi & _).
  rewrite (ThermalFacts.applyCooling_value this m ar (specificHeatOf mat)
             T 270 t Hm Ha Hc HT HTa mass_pos area_pos c0 ltac:(lra)).
  cbn [fst snd].
  unfold campaign_tracker.
  cbn [mass area areaToMass specificHeat maxTempRise ambientTemp currentTemp
       heatHistory set_currentTemp].
  repeat split; try assumption.
  eexists. split; [reflexivity |].
  specialize (Hhi ltac:(lra)). lra.
Qed.

Lemma applyHeating_campaign this (n f ts : num) :
  (n <? Fin 1) = false -> fluence_like f ->
  campaign_tracker mat m ar this ->
  campaign_tracker mat m ar (snd (applyHeating this n f ts)).
Proof.
  intros Hn Hf Hinv.
  pose proof (ThermalLimits.applyHeating_refused this n f ts) as Kf.
  pose proof (ThermalLimits.applyHeating_success_pulses this n f ts) as P.
  destruct (heating_success (fst (applyHeating this n f ts))) eqn:S;
    [| rewrite (Kf eq_refl); exact Hinv].
  specialize (P eq_refl).
  assert (H1 : (Fin 1 <=? n) = true)
    by (apply ThermalLimits.ltb_false_leb; [exact P | reflexivity | exact Hn]).
  destruct Hinv as (Hm & Ha & Hk & Hc & HMx & HTa & (T & HT & Hb) & Hh).
  assert (c0 := specificHeatOf_pos mat).
  assert (k0 : (0 < ar / m)%R) by (apply Rdiv_lt_0_compat; assumption).
  pose proof (calculateTempRise_like this (ar / m) (specificHeatOf mat) n f
                Hk Hc k0 c0 H1 Hf) as L.
  revert S. unfold applyHeating.
  destruct (calculateTempRise this n f) as [r | | |]; cbn in L;
    try contradiction; rewrite HT, HTa, HMx; cbn [add sub neg leb andb].
  - match goal with
    | |- context [Rleb ?a ?b && _] => destruct (Rleb a b) eqn:Safe
    end;
      cbn [andb]; [| intros S'; cbn in S'; discriminate S'].
    destruct (negb _); cbn [fst snd heating_success];
      [| intros S'; discriminate S'].
    intros _. apply Rleb_spec in Safe.
    assert (Hnew : safe_temperature mat (Fin (T + r)))
      by (exists (T + r)%R; split; [reflexivity | lra]).
    unfold campaign_tracker.
    cbn [mass area areaToMass specificHeat maxTempRise ambientTemp
         currentTemp heatHistory set_currentTemp push_heatHistory].
    repeat split; try assumption.
    apply Forall_app. split; [exact Hh |].
    constructor; [exact Hnew | constructor].
  - intros S'. cbn in S'. discriminate S'.
  - intros S'. cbn in S'. discriminate S'.
Qed.

Lemma simulateLaserPass_campaign debris laserParams distance this ts (E : R) :
  pulseEnergy laserParams = Fin E -> (0 < E)%R ->
  campaign_tracker mat m ar this ->
  campaign_tracker mat m ar
    (snd (simulateLaserPass debris laserParams distance this ts)).
Proof.
  intros HE E0 Hinv. unfold simulateLaserPass.
  destruct (_ && _); cbn [snd]; [exact Hinv |].
  match goal with
  | |- context [Math_min ?a ?b <? ?c] => destruct (Math_min a b <? c) eqn:L
  end; cbn [snd]; [exact Hinv |].
  match goal with
  | |- context [applyHeating ?t ?n ?f ?s] =>
      pose proof (applyHeating_campaign t n f s L) as H;
      destruct (applyHeating t n f s) as [r t1]
  end.
  cbn [snd] in H.
  assert (W : campaign_tracker mat m ar t1).
  { apply H; [| exact Hinv]. rewrite HE. apply calculateFluence_like. exact E0. }
  destruct (negb (heating_success r)); cbn [snd]; exact W.
Qed.

(** The status an accepted pass reports is that of the tracker it
    leaves. *)
Lemma simulateLaserPass_status debris laserParams distance this ts report :
  fst (simulateLaserPass debris laserParams distance this ts)
    = PassSuccess report ->
  report_thermalStatus report =
    getStatus (snd (simulateLaserPass debris laserParams distance this ts)).
Proof.
  unfold simulateLaserPass.
  destruct (_ && _); cbn [fst snd]; [discriminate |].
  match goal with
  | |- context [Math_min ?a ?b <? ?c] => destruct (Math_min a b <? c)
  end; cbn [fst snd]; [discriminate |].
  match goal with
  | |- context [applyHeating ?t ?n ?f ?s] =>
      destruct (applyHeating t n f s) as [r t1]
  end.
  destruct (negb (heating_success r)); cbn [fst snd]; [discriminate |].
  intros H. injection H as <-. reflexivity.
Qed.

Variable laserParams : LaserParams.
Variable E : R.
Hypothesis energy_finite : pulseEnergy laserParams = Fin E.
Hypothesis energy_pos : (0 < E)%R.

(** One iteration at a time not before the previous pass keeps the
    tracker of the campaign and appends a safe record. *)
Lemma campaignStep_campaign st i (previous : option R) (t : R) :
  match previous with Some b => (b <= t)%R | None => True end ->
  campaign_tracker mat m ar (loop_thermalTracker st) ->
  let st' := campaignStep laserParams st i (option_map Fin previous) (Fin t) in
  campaign_tracker mat m ar (loop_thermalTracker st') /\
  exists p, loop_passResults st' = loop_passResults st ++ [p] /\
            record_safe mat p.
Proof.
  intros Hprev Hinv. cbv zeta. unfold campaignStep.
  set (cooled := match option_map Fin previous with
                 | Some before =>
                     snd (applyCooling (loop_thermalTracker st)
                            (Fin t - before))
                 | None => loop_thermalTracker st
                 end).
  assert (Hc : campaign_tracker mat m ar cooled).
  { unfold cooled. destruct previous as [b |]; cbn [option_map].
    - replace (Fin t - Fin b) with (Fin (t + - b)) by reflexivity.
      apply applyCooling_campaign; [lra | exact Hinv].
    - exact Hinv. }
  match goal with
  | |- context [if ?c then _ else _] => destruct c
  end.
  - cbn [loop_thermalTracker loop_passResults]. split; [exact Hc |].
    eexists. split; [reflexivity |].
    unfold record_safe. cbn [status_in].
    apply campaign_tracker_status. exact Hc.
  - match goal with
    | |- context [simulateLaserPass ?d ?l ?x ?tr ?ts] =>
        pose proof (simulateLaserPass_campaign d l x tr ts E
                      energy_finite energy_pos Hc) as W;
        pose proof (simulateLaserPass_status d l x tr ts) as Q;
        destruct (simulateLaserPass d l x tr ts)
          as [[reason detail | report] t1]
    end; cbn [fst snd] in W, Q;
      cbn [loop_thermalTracker loop_passResults].
    + split; [exact W |]. eexists. split; [reflexivity |].
      unfold record_safe. cbn [status_in].
      apply campaign_tracker_status. exact W.
    + split; [exact W |]. eexists. split; [reflexivity |].
      unfold record_safe. cbn [status_in set_updatedDebris report_thermalStatus].
      rewrite (Q report eq_refl).
      apply campaign_tracker_status. exact W.
Qed.

Lemma campaignLoop_campaign (times : list R) :
  forall i (previous : option R) st,
    Sorted Rle times ->
    match previous with Some b => HdRel Rle b times | None => True end ->
    campaign_tracker mat m ar (loop_thermalTracker st) ->
    Forall (record_safe mat) (loop_passResults st) ->
    let st' :=
      campaignLoop laserParams (map Fin times) i (option_map Fin previous) st in
    campaign_tracker mat m ar (loop_thermalTracker st') /\
    Forall (record_safe mat) (loop_passResults st').
Proof.
  induction times as [| t rest IH]; intros i previous st Hs Hp Hinv Hrec;
    cbn [campaignLoop map]; cbv zeta.
  - split; assumption.
  - destruct (loop_missionComplete st); [split; assumption |].
    destruct (campaignStep_campaign st i previous t) as (W & p & Hres & Hsafe);
      [destruct previous as [b |]; [inversion Hp; assumption | exact I]
      | exact Hinv |].
    apply (IH (S i) (Some t)).
    + inversion Hs; assumption.
    + inversion Hs; assumption.
    + exact W.
    + rewrite Hres. apply Forall_app. split; [exact Hrec |].
      constructor; [exact Hsafe | constructor].
Qed.

End CampaignTracker.

Lemma Math_max_list_safe (mat : Material) (l : list num) :
  Forall (safe_temperature mat) l ->
  forall a, a = NInf \/ safe_temperature mat a ->
  fold_left Math_max l a = NInf \/ safe_temperature mat (fold_left Math_max l a).
Proof.
  induction 1 as [| x l Hx Hl IH]; intros a Ha; cbn [fold_left];
    [exact Ha |].
  apply IH. right.
  destruct Hx as (X & -> & HX).
  destruct Ha as [-> | (A & -> & HA)].
  - exists X. split; [reflexivity | exact HX].
  - cbn. destruct (Rltb A X); [exists X | exists A];
      (split; [reflexivity | assumption]).
Qed.

(** X12.  A campaign never overheats the debris.  For a debris of positive
    mass and area, pulses of positive energy and pass times that do not
    decrease, the tracker stays between 270 K and 270 K plus the safe
    rise of the material: every record of the plan carries a safe status
    at such a temperature, so does the final status, and the highest
    temperature reached is such a temperature ([-Infinity] when no pass
    heated). *)
Theorem planRemovalCampaign_thermal_safety
    (debris : Debris) (laserParams : LaserParams) (times : list R)
    (mat : Material) (m ar E : R) :
  debris_mass debris = Fin m -> debris_area debris = Fin ar ->
  (0 < m)%R -> (0 < ar)%R ->
  pulseEnergy laserParams = Fin E -> (0 < E)%R ->
  Sorted Rle times ->
  let plan := planRemovalCampaign debris laserParams (map Fin times) mat in
  Forall (record_safe mat) (plan_passResults plan) /\
  status_isSafe (plan_finalThermalStatus plan) = true /\
  safe_temperature mat (status_currentTemp (plan_finalThermalStatus plan)) /\
  (plan_maxTempReached plan = NInf \/
   safe_temperature mat (plan_maxTempReached plan)).
Proof.
  intros Hm Ha m0 a0 HE E0 Hs. cbv zeta. unfold planRemovalCampaign.
  cbn [plan_passResults plan_finalThermalStatus plan_maxTempReached].
  rewrite Hm, Ha.
  match goal with
  | |- context [campaignLoop ?l ?pt ?i ?pr ?st] =>
      destruct (campaignLoop_campaign mat m ar m0 a0 l E HE E0 times i None st
                  Hs I) as (W & Hrec);
      [ apply newThermalBudgetTracker_campaign; exact m0
      | constructor
      | change (campaignLoop l (map Fin times) i (option_map Fin None) st)
          with (campaignLoop l pt i pr st) in W, Hrec;
        set (st' := campaignLoop l pt i pr st) in * ]
  end.
  split; [exact Hrec |].
  destruct (campaign_tracker_status mat m ar _ W) as (S1 & S2).
  split; [exact S1 |]. split; [exact S2 |].
  unfold Math_max_list. apply Math_max_list_safe; [| left; reflexivity].
  destruct W as (_ & _ & _ & _ & _ & _ & _ & Hh).
  apply Forall_map. exact Hh.
Qed.

Lemma planRemovalCampaign_thermal_safety_witness :
  let plan :=
    planRemovalCampaign Scenario.exampleDebris Scenario.exampleLaser
      (map Fin [0; 5400; 10800]%R) ALUMINUM in
  Forall (record_safe ALUMINUM) (plan_passResults plan) /\
  status_isSafe (plan_finalThermalStatus plan) = true /\
  safe_temperature ALUMINUM
    (status_currentTemp (plan_finalThermalStatus plan)) /\
  (plan_maxTempReached plan = NInf \/
   safe_temperature ALUMINUM (plan_maxTempReached plan)).
Proof.
  apply (planRemovalCampaign_thermal_safety
           Scenario.exampleDebris Scenario.exampleLaser
           [0; 5400; 10800]%R ALUMINUM 15 0.1 100e3).
  - reflexivity.
  - reflexivity.
  - lra.
  - lra.
  - reflexivity.
  - lra.
  - repeat constructor; lra.
Defined.

End CampaignFacts.

(* ================================================================= *)
(** ** Validation and estimation of debris properties *)

Module DebrisModelFacts.
Import Physics Scenario.
Local Open Scope num_scope.

(** [!a || a <= 0] is the negation of [0 < a], [NaN] included. *)
Lemma positive_check (a : num) :
  (falsy a || (a <=? 0))%bool = negb (0 <? a).
Proof.
  destruct a as [x | | |]; cbn; try reflexivity.
  unfold Rleb, Rltb.
  destruct (Req_dec_T x 0), (Rle_dec x 0), (Rlt_dec 0 x);
    try reflexivity; lra.
Qed.

Lemma above_check (a : num) (r : R) :
  (0 < r)%R -> (falsy a || (a <=? Fin r))%bool = negb (Fin r <? a).
Proof.
  intros Hr. destruct a as [x | | |]; cbn; try reflexivity.
  unfold Rleb, Rltb.
  destruct (Req_dec_T x 0), (Rle_dec x r), (Rlt_dec r x);
    try reflexivity; lra.
Qed.

Lemma validateDebrisParameters_errors (debris : Debris) :
  errors (validateDebrisParameters debris) =
    (if 0 <? debris_mass debris then [] else [MassMustBePositive]) ++
    (if 0 <? debris_area debris then [] else [AreaMustBePositive]) ++
    (if ORBITAL.EARTH_RADIUS <? debris_semiMajorAxis debris
     then [] else [SemiMajorAxisAboveSurface]) ++
    (if ((debris_eccentricity debris <? 0)
         || (debris_eccentricity debris >=? 1))%bool
     then [EccentricityBetween0And1] else []).
Proof.
  unfold validateDebrisParameters. cbn [errors].
  rewrite !positive_check.
  unfold ORBITAL.EARTH_RADIUS. rewrite above_check by lra.
  destruct (0 <? debris_mass debris), (0 <? debris_area debris),
    (Fin 6371e3 <? debris_semiMajorAxis debris),
    ((debris_eccentricity debris <? 0)
     || (debris_eccentricity debris >=? 1))%bool; reflexivity.
Qed.

(** X13.  The debris is valid exactly when its mass and area are above zero,
    its semi-major axis is above the Earth radius and its eccentricity
    is neither below 0 nor at least 1; a valid debris has no error, each
    error appears at most once, and a failed check is reported whatever
    the other checks say. *)
Theorem validateDebrisParameters_valid_iff (debris : Debris) :
  let v := validateDebrisParameters debris in
  valid v =
    ((0 <? debris_mass debris) && (0 <? debris_area debris)
     && (ORBITAL.EARTH_RADIUS <? debris_semiMajorAxis debris)
     && negb (debris_eccentricity debris <? 0)
     && negb (debris_eccentricity debris >=? 1))%bool /\
  (valid v = true <-> errors v = []) /\
  NoDup (errors v) /\
  (In MassMustBePositive (errors v) <-> (0 <? debris_mass debris) = false) /\
  (In AreaMustBePositive (errors v) <-> (0 <? debris_area debris) = false) /\
  (In SemiMajorAxisAboveSurface (errors v) <->
     (ORBITAL.EARTH_RADIUS <? debris_semiMajorAxis debris) = false) /\
  (In EccentricityBetween0And1 (errors v) <->
     (debris_eccentricity debris <? 0) = true \/
     (debris_eccentricity debris >=? 1) = true).
Proof.
  cbv zeta.
  assert (V : valid (validateDebrisParameters debris) =
              (length (errors (validateDebrisParameters debris)) =? 0)%nat)
    by reflexivity.
  rewrite V, validateDebrisParameters_errors.
  destruct (0 <? debris_mass debris), (0 <? debris_area debris),
    (ORBITAL.EARTH_RADIUS <? debris_semiMajorAxis debris),
    (debris_eccentricity debris <? 0),
    (debris_eccentricity debris >=? 1); cbn;
    (split; [reflexivity |]);
    (split; [split; intros H; (discriminate H || reflexivity) |]);
    (split; [repeat constructor; cbn; intuition discriminate |]);
    repeat split; intros H;
      try discriminate H; try reflexivity; try tauto;
      try (intuition discriminate);
      try (left; reflexivity); try (right; reflexivity).
Qed.

(** X14.  A debris whose eccentricity is [NaN] (a missing or non-numeric
    field) passes the eccentricity check: with a positive mass and area
    and a semi-major axis above the surface it is valid. *)
Theorem validateDebrisParameters_nan_eccentricity (debris : Debris) :
  (0 <? debris_mass debris) = true ->
  (0 <? debris_area debris) = true ->
  (ORBITAL.EARTH_RADIUS <? debris_semiMajorAxis debris) = true ->
  debris_eccentricity debris = NaN ->
  valid (validateDebrisParameters debris) = true /\
  errors (validateDebrisParameters debris) = [].
Proof.
  intros Hm Ha Hs He.
  assert (V : valid (validateDebrisParameters debris) =
              (length (errors (validateDebrisParameters debris)) =? 0)%nat)
    by reflexivity.
  rewrite V, validateDebrisParameters_errors, Hm, Ha, Hs, He.
  split; reflexivity.
Qed.

Lemma validateDebrisParameters_nan_eccentricity_witness :
  valid (validateDebrisParameters nanEccentricityDebris) = true /\
  errors (validateDebrisParameters nanEccentricityDebris) = [].
Proof.
  apply validateDebrisParameters_nan_eccentricity;
    try reflexivity; cbn; apply Rltb_true; lra.
Defined.

(** X15.  For a positive size, whatever the type (an unknown type takes the
    default density), the estimated mass and area are positive, the mass
    is density times size times area, and the area-to-mass ratio and the
    ballistic coefficient are finite with product [1 / 2.2]. *)
Theorem estimateDebrisProperties_positive (s : R) (debrisType : string) :
  (0 < s)%R ->
  let est := estimateDebrisProperties (Fin s) debrisType in
  exists m a k b : R,
    est_mass est = Fin m /\ est_area est = Fin a /\
    est_areaToMass est = Fin k /\ est_ballisticCoefficient est = Fin b /\
    (0 < m)%R /\ (0 < a)%R /\ (k * b = 1 / 2.2)%R /\
    (800 * s * a <= m <= 2700 * s * a)%R /\
    est_material est = ALUMINUM.
Proof.
  intros Hs. cbv zeta. unfold estimateDebrisProperties.
  assert (S2 : (0 < s * s)%R) by (apply Rmult_lt_0_compat; assumption).
  assert (S3 : (0 < s * (s * s))%R) by (apply Rmult_lt_0_compat; assumption).
  destruct (String.eqb debrisType "FRAGMENT");
    [| destruct (String.eqb debrisType "ROCKET_BODY");
       [| destruct (String.eqb debrisType "PAYLOAD")]];
    cbn [est_mass est_area est_areaToMass est_ballisticCoefficient
         est_material Math_pow mul];
    rewrite !div_Fin by nra;
    (do 4 eexists; repeat split; try reflexivity; try nra;
     field; nra).
Qed.

Lemma estimateDebrisProperties_positive_witness :
  let est := estimateDebrisProperties (Fin 0.5) "ROCKET_BODY" in
  exists m a k b : R,
    est_mass est = Fin m /\ est_area est = Fin a /\
    est_areaToMass est = Fin k /\ est_ballisticCoefficient est = Fin b /\
    (0 < m)%R /\ (0 < a)%R /\ (k * b = 1 / 2.2)%R /\
    (800 * 0.5 * a <= m <= 2700 * 0.5 * a)%R /\
    est_material est = ALUMINUM.
Proof.
  apply (estimateDebrisProperties_positive 0.5 "ROCKET_BODY"). lra.
Defined.

(** A size of zero gives a mass and an area of zero, and neither an
    area-to-mass ratio nor a ballistic coefficient: both are [NaN]. *)
Theorem estimateDebrisProperties_zero_size (debrisType : string) :
  let est := estimateDebrisProperties (Fin 0) debrisType in
  est_mass est = Fin 0 /\ est_area est = Fin 0 /\
  est_areaToMass est = NaN /\ est_ballisticCoefficient est = NaN.
Proof.
  cbv zeta. unfold estimateDebrisProperties.
  destruct (String.eqb debrisType "FRAGMENT");
    [| destruct (String.eqb debrisType "ROCKET_BODY");
       [| destruct (String.eqb debrisType "PAYLOAD")]];
    cbn [est_mass est_area est_areaToMass est_ballisticCoefficient
         Math_pow mul div];
    rewrite !Req_dec_true by lra; rewrite !Rlt_dec_false by lra;
    repeat split; apply Fin_eq; lra.
Qed.

(** X16.  Removing [r] of [n] objects, [0 <= r <= n]: the removal fraction
    and the relative reduction of the collision probability lie between
    0 and 1, the reduction is at least the fraction, the altitude
    multiplier is above 0 and at most 1, with the value 1 at 800 km, and
    the effective reduction is their product, at most the relative
    one. *)
Theorem calculateRiskReduction_bounds (r n h : R) :
  (0 <= r <= n)%R -> (0 < n)%R ->
  let red := calculateRiskReduction (Fin r) (Fin n) (Fin h) in
  exists x p k : R,
    risk_removalFraction red = Fin x /\
    risk_relativeProbabilityReduction red = Fin p /\
    risk_riskMultiplier red = Fin k /\
    risk_altitudeRiskFactor red = Fin k /\
    risk_effectiveRiskReduction red = Fin (p * k) /\
    (0 <= x <= 1)%R /\ (x <= p <= 1)%R /\ (0 < k <= 1)%R /\
    (0 <= p * k <= p)%R /\ (h = 800e3%R -> k = 1%R).
Proof.
  intros Hr Hn. cbv zeta. unfold calculateRiskReduction.
  cbn [risk_removalFraction risk_relativeProbabilityReduction
       risk_riskMultiplier risk_altitudeRiskFactor
       risk_effectiveRiskReduction].
  rewrite !div_Fin by lra.
  cbn [Math_pow sub add neg mul Math_exp].
  rewrite !div_Fin by lra.
  cbn [Math_pow sub add neg mul Math_exp].
  set (x := (r / n)%R).
  set (z := ((h / 1000 + - 800) / 200)%R).
  assert (X : (0 <= x <= 1)%R).
  { unfold x. split.
    - apply Rmult_le_pos; [lra |]. left. apply Rinv_0_lt_compat. lra.
    - apply Rmult_le_reg_r with n; [lra |]. unfold Rdiv.
      rewrite Rmult_assoc, Rinv_l by lra. lra. }
  assert (K0 : (0 < exp (- (z * z)))%R) by apply exp_pos.
  assert (K1 : (exp (- (z * z)) <= 1)%R).
  { apply ThermalFacts.exp_le_1. assert (0 <= z * z)%R by nra. lra. }
  set (k := exp (- (z * z))) in *.
  set (p := (1 + - ((1 + - x) * (1 + - x)))%R).
  assert (P : (0 <= p <= 1)%R) by (unfold p; nra).
  exists x, p, k.
  repeat split; try reflexivity; try lra; try (unfold p; nra); try nra.
  intros ->. unfold k, z.
  replace (- ((800e3 / 1000 + - 800) / 200 * ((800e3 / 1000 + - 800) / 200)))%R
    with 0%R by (field; lra).
  apply exp_0.
Qed.

Lemma calculateRiskReduction_bounds_witness :
  let red := calculateRiskReduction (Fin 10) (Fin 100) (Fin 800e3) in
  exists x p k : R,
    risk_removalFraction red = Fin x /\
    risk_relativeProbabilityReduction red = Fin p /\
    risk_riskMultiplier red = Fin k /\
    risk_altitudeRiskFactor red = Fin k /\
    risk_effectiveRiskReduction red = Fin (p * k) /\
    (0 <= x <= 1)%R /\ (x <= p <= 1)%R /\ (0 < k <= 1)%R /\
    (0 <= p * k <= p)%R /\ (800e3%R = 800e3%R -> k = 1%R).
Proof.
  apply (calculateRiskReduction_bounds 10 100 800e3); lra.
Defined.

(** An empty population gives no fraction: with nothing removed of
    nothing every reduction is [NaN]. *)
Theorem calculateRiskReduction_empty_population (h : num) :
  let red := calculateRiskReduction (Fin 0) (Fin 0) h in
  risk_removalFraction red = NaN /\
  risk_relativeProbabilityReduction red = NaN /\
  risk_effectiveRiskReduction red = NaN.
Proof.
  cbv zeta. unfold calculateRiskReduction.
  cbn [risk_removalFraction risk_relativeProbabilityReduction
       risk_effectiveRiskReduction].
  assert (E : Fin 0 / Fin 0 = NaN).
  { cbn. rewrite Req_dec_true by reflexivity.
    rewrite !Rlt_dec_false by lra. reflexivity. }
  rewrite E. repeat split; reflexivity.
Qed.

End DebrisModelFacts.

(* ================================================================= *)
(** ** Orbit changes and the time to re-entry *)

Module OrbitChangeFacts.
Import Physics OrbitChangeSpec.
Local Open Scope num_scope.

(** X17.  A retrograde velocity change at the apogee (true anomaly pi), as
    [simulateLaserPass] applies it, of at least 1 mm/s and at most the
    apogee speed, on an orbit whose semi-major axis is above the Earth
    radius and whose eccentricity lies between 0.001 and 0.9: the apogee
    altitude stays as it was, the semi-major axis shrinks, the
    eccentricity grows, and the perigee altitude falls.  Circular orbits
    and changes that are next to nothing are left out: there the new
    eccentricity is the square root of a difference of two nearly equal
    numbers, which the rounding of the code decides. *)
Theorem calculateOrbitalChanges_retrograde_at_apogee (a e dv : R) :
  (6371e3 < a)%R -> (0.001 <= e <= 0.9)%R ->
  (0.001 <= dv <= apogeeVelocity a e)%R ->
  let c := calculateOrbitalChanges (Fin (- dv)) (Fin a) (Fin e) Math_PI in
  exists a' e' p : R,
    newSemiMajorAxis c = Fin a' /\ newEccentricity c = Fin e' /\
    alt_new (perigeeAltitude c) = Fin p /\
    alt_old (perigeeAltitude c) = Fin (a * (1 - e) - 6371e3) /\
    alt_new (apogeeAltitude c) = Fin (a * (1 + e) - 6371e3) /\
    alt_old (apogeeAltitude c) = Fin (a * (1 + e) - 6371e3) /\
    (a' < a)%R /\ (e < e' <= 1)%R /\
    (p < a * (1 - e) - 6371e3)%R.
Proof.
  intros Ha He Hdv. cbv zeta.
  set (mu := 3.986004418e14%R).
  assert (Hmu : (0 < mu)%R) by (unfold mu; lra).
  set (r := (a * (1 + e))%R).
  assert (Hr : (0 < r)%R) by (unfold r; nra).
  set (y := (mu * (2 / r - 1 / a))%R).
  assert (Ey : y = (mu * (1 - e) / r)%R) by (unfold y, r; field; lra).
  assert (Hy : (0 <= y)%R).
  { rewrite Ey. apply Rmult_le_pos; [nra |]. left. apply Rinv_0_lt_compat. exact Hr. }
  assert (Ev : apogeeVelocity a e = sqrt y).
  { unfold apogeeVelocity. fold mu. fold r. rewrite Ey. reflexivity. }
  rewrite Ev in Hdv.
  set (v := sqrt y) in *.
  assert (Hv : (v * v = y)%R) by (apply sqrt_sqrt; exact Hy).
  set (w := (v + - dv)%R).
  assert (Hw : (0 <= w < v)%R) by (unfold w; lra).
  set (u := (r * (w * w) / mu)%R).
  assert (Hu0 : (0 <= u)%R).
  { unfold u. apply Rmult_le_pos; [nra |]. left. apply Rinv_0_lt_compat. exact Hmu. }
  assert (Hry : (r * y = mu * (1 - e))%R) by (rewrite Ey; field; lra).
  assert (Hlt : (u < 1 - e)%R).
  { unfold u. assert (w * w < v * v)%R by nra.
    apply Rmult_lt_reg_r with mu; [exact Hmu |].
    unfold Rdiv. rewrite Rmult_assoc, Rinv_l by lra. nra. }
  unfold calculateOrbitalChanges, ORBITAL.EARTH_MU, ORBITAL.EARTH_RADIUS, Math_PI.
  fold mu.
  cbn [Math_cos newSemiMajorAxis newEccentricity perigeeAltitude apogeeAltitude alt_new alt_old].
  rewrite cos_PI. fin_arith.
  rewrite (div_Fin _ (1 + e * -1)) by lra.
  replace (a * (1 - e * e) / (1 + e * -1))%R with r by (unfold r; field; lra).
  rewrite (div_Fin 2 r), (div_Fin 1 a) by lra. fin_arith. fold y.
  rewrite sqrt_Fin by exact Hy. fold v. fin_arith. fold w.
  rewrite (div_Fin _ mu) by lra. fin_arith.
  assert (Ed : (2 / r - w * w / mu = (2 - u) / r)%R)
    by (unfold u; field; lra).
  rewrite Ed.
  assert (Hd : (0 < (2 - u) / r)%R)
    by (apply Rdiv_lt_0_compat; lra).
  rewrite (div_Fin 1) by lra.
  set (a1 := (r / (2 - u))%R).
  replace (1 / ((2 - u) / r))%R with a1 by (unfold a1; field; lra).
  assert (Ha1 : (0 < a1)%R) by (apply Rdiv_lt_0_compat; lra).
  fin_arith.
  rewrite (div_Fin _ (mu * a1)) by nra. fin_arith.
  assert (Hrw : (r * w * (r * w) = r * mu * u)%R)
    by (unfold u; field; lra).
  rewrite Hrw.
  replace (1 - r * mu * u / (mu * a1))%R with ((1 - u) * (1 - u))%R
    by (unfold a1; field; lra).
  rewrite sqrt_Fin by nra.
  replace (sqrt ((1 - u) * (1 - u))) with (1 - u)%R
    by (symmetry; apply sqrt_square; lra).
  fin_arith.
  assert (Ep : (a1 * (1 - (1 - u)) = r * u / (2 - u))%R)
    by (unfold a1; field; lra).
  assert (Hle : (a1 < a)%R).
  { unfold a1. apply Rmult_lt_reg_r with (2 - u)%R; [lra |].
    unfold Rdiv. rewrite Rmult_assoc, Rinv_l by lra. unfold r. nra. }
  exists a1, (1 - u)%R, (a1 * (1 - (1 - u)) - 6371e3)%R.
  split; [reflexivity |]. split; [reflexivity |]. split; [reflexivity |].
  split; [reflexivity |].
  split; [apply Fin_eq; unfold a1; field; lra |].
  split; [reflexivity |].
  split; [exact Hle |]. split; [lra |].
  nra.
Qed.

(** The fragment of the example mission slowed by 1 m/s. *)
Lemma calculateOrbitalChanges_retrograde_at_apogee_witness :
  let c := calculateOrbitalChanges (Fin (- 1)) (Fin 7178000) (Fin 0.001)
             Math_PI in
  exists a' e' p : R,
    newSemiMajorAxis c = Fin a' /\ newEccentricity c = Fin e' /\
    alt_new (perigeeAltitude c) = Fin p /\
    alt_old (perigeeAltitude c) = Fin (7178000 * (1 - 0.001) - 6371e3) /\
    alt_new (apogeeAltitude c) = Fin (7178000 * (1 + 0.001) - 6371e3) /\
    alt_old (apogeeAltitude c) = Fin (7178000 * (1 + 0.001) - 6371e3) /\
    (a' < 7178000)%R /\ (0.001 < e' <= 1)%R /\
    (p < 7178000 * (1 - 0.001) - 6371e3)%R.
Proof.
  apply (calculateOrbitalChanges_retrograde_at_apogee 7178000 0.001 1);
    try lra.
  split; [lra |]. unfold apogeeVelocity.
  rewrite <- sqrt_1 at 1. apply sqrt_le_1_alt.
  apply Rmult_le_reg_r with (7178000 * (1 + 0.001))%R; [lra |].
  unfold Rdiv. rewrite Rmult_assoc, Rinv_l by lra. lra.
Defined.

Lemma estimateReentryTime_value (p q B : R) :
  (200e3 < p)%R -> (0 < (p + q) / 2 + 6371e3)%R -> (B <> 0)%R ->
  estimateReentryTime (Fin p) (Fin q) (Fin B) =
    Fin ((p - 200e3) /
         (3 * PI / 2 *
          (4e-12 * exp (- (p - 400000) / 70000) *
           sqrt (3.986004418e14 / ((p + q) / 2 + 6371e3)) * 70000) / B)).
Proof.
  intros Hp Ha HB. assert (Hpi := PI_RGT_0).
  unfold estimateReentryTime, ORBITAL.REENTRY_ALTITUDE, ORBITAL.EARTH_RADIUS,
    ORBITAL.EARTH_MU, Math_PI.
  cbn [leb]. rewrite Rleb_false by lra.
  fin_arith.
  rewrite (div_Fin _ 70000) by lra. rewrite exp_Fin.
  rewrite !(div_Fin _ 2) by lra. fin_arith.
  rewrite (div_Fin 3.986004418e14) by lra.
  assert (Hq : (0 < 3.986004418e14 / ((p + q) / 2 + 6371e3))%R)
    by (apply Rdiv_lt_0_compat; lra).
  rewrite sqrt_Fin by lra. fin_arith.
  rewrite (div_Fin _ B) by exact HB.
  set (s := sqrt (3.986004418e14 / ((p + q) / 2 + 6371e3))).
  assert (Hs : (0 < s)%R) by (apply sqrt_lt_R0; exact Hq).
  set (x := exp (- (p - 400000) / 70000)).
  assert (Hx : (0 < x)%R) by apply exp_pos.
  assert (N : (3 * PI / 2 * (4e-12 * x * s * 70000) <> 0)%R).
  { assert (0 < 3 * PI / 2 * (4e-12 * x * s * 70000))%R; [| lra].
    apply Rmult_lt_0_compat; [lra |].
    apply Rmult_lt_0_compat; [| lra].
    apply Rmult_lt_0_compat; [| exact Hs].
    apply Rmult_lt_0_compat; [lra | exact Hx]. }
  rewrite div_Fin; [reflexivity |].
  unfold Rdiv. apply Rmult_integral_contrapositive_currified; [exact N |].
  apply Rinv_neq_0_compat. exact HB.
Qed.

(** X18.  Above the re-entry altitude, for an orbit whose semi-major axis is
    positive and a positive ballistic coefficient, the estimated time to
    re-entry is a positive number, and it is proportional to the
    ballistic coefficient. *)
Theorem estimateReentryTime_positive (p q B k : R) :
  (200e3 < p)%R -> (0 < (p + q) / 2 + 6371e3)%R -> (0 < B)%R -> (0 < k)%R ->
  exists t : R,
    estimateReentryTime (Fin p) (Fin q) (Fin B) = Fin t /\
    (0 < t)%R /\
    estimateReentryTime (Fin p) (Fin q) (Fin (k * B)) = Fin (k * t).
Proof.
  intros Hp Ha HB Hk. assert (Hpi := PI_RGT_0).
  assert (HkB : (0 < k * B)%R) by (apply Rmult_lt_0_compat; assumption).
  rewrite !estimateReentryTime_value by lra.
  set (s := sqrt (3.986004418e14 / ((p + q) / 2 + 6371e3))).
  assert (Hs : (0 < s)%R).
  { apply sqrt_lt_R0. apply Rdiv_lt_0_compat; lra. }
  set (x := exp (- (p - 400000) / 70000)).
  assert (Hx : (0 < x)%R) by apply exp_pos.
  set (d := (3 * PI / 2 * (4e-12 * x * s * 70000))%R).
  assert (Hd : (0 < d)%R).
  { unfold d. apply Rmult_lt_0_compat; [lra |].
    apply Rmult_lt_0_compat; [| lra].
    apply Rmult_lt_0_compat; [| exact Hs].
    apply Rmult_lt_0_compat; [lra | exact Hx]. }
  eexists. split; [reflexivity |]. split.
  - apply Rdiv_lt_0_compat; [lra |]. apply Rdiv_lt_0_compat; assumption.
  - apply Fin_eq. field. lra.
Qed.

Lemma estimateReentryTime_positive_witness :
  exists t : R,
    estimateReentryTime (Fin 799000) (Fin 801000) (Fin 150) = Fin t /\
    (0 < t)%R /\
    estimateReentryTime (Fin 799000) (Fin 801000) (Fin (2 * 150))
      = Fin (2 * t).
Proof.
  apply (estimateReentryTime_positive 799000 801000 150 2); lra.
Defined.

End OrbitChangeFacts.

(* ================================================================= *)
(** ** Orbital mechanics: state vectors, velocity changes, decay *)

Module OrbitalMechanicsFacts.
Import OrbitalMechanics OrbitSpec DecaySpec.
Local Open Scope num_scope.

Lemma calculateOrbitalPeriod_value (a : R) :
  (0 <= a)%R ->
  calculateOrbitalPeriod (Fin a) =
    Fin (2 * PI * sqrt (a * (a * a) / 398600.4418) / 60).
Proof.
  intros Ha. unfold calculateOrbitalPeriod, MU_EARTH, Math_PI.
  cbn [Math_pow]. fin_arith.
  rewrite (div_Fin _ 398600.4418) by lra.
  rewrite sqrt_Fin.
  - fin_arith. rewrite div_Fin by lra. reflexivity.
  - apply Rmult_le_pos; [| lra].
    apply Rmult_le_pos; [lra |]. apply Rmult_le_pos; lra.
Qed.

(** X19.  Kepler's third law: the period of an orbit of positive semi-major
    axis is a positive number, the squares of two periods are in the
    ratio of the cubes of the axes, and the larger orbit has the longer
    period. *)
Theorem calculateOrbitalPeriod_third_law (a1 a2 : R) :
  (0 < a1)%R -> (0 < a2)%R ->
  exists T1 T2 : R,
    calculateOrbitalPeriod (Fin a1) = Fin T1 /\
    calculateOrbitalPeriod (Fin a2) = Fin T2 /\
    (0 < T1)%R /\
    (T1 * T1 * (a2 * a2 * a2) = T2 * T2 * (a1 * a1 * a1))%R /\
    (a1 < a2 -> T1 < T2)%R.
Proof.
  intros H1 H2. assert (Hpi := PI_RGT_0).
  rewrite !calculateOrbitalPeriod_value by lra.
  set (q1 := (a1 * (a1 * a1) / 398600.4418)%R).
  set (q2 := (a2 * (a2 * a2) / 398600.4418)%R).
  assert (P1 : (0 < a1 * (a1 * a1))%R) by (repeat apply Rmult_lt_0_compat; lra).
  assert (P2 : (0 < a2 * (a2 * a2))%R) by (repeat apply Rmult_lt_0_compat; lra).
  assert (Q1 : (0 < q1)%R) by (apply Rdiv_lt_0_compat; lra).
  assert (Q2 : (0 < q2)%R) by (apply Rdiv_lt_0_compat; lra).
  assert (S1 := sqrt_sqrt q1 (Rlt_le _ _ Q1)).
  assert (S2 := sqrt_sqrt q2 (Rlt_le _ _ Q2)).
  assert (R1 := sqrt_lt_R0 q1 Q1).
  assert (R2 := sqrt_lt_R0 q2 Q2).
  do 2 eexists. split; [reflexivity |]. split; [reflexivity |].
  split; [| split].
  - apply Rdiv_lt_0_compat; [| lra].
    apply Rmult_lt_0_compat; [lra | exact R1].
  - replace (2 * PI * sqrt q1 / 60 * (2 * PI * sqrt q1 / 60))%R
      with (4 * PI * PI / 3600 * (sqrt q1 * sqrt q1))%R by field.
    replace (2 * PI * sqrt q2 / 60 * (2 * PI * sqrt q2 / 60))%R
      with (4 * PI * PI / 3600 * (sqrt q2 * sqrt q2))%R by field.
    rewrite S1, S2. unfold q1, q2. field. lra.
  - intros L.
    assert (q1 < q2)%R.
    { unfold q1, q2. apply Rmult_lt_compat_r; [lra |].
      assert (a1 * a1 < a2 * a2)%R by nra. nra. }
    assert (sqrt q1 < sqrt q2)%R by (apply sqrt_lt_1_alt; lra).
    apply Rmult_lt_compat_r; [lra |].
    apply Rmult_lt_compat_l; [lra | assumption].
Qed.

Lemma calculateOrbitalPeriod_third_law_witness :
  exists T1 T2 : R,
    calculateOrbitalPeriod (Fin 6771) = Fin T1 /\
    calculateOrbitalPeriod (Fin 7171) = Fin T2 /\
    (0 < T1)%R /\
    (T1 * T1 * (7171 * 7171 * 7171) = T2 * T2 * (6771 * 6771 * 6771))%R /\
    (6771 < 7171 -> T1 < T2)%R.
Proof.
  apply (calculateOrbitalPeriod_third_law 6771 7171); lra.
Defined.

Lemma sqrt_sum_scaled (c x y z : R) :
  (0 <= c)%R ->
  sqrt (c * x * (c * x) + c * y * (c * y) + c * z * (c * z)) =
    (c * sqrt (x * x + y * y + z * z))%R.
Proof.
  intros Hc.
  replace (c * x * (c * x) + c * y * (c * y) + c * z * (c * z))%R
    with (c * c * (x * x + y * y + z * z))%R by ring.
  rewrite sqrt_mult_alt by nra.
  rewrite sqrt_square by exact Hc. reflexivity.
Qed.

Lemma applyDeltaV_prograde_value (pos : vec) (vx vy vz dv : R) :
  (0 < vx * vx + vy * vy + vz * vz)%R ->
  let m := sqrt (vx * vx + vy * vy + vz * vz) in
  applyDeltaV pos (Fin vx, Fin vy, Fin vz) (Fin dv) (Some "prograde"%string) =
    {| position := pos;
       velocity := (Fin ((1 + dv / 1000 / m) * vx),
                    Fin ((1 + dv / 1000 / m) * vy),
                    Fin ((1 + dv / 1000 / m) * vz)) |}.
Proof.
  intros Hv m. destruct pos as [[x y] z].
  assert (Hm : (0 < m)%R) by (apply sqrt_lt_R0; exact Hv).
  unfold applyDeltaV. cbn [String.eqb Ascii.eqb Bool.eqb].
  fin_arith. rewrite sqrt_Fin by lra. fold m.
  rewrite (div_Fin dv), !(div_Fin _ m) by lra. fin_arith.
  f_equal. f_equal; [f_equal |]; apply Fin_eq; field; lra.
Qed.

Lemma applyDeltaV_retrograde_value (pos : vec) (vx vy vz dv : R)
    (direction : option string) :
  (0 < vx * vx + vy * vy + vz * vz)%R ->
  direction = None \/ direction = Some "retrograde"%string ->
  let m := sqrt (vx * vx + vy * vy + vz * vz) in
  applyDeltaV pos (Fin vx, Fin vy, Fin vz) (Fin dv) direction =
    {| position := pos;
       velocity := (Fin ((1 - dv / 1000 / m) * vx),
                    Fin ((1 - dv / 1000 / m) * vy),
                    Fin ((1 - dv / 1000 / m) * vz)) |}.
Proof.
  intros Hv Hd m. destruct pos as [[x y] z].
  assert (Hm : (0 < m)%R) by (apply sqrt_lt_R0; exact Hv).
  unfold applyDeltaV.
  destruct Hd as [-> | ->]; cbn [String.eqb Ascii.eqb Bool.eqb];
    fin_arith; rewrite sqrt_Fin by lra; fold m;
    rewrite (div_Fin dv), !(div_Fin _ m) by lra; fin_arith;
    (f_equal; f_equal; [f_equal |]; apply Fin_eq; field; lra).
Qed.

(** X20.  [applyDeltaV] never moves the position.  A prograde change of a
    velocity that is not zero raises the speed by [deltaV / 1000] km/s,
    and the default direction (retrograde) with the same [deltaV] then
    gives back the state vectors it started from. *)
Theorem applyDeltaV_prograde_then_retrograde
    (pos : vec) (vx vy vz dv : R) :
  (0 < vx * vx + vy * vy + vz * vz)%R -> (0 <= dv)%R ->
  let s1 :=
    applyDeltaV pos (Fin vx, Fin vy, Fin vz) (Fin dv) (Some "prograde"%string) in
  position s1 = pos /\
  (exists wx wy wz : R,
     velocity s1 = (Fin wx, Fin wy, Fin wz) /\
     sqrt (wx * wx + wy * wy + wz * wz) =
       (sqrt (vx * vx + vy * vy + vz * vz) + dv / 1000)%R) /\
  applyDeltaV (position s1) (velocity s1) (Fin dv) None =
    {| position := pos; velocity := (Fin vx, Fin vy, Fin vz) |}.
Proof.
  intros Hv Hdv. cbv zeta.
  rewrite applyDeltaV_prograde_value by exact Hv.
  cbn [position velocity].
  set (m := sqrt (vx * vx + vy * vy + vz * vz)).
  assert (Hm : (0 < m)%R) by (apply sqrt_lt_R0; exact Hv).
  set (c := (1 + dv / 1000 / m)%R).
  assert (Hc : (1 <= c)%R).
  { unfold c. assert (0 <= dv / 1000 / m)%R; [| lra].
    apply Rmult_le_pos; [lra |]. left. apply Rinv_0_lt_compat. exact Hm. }
  assert (Hs : sqrt (c * vx * (c * vx) + c * vy * (c * vy) + c * vz * (c * vz))
               = (m + dv / 1000)%R).
  { rewrite sqrt_sum_scaled by lra. fold m. unfold c. field. lra. }
  split; [reflexivity |]. split.
  - do 3 eexists. split; [reflexivity | exact Hs].
  - rewrite applyDeltaV_retrograde_value; [| | left; reflexivity].
    + rewrite Hs. f_equal. f_equal; [f_equal |]; apply Fin_eq;
        unfold c; field; split; try lra.
      all: assert (0 <= dv / 1000)%R by lra; lra.
    + assert (0 < c * c * (vx * vx + vy * vy + vz * vz))%R
        by (apply Rmult_lt_0_compat; nra).
      nra.
Qed.

Lemma applyDeltaV_prograde_then_retrograde_witness :
  let s1 :=
    applyDeltaV (Fin 7000, Fin 0, Fin 0) (Fin 0, Fin 7, Fin 0) (Fin 10)
      (Some "prograde"%string) in
  position s1 = (Fin 7000, Fin 0, Fin 0) /\
  (exists wx wy wz : R,
     velocity s1 = (Fin wx, Fin wy, Fin wz) /\
     sqrt (wx * wx + wy * wy + wz * wz) =
       (sqrt (0 * 0 + 7 * 7 + 0 * 0) + 10 / 1000)%R) /\
  applyDeltaV (position s1) (velocity s1) (Fin 10) None =
    {| position := (Fin 7000, Fin 0, Fin 0);
       velocity := (Fin 0, Fin 7, Fin 0) |}.
Proof.
  apply (applyDeltaV_prograde_then_retrograde
           (Fin 7000, Fin 0, Fin 0) 0 7 0 10); lra.
Defined.

(** A direction that is none of the four known ones changes nothing. *)
Theorem applyDeltaV_unknown_direction
    (pos vel : vec) (dv : num) (direction : string) :
  direction <> "prograde"%string -> direction <> "retrograde"%string ->
  direction <> "radial-out"%string -> direction <> "radial-in"%string ->
  applyDeltaV pos vel dv (Some direction) =
    {| position := pos; velocity := vel |}.
Proof.
  intros H1 H2 H3 H4.
  destruct pos as [[x y] z], vel as [[vx vy] vz].
  unfold applyDeltaV.
  apply String.eqb_neq in H1, H2, H3, H4.
  rewrite H1, H2, H3, H4. rewrite !CampaignFacts.add_0_r. reflexivity.
Qed.

Lemma applyDeltaV_unknown_direction_witness :
  applyDeltaV (Fin 7000, Fin 0, Fin 0) (Fin 0, Fin 7, Fin 0) (Fin 10)
    (Some "normal"%string) =
    {| position := (Fin 7000, Fin 0, Fin 0);
       velocity := (Fin 0, Fin 7, Fin 0) |}.
Proof.
  apply applyDeltaV_unknown_direction; intros H; discriminate H.
Defined.

Lemma stateVectorsToOrbitalElements_apsis (x y z wx wy wz : R) :
  let r := sqrt (x * x + y * y + z * z) in
  let s2 := (wx * wx + wy * wy + wz * wz)%R in
  (0 < x * x + y * y + z * z)%R ->
  (x * wx + y * wy + z * wz = 0)%R ->
  (r * s2 <= 398600.4418)%R ->
  let el := stateVectorsToOrbitalElements (Fin x, Fin y, Fin z)
              (Fin wx, Fin wy, Fin wz) in
  el_a el = Fin (1 / (2 / r - s2 / 398600.4418)) /\
  el_e el = Fin (1 - r * s2 / 398600.4418) /\
  el_apogeeAlt el = Fin (r - 6371.0) /\
  el_perigeeAlt el = Fin (2 * (1 / (2 / r - s2 / 398600.4418)) - r - 6371.0).
Proof.
  intros r s2 Hpos Hdot Hs. cbv zeta.
  set (mu := 398600.4418%R) in *.
  assert (Hmu : (0 < mu)%R) by (unfold mu; lra).
  assert (Hr : (0 < r)%R) by (apply sqrt_lt_R0; exact Hpos).
  assert (Hs2 : (0 <= s2)%R) by (unfold s2; nra).
  unfold stateVectorsToOrbitalElements, MU_EARTH, EARTH_RADIUS_KM.
  cbn [el_a el_e el_apogeeAlt el_perigeeAlt].
  fold mu. fin_arith.
  rewrite !(sqrt_Fin (x * x + y * y + z * z)) by lra. fold r.
  rewrite !(sqrt_Fin (wx * wx + wy * wy + wz * wz)) by exact Hs2. fold s2.
  fin_arith.
  rewrite (sqrt_sqrt s2) by exact Hs2.
  rewrite Hdot.
  rewrite !(div_Fin mu r) by lra. fin_arith.
  rewrite !(div_Fin _ mu), !(div_Fin s2 2) by lra. fin_arith.
  set (c := ((mu / r - s2) / mu)%R).
  assert (Hc : (0 <= c)%R).
  { unfold c. apply Rmult_le_pos; [| left; apply Rinv_0_lt_compat; lra].
    assert (s2 <= mu / r)%R; [| lra].
    apply Rmult_le_reg_r with r; [lra |]. unfold Rdiv.
    rewrite Rmult_assoc, Rinv_l by lra. lra. }
  replace (((s2 - mu / r) * x - 0 * wx) / mu *
           (((s2 - mu / r) * x - 0 * wx) / mu) +
           ((s2 - mu / r) * y - 0 * wy) / mu *
           (((s2 - mu / r) * y - 0 * wy) / mu) +
           ((s2 - mu / r) * z - 0 * wz) / mu *
           (((s2 - mu / r) * z - 0 * wz) / mu))%R
    with (c * x * (c * x) + c * y * (c * y) + c * z * (c * z))%R
    by (unfold c; field; lra).
  rewrite sqrt_Fin by nra.
  rewrite sqrt_sum_scaled by exact Hc. fold r.
  assert (Hen : (2 * (s2 / 2 - mu / r) < 0)%R).
  { assert (s2 <= mu / r)%R.
    { apply Rmult_le_reg_r with r; [lra |]. unfold Rdiv.
      rewrite Rmult_assoc, Rinv_l by lra. lra. }
    assert (0 < mu / r)%R by (apply Rdiv_lt_0_compat; lra). lra. }
  rewrite div_Fin by lra. fin_arith.
  assert (Hden : (0 < 2 / r - s2 / mu)%R).
  { assert (E : (2 / r - s2 / mu = (2 * mu - r * s2) / (r * mu))%R)
      by (field; lra).
    rewrite E. apply Rdiv_lt_0_compat; nra. }
  repeat split; apply Fin_eq; unfold c; field; lra.
Qed.

(** X21.  One pass of [propagateWithLaserPasses], a retrograde [applyDeltaV]
    followed by [stateVectorsToOrbitalElements], at a state whose
    velocity is perpendicular to the position and at most the circular
    speed (the apogee): the semi-major axis becomes the one of the
    apogee-anchored recurrence of [trackPerigeeEvolution], it does not
    grow, the apogee altitude stays the altitude of the state, and the
    perigee radius is twice the new axis minus the apogee radius. *)
Theorem retrograde_burn_at_apogee (x y z vx vy vz dv : R) :
  let r := sqrt (x * x + y * y + z * z) in
  let v := sqrt (vx * vx + vy * vy + vz * vz) in
  (0 < x * x + y * y + z * z)%R ->
  (0 < vx * vx + vy * vy + vz * vz)%R ->
  (x * vx + y * vy + z * vz = 0)%R ->
  (r * (v * v) <= 398600.4418)%R ->
  (0 <= dv <= 1000 * v)%R ->
  let before :=
    stateVectorsToOrbitalElements (Fin x, Fin y, Fin z)
      (Fin vx, Fin vy, Fin vz) in
  let burnt :=
    applyDeltaV (Fin x, Fin y, Fin z) (Fin vx, Fin vy, Fin vz) (Fin dv) None in
  let after :=
    stateVectorsToOrbitalElements (position burnt) (velocity burnt) in
  exists a0 a1 : R,
    el_a before = Fin a0 /\ el_a after = Fin a1 /\
    a1 = axisAfter r a0 dv /\
    el_apogeeAlt before = Fin (r - 6371.0) /\
    el_apogeeAlt after = Fin (r - 6371.0) /\
    el_perigeeAlt after = Fin (2 * a1 - r - 6371.0) /\
    (a1 <= a0)%R.
Proof.
  intros r v Hpos Hvel Hdot Hcirc Hdv. cbv zeta.
  set (mu := 398600.4418%R) in *.
  assert (Hmu : (0 < mu)%R) by (unfold mu; lra).
  assert (Hr : (0 < r)%R) by (apply sqrt_lt_R0; exact Hpos).
  assert (Hv : (0 < v)%R) by (apply sqrt_lt_R0; exact Hvel).
  assert (Hvv : (v * v = vx * vx + vy * vy + vz * vz)%R)
    by (apply sqrt_sqrt; lra).
  rewrite applyDeltaV_retrograde_value; [| exact Hvel | left; reflexivity].
  fold v. cbn [position velocity].
  set (c := (1 - dv / 1000 / v)%R).
  assert (Hc : (0 <= c <= 1)%R).
  { unfold c.
    assert (0 <= dv / 1000 / v <= 1)%R; [| lra]. split.
    - apply Rmult_le_pos; [lra |]. left. apply Rinv_0_lt_compat. exact Hv.
    - apply Rmult_le_reg_r with v; [exact Hv |]. unfold Rdiv at 1.
      rewrite Rmult_assoc, Rinv_l by lra. lra. }
  assert (Hw : (c * vx * (c * vx) + c * vy * (c * vy) + c * vz * (c * vz)
                = (v - dv / 1000) * (v - dv / 1000))%R).
  { replace (c * vx * (c * vx) + c * vy * (c * vy) + c * vz * (c * vz))%R
      with (c * c * (vx * vx + vy * vy + vz * vz))%R by ring.
    rewrite <- Hvv. unfold c. field. lra. }
  destruct (stateVectorsToOrbitalElements_apsis x y z vx vy vz)
    as (A0 & _ & G0 & _); [exact Hpos | exact Hdot | |].
  { fold r. rewrite <- Hvv. exact Hcirc. }
  destruct (stateVectorsToOrbitalElements_apsis x y z (c * vx) (c * vy) (c * vz))
    as (A1 & _ & G1 & P1); [exact Hpos | | |].
  { replace (x * (c * vx) + y * (c * vy) + z * (c * vz))%R
      with (c * (x * vx + y * vy + z * vz))%R by ring.
    rewrite Hdot. ring. }
  { fold r. rewrite Hw.
    assert (0 <= v - dv / 1000 <= v)%R by lra.
    assert ((v - dv / 1000) * (v - dv / 1000) <= v * v)%R by nra.
    fold mu. nra. }
  fold r in A0, G0, A1, G1, P1. fold mu in A0, A1, P1.
  rewrite Hw in A1, P1. rewrite <- Hvv in A0.
  assert (Hden : (0 < 2 / r - v * v / mu)%R).
  { assert (E : (2 / r - v * v / mu = (2 * mu - r * (v * v)) / (r * mu))%R)
      by (field; lra).
    rewrite E. apply Rdiv_lt_0_compat; nra. }
  assert (Hspeed : apogeeSpeed r (1 / (2 / r - v * v / mu)) = v).
  { unfold apogeeSpeed. fold mu.
    replace (mu * (2 / r - 1 / (1 / (2 / r - v * v / mu))))%R with (v * v)%R
      by (field; lra).
    apply sqrt_square. lra. }
  do 2 eexists.
  split; [exact A0 |]. split; [exact A1 |].
  split; [unfold axisAfter; fold mu; rewrite Hspeed; reflexivity |].
  split; [exact G0 |]. split; [exact G1 |]. split; [exact P1 |].
  assert (Hww : ((v - dv / 1000) * (v - dv / 1000) <= v * v)%R) by nra.
  assert (Hden1 : (0 < 2 / r - (v - dv / 1000) * (v - dv / 1000) / mu)%R).
  { assert ((v - dv / 1000) * (v - dv / 1000) / mu <= v * v / mu)%R.
    { apply Rmult_le_compat_r; [left; apply Rinv_0_lt_compat; lra | lra]. }
    lra. }
  assert (I1 : forall t : R, (1 / t = / t)%R)
    by (intros t; unfold Rdiv; apply Rmult_1_l).
  rewrite !I1.
  apply Rinv_le_contravar; [exact Hden |].
  assert ((v - dv / 1000) * (v - dv / 1000) / mu <= v * v / mu)%R.
  { apply Rmult_le_compat_r; [left; apply Rinv_0_lt_compat; lra | lra]. }
  lra.
Qed.

Lemma retrograde_burn_at_apogee_witness :
  let r := sqrt (7000 * 7000 + 0 * 0 + 0 * 0) in
  let before :=
    stateVectorsToOrbitalElements (Fin 7000, Fin 0, Fin 0)
      (Fin 0, Fin 7, Fin 0) in
  let burnt :=
    applyDeltaV (Fin 7000, Fin 0, Fin 0) (Fin 0, Fin 7, Fin 0) (Fin 10)
      None in
  let after :=
    stateVectorsToOrbitalElements (position burnt) (velocity burnt) in
  exists a0 a1 : R,
    el_a before = Fin a0 /\ el_a after = Fin a1 /\
    a1 = axisAfter r a0 10 /\
    el_apogeeAlt before = Fin (r - 6371.0) /\
    el_apogeeAlt after = Fin (r - 6371.0) /\
    el_perigeeAlt after = Fin (2 * a1 - r - 6371.0) /\
    (a1 <= a0)%R.
Proof.
  assert (R7000 : sqrt (7000 * 7000 + 0 * 0 + 0 * 0) = 7000%R).
  { replace (7000 * 7000 + 0 * 0 + 0 * 0)%R with (7000 * 7000)%R by ring.
    apply sqrt_square. lra. }
  assert (R7 : sqrt (0 * 0 + 7 * 7 + 0 * 0) = 7%R).
  { replace (0 * 0 + 7 * 7 + 0 * 0)%R with (7 * 7)%R by ring.
    apply sqrt_square. lra. }
  apply (retrograde_burn_at_apogee 7000 0 0 0 7 0 10);
    rewrite ?R7000, ?R7; lra.
Defined.

(** X22.  For a state on a bound orbit (negative energy) the semi-major axis
    is positive and satisfies the vis-viva equation at the state, the
    eccentricity is not negative, and the perigee altitude, [a (1 - e)]
    above the surface, is at most the apogee altitude [a (1 + e)]. *)
Theorem stateVectorsToOrbitalElements_bound_orbit (x y z vx vy vz : R) :
  let r := sqrt (x * x + y * y + z * z) in
  let s2 := (vx * vx + vy * vy + vz * vz)%R in
  (0 < x * x + y * y + z * z)%R ->
  (r * s2 < 2 * 398600.4418)%R ->
  let el := stateVectorsToOrbitalElements (Fin x, Fin y, Fin z)
              (Fin vx, Fin vy, Fin vz) in
  exists a e : R,
    el_a el = Fin a /\ el_e el = Fin e /\
    (0 < a)%R /\ (0 <= e)%R /\
    (s2 = 398600.4418 * (2 / r - 1 / a))%R /\
    el_perigeeAlt el = Fin (a * (1 - e) - 6371.0) /\
    el_apogeeAlt el = Fin (a * (1 + e) - 6371.0) /\
    (a * (1 - e) - 6371.0 <= a * (1 + e) - 6371.0)%R.
Proof.
  intros r s2 Hpos Hs. cbv zeta.
  set (mu := 398600.4418%R) in *.
  assert (Hmu : (0 < mu)%R) by (unfold mu; lra).
  assert (Hr : (0 < r)%R) by (apply sqrt_lt_R0; exact Hpos).
  assert (Hs2 : (0 <= s2)%R) by (unfold s2; nra).
  unfold stateVectorsToOrbitalElements, MU_EARTH, EARTH_RADIUS_KM.
  cbn [el_a el_e el_apogeeAlt el_perigeeAlt].
  fold mu. fin_arith.
  rewrite !(sqrt_Fin (x * x + y * y + z * z)) by lra. fold r.
  rewrite !(sqrt_Fin (vx * vx + vy * vy + vz * vz)) by exact Hs2. fold s2.
  fin_arith.
  rewrite (sqrt_sqrt s2) by exact Hs2.
  rewrite !(div_Fin mu r) by lra. fin_arith.
  rewrite !(div_Fin _ mu), !(div_Fin s2 2) by lra. fin_arith.
  match goal with
  | |- context [Math_sqrt (Fin ?q)] =>
      set (q2 := q);
      assert (Hq : (0 <= q2)%R)
        by (unfold q2; repeat apply Rplus_le_le_0_compat; apply Rle_0_sqr)
  end.
  rewrite sqrt_Fin by exact Hq.
  assert (He := sqrt_pos q2).
  assert (Hen : (2 * (s2 / 2 - mu / r) < 0)%R).
  { assert (s2 / 2 < mu / r)%R; [| lra].
    apply Rmult_lt_reg_r with (2 * r)%R; [lra |].
    replace (s2 / 2 * (2 * r))%R with (r * s2)%R by field.
    replace (mu / r * (2 * r))%R with (2 * mu)%R by (field; lra).
    exact Hs. }
  rewrite div_Fin by lra. fin_arith.
  set (a := (- mu / (2 * (s2 / 2 - mu / r)))%R).
  assert (Ha : (0 < a)%R).
  { unfold a. replace (- mu / (2 * (s2 / 2 - mu / r)))%R
      with (mu / (- (2 * (s2 / 2 - mu / r))))%R by (field; lra).
    apply Rdiv_lt_0_compat; lra. }
  exists a, (sqrt q2).
  repeat split; try reflexivity; try lra; try nra.
  unfold a. field. lra.
Qed.

Lemma stateVectorsToOrbitalElements_bound_orbit_witness :
  let r := sqrt (7000 * 7000 + 0 * 0 + 0 * 0) in
  let s2 := (0 * 0 + 7 * 7 + 0 * 0)%R in
  let el := stateVectorsToOrbitalElements (Fin 7000, Fin 0, Fin 0)
              (Fin 0, Fin 7, Fin 0) in
  exists a e : R,
    el_a el = Fin a /\ el_e el = Fin e /\
    (0 < a)%R /\ (0 <= e)%R /\
    (s2 = 398600.4418 * (2 / r - 1 / a))%R /\
    el_perigeeAlt el = Fin (a * (1 - e) - 6371.0) /\
    el_apogeeAlt el = Fin (a * (1 + e) - 6371.0) /\
    (a * (1 - e) - 6371.0 <= a * (1 + e) - 6371.0)%R.
Proof.
  assert (R7000 : sqrt (7000 * 7000 + 0 * 0 + 0 * 0) = 7000%R).
  { replace (7000 * 7000 + 0 * 0 + 0 * 0)%R with (7000 * 7000)%R by ring.
    apply sqrt_square. lra. }
  apply (stateVectorsToOrbitalElements_bound_orbit 7000 0 0 0 7 0);
    rewrite ?R7000; lra.
Defined.

Lemma densityAt_pos alt : (0 < densityAt alt)%R.
Proof. unfold densityAt. repeat destruct (Rlt_dec _ _); lra. Qed.

Lemma densityAt_antitone alt1 alt2 :
  (alt1 <= alt2)%R -> (densityAt alt2 <= densityAt alt1)%R.
Proof.
  intros H. unfold densityAt.
  repeat destruct (Rlt_dec _ _); lra.
Qed.

Lemma estimateAtmosphericDecay_rate (alt k : R) :
  (-6371 < alt)%R ->
  decayRate (estimateAtmosphericDecay (Fin alt) (Fin k)) = Fin (decayRateAt alt k).
Proof.
  intros Halt. unfold estimateAtmosphericDecay, MU_EARTH, EARTH_RADIUS_KM.
  cbn [decayRate].
  assert (E : (if Fin alt >? 600 then Fin 1e-15
               else if Fin alt >? 400 then Fin 1e-13
               else if Fin alt >? 300 then Fin 1e-12
               else if Fin alt >? 200 then Fin 1e-11 else Fin 1e-10)
              = Fin (densityAt alt)).
  { unfold densityAt, gtb. cbn [ltb]. unfold Rltb.
    repeat destruct (Rlt_dec _ _); reflexivity. }
  rewrite E. fin_arith.
  rewrite (div_Fin 398600.4418) by lra.
  assert (Q : (0 < 398600.4418 / (6371.0 + alt))%R)
    by (apply Rdiv_lt_0_compat; lra).
  rewrite sqrt_Fin by lra. fin_arith.
  rewrite div_Fin by lra. apply Fin_eq. unfold decayRateAt.
  set (s := sqrt (398600.4418 / (6371.0 + alt))).
  assert (S : (s * s = 398600.4418 / (6371.0 + alt))%R)
    by (apply sqrt_sqrt; lra).
  rewrite <- S. field.
Qed.

Lemma decayRateAt_pos (alt k : R) :
  (-6371 < alt)%R -> (0 < k)%R -> (0 < decayRateAt alt k)%R.
Proof.
  intros Ha Hk. unfold decayRateAt. assert (D := densityAt_pos alt).
  assert (Q : (0 < 398600.4418 / (6371.0 + alt))%R)
    by (apply Rdiv_lt_0_compat; lra).
  apply Rdiv_lt_0_compat; [| lra].
  apply Rmult_lt_0_compat; [| lra].
  apply Rmult_lt_0_compat; [| exact Q].
  apply Rmult_lt_0_compat; [| exact Hk].
  apply Rmult_lt_0_compat; [lra | exact D].
Qed.

Lemma estimateAtmosphericDecay_lifetime (alt k : R) :
  (-6371 < alt)%R ->
  estimatedLifetime (estimateAtmosphericDecay (Fin alt) (Fin k)) =
    if Rlt_dec 0 (decayRateAt alt k)
    then Fin ((alt - 100) / decayRateAt alt k) else PInf.
Proof.
  intros Ha.
  pose proof (estimateAtmosphericDecay_rate alt k Ha) as E.
  unfold estimateAtmosphericDecay in *.
  cbn [decayRate estimatedLifetime] in *. rewrite E.
  unfold gtb. cbn [ltb]. unfold Rltb.
  destruct (Rlt_dec 0 (decayRateAt alt k)); [| reflexivity].
  fin_arith. rewrite div_Fin by lra. reflexivity.
Qed.

(** X23.  Above the centre of the Earth and for a positive area-to-mass
    ratio the decay rate is a positive number that does not grow with
    the perigee altitude, and the lifetime is the height above 100 km
    divided by it: it does not shrink with the altitude from 100 km
    up, and it is negative below 100 km. *)
Theorem estimateAtmosphericDecay_monotone (alt1 alt2 k : R) :
  (-6371 < alt1)%R -> (alt1 <= alt2)%R -> (0 < k)%R ->
  let d1 := estimateAtmosphericDecay (Fin alt1) (Fin k) in
  let d2 := estimateAtmosphericDecay (Fin alt2) (Fin k) in
  exists r1 r2 : R,
    decayRate d1 = Fin r1 /\ decayRate d2 = Fin r2 /\
    (0 < r2 <= r1)%R /\
    estimatedLifetime d1 = Fin ((alt1 - 100) / r1) /\
    estimatedLifetime d2 = Fin ((alt2 - 100) / r2) /\
    (100 <= alt1 -> (alt1 - 100) / r1 <= (alt2 - 100) / r2)%R /\
    (alt1 < 100 -> (alt1 - 100) / r1 < 0)%R.
Proof.
  intros H1 H12 Hk. cbv zeta.
  assert (P1 := decayRateAt_pos alt1 k H1 Hk).
  assert (P2 := decayRateAt_pos alt2 k ltac:(lra) Hk).
  rewrite !estimateAtmosphericDecay_rate, !estimateAtmosphericDecay_lifetime
    by lra.
  rewrite !Rlt_dec_true by assumption.
  assert (L : (decayRateAt alt2 k <= decayRateAt alt1 k)%R).
  { unfold decayRateAt.
    assert (D := densityAt_antitone alt1 alt2 H12).
    assert (D2 := densityAt_pos alt2).
    assert (Q : (398600.4418 / (6371.0 + alt2)
                 <= 398600.4418 / (6371.0 + alt1))%R).
    { unfold Rdiv. apply Rmult_le_compat_l; [lra |].
      apply Rinv_le_contravar; lra. }
    assert (Q2 : (0 < 398600.4418 / (6371.0 + alt2))%R)
      by (apply Rdiv_lt_0_compat; lra).
    apply Rmult_le_compat_r; [lra |].
    apply Rmult_le_compat_r; [lra |].
    assert (A : (0.5 * 2.2 * densityAt alt2 * k
                 <= 0.5 * 2.2 * densityAt alt1 * k)%R) by nra.
    assert (0 <= 0.5 * 2.2 * densityAt alt2 * k)%R by nra.
    apply Rmult_le_compat; lra. }
  set (r1 := decayRateAt alt1 k) in *. set (r2 := decayRateAt alt2 k) in *.
  exists r1, r2.
  repeat split; try reflexivity; try lra.
  - intros Hh.
    assert (I1 : (0 < / r1)%R) by (apply Rinv_0_lt_compat; exact P1).
    assert (I2 : (/ r1 <= / r2)%R) by (apply Rinv_le_contravar; lra).
    unfold Rdiv. apply Rmult_le_compat; lra.
  - intros Hl. unfold Rdiv.
    assert (I1 : (0 < / r1)%R) by (apply Rinv_0_lt_compat; exact P1).
    nra.
Qed.

Lemma estimateAtmosphericDecay_monotone_witness :
  let d1 := estimateAtmosphericDecay (Fin 300) (Fin 0.02) in
  let d2 := estimateAtmosphericDecay (Fin 500) (Fin 0.02) in
  exists r1 r2 : R,
    decayRate d1 = Fin r1 /\ decayRate d2 = Fin r2 /\
    (0 < r2 <= r1)%R /\
    estimatedLifetime d1 = Fin ((300 - 100) / r1) /\
    estimatedLifetime d2 = Fin ((500 - 100) / r2) /\
    (100 <= 300 -> (300 - 100) / r1 <= (500 - 100) / r2)%R /\
    (300 < 100 -> (300 - 100) / r1 < 0)%R.
Proof.
  apply (estimateAtmosphericDecay_monotone 300 500 0.02); lra.
Defined.

(** Without drag area (an area-to-mass ratio of zero or below) the
    lifetime is [Infinity]. *)
Theorem estimateAtmosphericDecay_no_drag (alt k : R) :
  (-6371 < alt)%R -> (k <= 0)%R ->
  estimatedLifetime (estimateAtmosphericDecay (Fin alt) (Fin k)) = PInf.
Proof.
  intros Ha Hk. rewrite estimateAtmosphericDecay_lifetime by exact Ha.
  apply Rlt_dec_false.
  unfold decayRateAt. assert (D := densityAt_pos alt).
  assert (Q : (0 < 398600.4418 / (6371.0 + alt))%R)
    by (apply Rdiv_lt_0_compat; lra).
  assert (A : (0.5 * 2.2 * densityAt alt * k <= 0)%R) by nra.
  assert (B : (0.5 * 2.2 * densityAt alt * k
               * (398600.4418 / (6371.0 + alt)) <= 0)%R) by nra.
  lra.
Qed.

Lemma estimateAtmosphericDecay_no_drag_witness :
  estimatedLifetime (estimateAtmosphericDecay (Fin 400) (Fin 0)) = PInf.
Proof.
  apply (estimateAtmosphericDecay_no_drag 400 0); lra.
Defined.

Section Rotation.

Variables cO sO ci si cw sw : R.
Hypothesis unit_O : (cO * cO + sO * sO = 1)%R.
Hypothesis unit_i : (ci * ci + si * si = 1)%R.
Hypothesis unit_w : (cw * cw + sw * sw = 1)%R.

Local Abbreviation rx X Y :=
  ((cO * cw - sO * sw * ci) * X + (- cO * sw - sO * cw * ci) * Y)%R.
Local Abbreviation ry X Y :=
  ((sO * cw + cO * sw * ci) * X + (- sO * sw + cO * cw * ci) * Y)%R.
Local Abbreviation rz X Y := (sw * si * X + cw * si * Y)%R.

(** The rotation to the inertial frame keeps the scalar product. *)
Lemma rotation_dot (X Y U V : R) :
  (rx X Y * rx U V + ry X Y * ry U V + rz X Y * rz U V = X * U + Y * V)%R.
Proof.
  assert (HO : (cO * cO + sO * sO - 1 = 0)%R) by lra.
  assert (Hi : (ci * ci + si * si - 1 = 0)%R) by lra.
  assert (Hw : (cw * cw + sw * sw - 1 = 0)%R) by lra.
  apply Rminus_diag_uniq.
  replace (rx X Y * rx U V + ry X Y * ry U V + rz X Y * rz U V
           - (X * U + Y * V))%R
    with (X * U * ((cw * cw + sw * sw * (ci * ci)) * (cO * cO + sO * sO - 1)
                   + sw * sw * (ci * ci + si * si - 1)
                   + (cw * cw + sw * sw - 1))
          + Y * V * ((sw * sw + cw * cw * (ci * ci)) * (cO * cO + sO * sO - 1)
                     + cw * cw * (ci * ci + si * si - 1)
                     + (cw * cw + sw * sw - 1))
          + (X * V + Y * U)
            * (sw * cw * ((ci * ci - 1) * (cO * cO + sO * sO - 1)
                          + (ci * ci + si * si - 1))))%R
    by ring.
  rewrite HO, Hi, Hw. ring.
Qed.

End Rotation.

Lemma sin_Fin (x : R) : Math_sin (Fin x) = Fin (sin x).
Proof. reflexivity. Qed.

Lemma cos_Fin (x : R) : Math_cos (Fin x) = Fin (cos x).
Proof. reflexivity. Qed.

Lemma atan2_Fin (y x : R) : Math_atan2 (Fin y) (Fin x) = Fin (atan2 y x).
Proof. reflexivity. Qed.

Lemma keplerIterations_value (e M : R) :
  keplerIterations (Fin e) (Fin M) = Fin (keplerAnomaly e M).
Proof.
  unfold keplerIterations, keplerAnomaly.
  generalize 10%nat. intros n. induction n as [| n IH].
  - reflexivity.
  - rewrite !Nat.iter_succ, IH, sin_Fin. fin_arith. reflexivity.
Qed.

Lemma unit_circle (x : R) : (cos x * cos x + sin x * sin x = 1)%R.
Proof. pose proof (sin2_cos2 x) as H. unfold Rsqr in H. lra. Qed.

(** X24.  The state vectors of an orbit with a positive semi-major axis and
    an eccentricity in [0, 1): the position lies at the distance
    [a (1 - e cos E)] from the centre, [E] being the tenth iterate of
    Kepler's equation.  For a circular orbit the speed is the circular
    one and [stateVectorsToOrbitalElements] gives back the semi-major
    axis and the eccentricity 0, with perigee and apogee altitude both
    [a - 6371]. *)
Theorem orbitalElementsToStateVectors_position (a e i omega Omega M : R) :
  (0 < a)%R -> (0 <= e < 1)%R ->
  let sv :=
    orbitalElementsToStateVectors
      {| kep_a := Fin a; kep_e := Fin e; kep_i := Fin i;
         kep_omega := Fin omega; kep_Omega := Fin Omega; kep_M := Fin M |} in
  exists x y z vx vy vz : R,
    position sv = (Fin x, Fin y, Fin z) /\
    velocity sv = (Fin vx, Fin vy, Fin vz) /\
    sqrt (x * x + y * y + z * z) = (a * (1 - e * cos (keplerAnomaly e M)))%R /\
    (e = 0%R ->
     let el := stateVectorsToOrbitalElements (position sv) (velocity sv) in
     (vx * vx + vy * vy + vz * vz = 398600.4418 / a)%R /\
     el_a el = Fin a /\ el_e el = Fin 0 /\
     el_perigeeAlt el = Fin (a - 6371.0) /\
     el_apogeeAlt el = Fin (a - 6371.0)).
Proof.
  intros Ha He. cbv zeta.
  set (mu := 398600.4418%R).
  assert (Hmu : (0 < mu)%R) by (unfold mu; lra).
  unfold orbitalElementsToStateVectors, MU_EARTH.
  cbn [kep_a kep_e kep_i kep_omega kep_Omega kep_M].
  rewrite keplerIterations_value.
  set (Ev := keplerAnomaly e M).
  rewrite (div_Fin Ev 2) by lra.
  rewrite !sin_Fin, !cos_Fin. fin_arith.
  rewrite !(sqrt_Fin (1 + e)), !(sqrt_Fin (1 - e)) by lra. fin_arith.
  rewrite !atan2_Fin. fin_arith. fold (trueAnomaly e Ev).
  set (nu := trueAnomaly e Ev).
  rewrite !sin_Fin, !cos_Fin. fin_arith.
  fold mu.
  set (p := (a * (1 - e * e))%R).
  assert (Hp : (0 < p)%R).
  { unfold p. apply Rmult_lt_0_compat; [exact Ha |].
    assert (e * e < 1)%R by nra. lra. }
  assert (Hmp : (0 < mu * p)%R) by (apply Rmult_lt_0_compat; lra).
  rewrite !(sqrt_Fin (mu * p)) by lra.
  set (h := sqrt (mu * p)).
  assert (Hh : (0 < h)%R) by (apply sqrt_lt_R0; lra).
  assert (Hhh : (h * h = mu * p)%R) by (apply sqrt_sqrt; lra).
  rewrite !(div_Fin mu h) by lra. fin_arith.
  set (r := (a * (1 - e * cos Ev))%R).
  assert (Hr : (0 < r)%R).
  { unfold r. apply Rmult_lt_0_compat; [exact Ha |].
    pose proof (COS_bound Ev) as [_ C]. nra. }
  cbn [position velocity].
  do 6 eexists. split; [reflexivity |]. split; [reflexivity |].
  assert (UO := unit_circle Omega). assert (Ui := unit_circle i).
  assert (Uw := unit_circle omega). assert (Un := unit_circle nu).
  split.
  - rewrite (rotation_dot (cos Omega) (sin Omega) (cos i) (sin i)
               (cos omega) (sin omega) UO Ui Uw
               (r * cos nu) (r * sin nu) (r * cos nu) (r * sin nu)).
    replace (r * cos nu * (r * cos nu) + r * sin nu * (r * sin nu))%R
      with (r * r * (cos nu * cos nu + sin nu * sin nu))%R by ring.
    rewrite Un, Rmult_1_r. apply sqrt_square. lra.
  - intros E0. cbv zeta.
    set (X := (r * cos nu)%R). set (Y := (r * sin nu)%R).
    set (U := (- (mu / h) * sin nu)%R).
    set (V := (mu / h * (e + cos nu))%R).
    pose proof (rotation_dot (cos Omega) (sin Omega) (cos i) (sin i)
                  (cos omega) (sin omega) UO Ui Uw) as Rot.
    assert (Er : r = a) by (unfold r; rewrite E0; ring).
    assert (Ep : p = a) by (unfold p; rewrite E0; ring).
    assert (Hs2 : (U * U + V * V = mu / a)%R).
    { unfold U, V. rewrite E0.
      replace (- (mu / h) * sin nu * (- (mu / h) * sin nu)
               + mu / h * (0 + cos nu) * (mu / h * (0 + cos nu)))%R
        with (mu * mu / (h * h) * (cos nu * cos nu + sin nu * sin nu))%R
        by (field; lra).
      rewrite Un, Hhh, Ep. field. lra. }
    assert (Hdot : (X * U + Y * V = 0)%R).
    { unfold X, Y, U, V. rewrite E0. ring. }
    assert (Hnorm : (X * X + Y * Y = a * a)%R).
    { unfold X, Y.
      replace (r * cos nu * (r * cos nu) + r * sin nu * (r * sin nu))%R
        with (r * r * (cos nu * cos nu + sin nu * sin nu))%R by ring.
      rewrite Un, Er. ring. }
    match goal with
    | |- context [stateVectorsToOrbitalElements
                    (Fin ?x, Fin ?y, Fin ?z) (Fin ?vx, Fin ?vy, Fin ?vz)] =>
        pose proof (stateVectorsToOrbitalElements_apsis x y z vx vy vz) as K;
        cbv zeta in K;
        rewrite (Rot X Y X Y), (Rot X Y U V), (Rot U V U V) in K;
        rewrite (Rot U V U V)
    end.
    rewrite Hnorm, Hs2, Hdot in K.
    replace (sqrt (a * a)) with a in K by (symmetry; apply sqrt_square; lra).
    fold mu in K.
    destruct K as (A & Ec & G & P); [nra | reflexivity | |].
    { replace (a * (mu / a))%R with mu by (field; lra). lra. }
    split; [exact Hs2 |].
    rewrite A, Ec, G, P.
    repeat split; apply Fin_eq; field; lra.
Qed.

Lemma orbitalElementsToStateVectors_position_witness :
  let sv :=
    orbitalElementsToStateVectors
      {| kep_a := Fin 7000; kep_e := Fin 0; kep_i := Fin 1;
         kep_omega := Fin 0; kep_Omega := Fin 2; kep_M := Fin 3 |} in
  exists x y z vx vy vz : R,
    position sv = (Fin x, Fin y, Fin z) /\
    velocity sv = (Fin vx, Fin vy, Fin vz) /\
    sqrt (x * x + y * y + z * z) = (7000 * (1 - 0 * cos (keplerAnomaly 0 3)))%R /\
    (0%R = 0%R ->
     let el := stateVectorsToOrbitalElements (position sv) (velocity sv) in
     (vx * vx + vy * vy + vz * vz = 398600.4418 / 7000)%R /\
     el_a el = Fin 7000 /\ el_e el = Fin 0 /\
     el_perigeeAlt el = Fin (7000 - 6371.0) /\
     el_apogeeAlt el = Fin (7000 - 6371.0)).
Proof.
  apply (orbitalElementsToStateVectors_position 7000 0 1 0 2 3); lra.
Defined.

End OrbitalMechanicsFacts.

(* ================================================================= *)
(** ** Visibility windows: soundness, order, all stations *)

Module VisibilityMore.
Import Visibility VisibilitySpec JSArray.
Local Open Scope num_scope.
Local Open Scope Z_scope.

Lemma ltb_irrefl (a : num) : ltb a a = false.
Proof.
  destruct a as [x | | |]; cbn; try reflexivity.
  apply Rltb_false. lra.
Qed.

Lemma ltb_trans (a b c : num) :
  ltb a b = true -> ltb b c = true -> ltb a c = true.
Proof.
  destruct a as [x | | |], b as [y | | |], c as [z | | |]; cbn;
    intros H1 H2; try reflexivity; try discriminate.
  apply Rltb_spec in H1, H2. apply Rltb_true. lra.
Qed.

Lemma StronglySorted_snoc {A : Type} (R : A -> A -> Prop) (l : list A) (x : A) :
  StronglySorted R l -> Forall (fun y => R y x) l ->
  StronglySorted R (l ++ [x]).
Proof.
  induction 1 as [| y l Hl IH Hy]; intros Hx; cbn.
  - constructor; constructor.
  - inversion Hx as [| ? ? Hyx Hlx]; subst.
    constructor; [apply IH; exact Hlx |].
    apply Forall_app. split; [exact Hy |].
    constructor; [exact Hyx | constructor].
Qed.

Section Scan.

Variable elevationAt : Date -> num.
Variable azimuthAt : Date -> num.
Variable minElevation : num.
Variables lo hi : Date.

Local Abbreviation step := (scanStep elevationAt azimuthAt minElevation).
Local Abbreviation loop := (scanLoop elevationAt azimuthAt).
Local Abbreviation sound := (scan_sound elevationAt azimuthAt minElevation lo hi).

Lemma scan_sound_init (t : Date) : sound t (mkScanState false None []).
Proof.
  unfold scan_sound. cbn.
  split; [split; [discriminate | intros H; contradiction H; reflexivity] |].
  split; [constructor |]. split; [constructor |]. split; [constructor |].
  discriminate.
Qed.

Lemma Forall_endTime_weaken (t t' : Date) (l : list Pass) :
  t <= t' -> Forall (fun p => endTime p < t) l ->
  Forall (fun p => endTime p < t') l.
Proof.
  intros H. apply Forall_impl. intros p Hp. lia.
Qed.

Lemma scanStep_sound (t : Date) (st : ScanState) :
  lo <= t -> t < hi -> sound t st -> sound (addMinutes t 1) (step st t).
Proof.
  intros Hlo Hhi (Hact & Hsorted & Hsound & Hended & Hopen).
  destruct st as [act cp ps].
  unfold scanStep, addMinutes, scan_sound.
  cbn [isPassActive currentPass passes] in *.
  assert (Hended' : Forall (fun p => endTime p < t + 1 * 60000) ps)
    by (apply Forall_endTime_weaken with t; [lia | exact Hended]).
  destruct act, cp as [c |];
    try (exfalso; destruct Hact as [H1 H2];
         first [ apply (H1 eq_refl); reflexivity
               | assert (F : false = true) by (apply H2; discriminate);
                 discriminate F ]).
  - (* a pass is being tracked *)
    destruct (Hopen c eq_refl) as (n & Hn & Ht & Hstart & Habove & Hmax & Haz & Hbefore).
    destruct (elevationAt t >? minElevation)%num eqn:Above; cbn [negb].
    + assert (Habove' : samples_above elevationAt minElevation (open_startTime c) (n + 1)).
      { intros k Hk. destruct (Z.eq_dec k n) as [-> | Hne].
        - rewrite <- Ht. exact Above.
        - apply Habove. lia. }
      destruct (elevationAt t >? open_maxElevation c)%num eqn:Higher;
        cbn [isPassActive currentPass passes];
        (split; [split; [discriminate | reflexivity] |]);
        (split; [exact Hsorted |]); (split; [exact Hsound |]);
        (split; [exact Hended' |]);
        intros q [= <-]; cbn [open_startTime open_maxElevation open_azimuthStart];
        exists (n + 1);
        (split; [lia |]); (split; [unfold stepMs in *; lia |]);
        (split; [exact Hstart |]); (split; [exact Habove' |]);
        (split; [| split; [exact Haz | exact Hbefore]]).
      * split.
        -- exists n. split; [lia |]. rewrite <- Ht. reflexivity.
        -- intros k Hk. destruct (Z.eq_dec k n) as [-> | Hne].
           ++ rewrite <- Ht. apply ltb_irrefl.
           ++ destruct Hmax as [_ Hmax].
              specialize (Hmax k ltac:(lia)).
              unfold gtb in *.
              destruct (ltb (elevationAt t) (elevationAt (open_startTime c + k * stepMs))) eqn:L;
                [| reflexivity].
              rewrite (ltb_trans _ _ _ Higher L) in Hmax. discriminate Hmax.
      * destruct Hmax as [(j & Hj & Ej) Hmax]. split.
        -- exists j. split; [lia | exact Ej].
        -- intros k Hk. destruct (Z.eq_dec k n) as [-> | Hne].
           ++ rewrite <- Ht. exact Higher.
           ++ apply Hmax. lia.
    + cbn [isPassActive currentPass passes].
      split; [split; [discriminate | intros H; contradiction H; reflexivity] |].
      subst t.
      rewrite VisibilityFacts.duration_of_steps,
        VisibilityFacts.steps_exceed_30 by exact Hn.
      split; [apply StronglySorted_snoc; [exact Hsorted | exact Hbefore] |].
      split.
      { apply Forall_app. split; [exact Hsound |].
        constructor; [| constructor].
        exists n. cbn [startTime endTime maxElevation azimuthStart duration].
        split; [repeat split; try assumption; reflexivity |].
        split; [exact Hstart |]. split; [exact Hhi |].
        split; [exact Habove |]. split; [exact Above |].
        split; [exact Hmax | exact Haz]. }
      split; [| discriminate].
      apply Forall_app. split; [exact Hended' |].
      constructor; [cbn; lia | constructor].
  - (* no pass is being tracked *)
    destruct (elevationAt t >? minElevation)%num eqn:Above; cbn [negb];
      cbn [isPassActive currentPass passes].
    + split; [split; [discriminate | reflexivity] |].
      split; [exact Hsorted |]. split; [exact Hsound |].
      split; [exact Hended' |].
      intros q [= <-]; cbn [open_startTime open_maxElevation open_azimuthStart].
      exists 1.
      split; [lia |]. split; [unfold stepMs; lia |]. split; [exact Hlo |].
      split; [| split; [| split; [reflexivity | exact Hended]]].
      * intros k Hk. replace k with 0 by lia.
        replace (t + 0 * stepMs) with t by lia. exact Above.
      * split.
        -- exists 0. split; [lia |]. f_equal. lia.
        -- intros k Hk. replace k with 0 by lia.
           replace (t + 0 * stepMs) with t by lia. apply ltb_irrefl.
    + split; [exact Hact |]. split; [exact Hsorted |]. split; [exact Hsound |].
      split; [exact Hended' |]. discriminate.
Qed.

Lemma scanLoop_sound (fuel : nat) :
  forall (t : Date) (st : ScanState),
    lo <= t -> sound t st ->
    exists t', sound t' (loop fuel minElevation hi t st).
Proof.
  induction fuel as [| fuel IH]; intros t st Hlo Hinv; cbn [scanLoop].
  - exists t. exact Hinv.
  - destruct (t <? hi) eqn:L.
    + apply Z.ltb_lt in L.
      apply IH with (t := addMinutes t 1); [unfold addMinutes; lia |].
      apply scanStep_sound; assumption.
    + exists t. exact Hinv.
Qed.

End Scan.

Lemma windows_sound
    (elevationAt azimuthAt : Date -> num) (startDate : Date)
    (daysToPredict : Z) (minElevation : num) :
  let windows :=
    calculateVisibilityWindows elevationAt azimuthAt startDate daysToPredict
      minElevation in
  StronglySorted apart windows /\
  Forall (sound_pass elevationAt azimuthAt minElevation startDate
            (addDays startDate daysToPredict)) windows.
Proof.
  cbv zeta. unfold calculateVisibilityWindows.
  destruct (scanLoop_sound elevationAt azimuthAt minElevation startDate
              (addDays startDate daysToPredict)
              (iterations startDate (addDays startDate daysToPredict))
              startDate (mkScanState false None []))
    as (t' & _ & Hsorted & Hsound & _).
  - lia.
  - apply scan_sound_init.
  - split; assumption.
Qed.

(** X25.  Every window [calculateVisibilityWindows] returns is a real one: it
    starts at a sample not before the call, every sample up to its end
    is above the threshold and the sample at its end, before the end of
    the prediction, is not; it carries the highest elevation of its
    samples and the azimuth at its start; and the windows are in
    chronological order, each ended before the next starts. *)
Theorem calculateVisibilityWindows_sound
    (elevationAt azimuthAt : Date -> num) (startDate : Date)
    (daysToPredict : Z) (minElevation : num) :
  let windows :=
    calculateVisibilityWindows elevationAt azimuthAt startDate daysToPredict
      minElevation in
  StronglySorted apart windows /\
  Forall (sound_pass elevationAt azimuthAt minElevation startDate
            (addDays startDate daysToPredict)) windows.
Proof.
  apply windows_sound.
Qed.

Section Sorting.

Variable A : Type.
Variable key : A -> Z.

Local Abbreviation le_key := (fun a b : A => key a <= key b).

Lemma insertBy_perm (x : A) (l : list A) :
  Permutation (insertBy key x l) (x :: l).
Proof.
  induction l as [| y l IH]; cbn; [reflexivity |].
  destruct (key x <? key y); [reflexivity |].
  rewrite IH. apply perm_swap.
Qed.

Lemma insertBy_sorted (x : A) (l : list A) :
  StronglySorted le_key l -> StronglySorted le_key (insertBy key x l).
Proof.
  induction 1 as [| y l Hl IH Hy]; cbn.
  - constructor; constructor.
  - destruct (key x <? key y) eqn:L.
    + apply Z.ltb_lt in L.
      constructor; [constructor; assumption |].
      constructor; [lia |].
      revert Hy. apply Forall_impl. intros z Hz. lia.
    + apply Z.ltb_ge in L.
      constructor; [exact IH |].
      apply (Permutation_Forall (x := x :: l)).
      * symmetry. apply insertBy_perm.
      * constructor; [exact L | exact Hy].
Qed.

(** An element that is not smaller than any goes to the end. *)
Lemma insertBy_last (x : A) (l : list A) :
  Forall (fun y => key y <= key x) l -> insertBy key x l = l ++ [x].
Proof.
  induction 1 as [| y l Hy Hl IH]; cbn; [reflexivity |].
  replace (key x <? key y) with false by (symmetry; apply Z.ltb_ge; exact Hy).
  rewrite IH. reflexivity.
Qed.

Lemma sortBy_from (l acc : list A) :
  StronglySorted le_key acc ->
  StronglySorted le_key (fold_left (fun acc x => insertBy key x acc) l acc) /\
  Permutation (fold_left (fun acc x => insertBy key x acc) l acc) (acc ++ l).
Proof.
  revert acc. induction l as [| x l IH]; intros acc Hacc; cbn.
  - rewrite app_nil_r. split; [exact Hacc | reflexivity].
  - destruct (IH (insertBy key x acc)) as [S P];
      [apply insertBy_sorted; exact Hacc |].
    split; [exact S |].
    rewrite P, insertBy_perm. cbn.
    apply Permutation_middle.
Qed.

Lemma sortBy_sorted_perm (l : list A) :
  StronglySorted le_key (sortBy key l) /\ Permutation (sortBy key l) l.
Proof.
  unfold sortBy. apply (sortBy_from l []). constructor.
Qed.

Lemma sortBy_already_from (l acc : list A) :
  StronglySorted le_key (acc ++ l) ->
  fold_left (fun acc x => insertBy key x acc) l acc = acc ++ l.
Proof.
  revert acc. induction l as [| x l IH]; intros acc H; cbn.
  - rewrite app_nil_r. reflexivity.
  - assert (Hx : Forall (fun y => key y <= key x) acc).
    { clear IH. induction acc as [| y acc IHa]; [constructor |].
      cbn in H. inversion H as [| ? ? Hs Hf]; subst.
      constructor.
      - rewrite Forall_app in Hf. destruct Hf as [_ Hf].
        inversion Hf; assumption.
      - apply IHa. exact Hs. }
    rewrite (insertBy_last x acc Hx).
    rewrite IH; rewrite <- app_assoc; [reflexivity | exact H].
Qed.

(** A list that is in order already is left as it is. *)
Lemma sortBy_already (l : list A) :
  StronglySorted le_key l -> sortBy key l = l.
Proof.
  intros H. unfold sortBy. apply (sortBy_already_from l []). exact H.
Qed.

End Sorting.

Lemma sound_pass_starts_before_end elevationAt azimuthAt minElevation lo hi p :
  sound_pass elevationAt azimuthAt minElevation lo hi p ->
  startTime p < endTime p.
Proof.
  intros (n & (Hn & He & _) & _). rewrite He. unfold stepMs. lia.
Qed.

Lemma windows_in_order (l : list Pass) :
  StronglySorted apart l ->
  Forall (fun p => startTime p < endTime p) l ->
  StronglySorted (fun p q => startTime p <= startTime q) l.
Proof.
  induction 1 as [| p l Hl IH Hp]; intros Hw; [constructor |].
  inversion Hw as [| ? ? Hp0 Hw']; subst.
  constructor; [apply IH; exact Hw' |].
  revert Hp. apply Forall_impl. intros q Hq. unfold apart in Hq. lia.
Qed.

(** X26.  [getAllPasses] returns the windows of all stations, each a real
    window of one of them over 30 days above 20 degrees, in the order
    of their start times; for a single station these are its windows
    as computed. *)
Theorem getAllPasses_sorted (stations : list Station) :
  let windows (s : Station) :=
    calculateVisibilityWindows (elevationFrom s) (azimuthFrom s)
      (callTime s) 30 (Fin 20%R) in
  StronglySorted (fun p q => startTime p <= startTime q)
    (getAllPasses stations) /\
  Permutation (getAllPasses stations) (flat_map windows stations) /\
  Forall (station_pass stations 30 (Fin 20%R)) (getAllPasses stations) /\
  (forall s, getAllPasses [s] = windows s).
Proof.
  cbv zeta. unfold getAllPasses.
  match goal with
  | |- context [sortBy startTime ?l] =>
      destruct (sortBy_sorted_perm Pass startTime l) as [S P]
  end.
  split; [exact S |]. split; [exact P |]. split.
  - apply (Permutation_Forall (x := flat_map
             (fun s => calculateVisibilityWindows (elevationFrom s)
                         (azimuthFrom s) (callTime s) 30 (Fin 20%R)) stations));
      [symmetry; exact P |].
    apply Forall_forall. intros p Hp.
    apply in_flat_map in Hp. destruct Hp as (s & Hs & Hp).
    exists s. split; [exact Hs |].
    destruct (windows_sound (elevationFrom s)
                (azimuthFrom s) (callTime s) 30 (Fin 20%R)) as [_ F].
    rewrite Forall_forall in F. apply F. exact Hp.
  - intros s. cbn [flat_map]. rewrite app_nil_r.
    apply sortBy_already.
    destruct (windows_sound (elevationFrom s)
                (azimuthFrom s) (callTime s) 30 (Fin 20%R)) as [Hs F].
    apply windows_in_order; [exact Hs |].
    revert F. apply Forall_impl. intros p.
    apply sound_pass_starts_before_end.
Qed.

Lemma Int_part_bounds (x : R) (n : Z) :
  (IZR n <= x < IZR n + 1)%R -> Int_part x = n.
Proof.
  intros H. symmetry. apply Int_part_spec. lra.
Qed.

Lemma Int_part_lower (x : R) (n : Z) : (IZR n <= x)%R -> (n <= Int_part x)%Z.
Proof.
  intros H. destruct (base_Int_part x) as [_ U].
  assert (L : (IZR n < IZR (Int_part x) + 1)%R) by lra.
  rewrite <- plus_IZR in L. apply lt_IZR in L. lia.
Qed.

Lemma calculatePassesPerDay_value (lat inc : R) :
  calculatePassesPerDay (Fin lat) (Fin inc) =
    if Rlt_dec (Rabs inc + 10) (Rabs lat) then Fin 0
    else Fin (IZR (Int_part (2 * (1 + Rabs (Rabs lat - Rabs inc) / 90)))).
Proof.
  unfold calculatePassesPerDay. cbn [Math_abs]. fin_arith.
  unfold gtb. cbn [ltb]. unfold Rltb.
  destruct (Rlt_dec (Rabs inc + 10) (Rabs lat)); [reflexivity |].
  cbn [Math_abs]. rewrite div_Fin by lra. fin_arith. reflexivity.
Qed.

(** X27.  The estimate of the passes per day is a whole number that is 0
    outside the band ([|lat| > |inc| + 10]) and at least 2 inside, never
    1; inside the band it is 2 exactly when the two latitudes differ by
    less than 45 degrees and it grows with their distance; and it
    depends on the absolute values only. *)
Theorem calculatePassesPerDay_spec (lat inc : R) :
  let d := Rabs (Rabs lat - Rabs inc) in
  exists n : Z,
    calculatePassesPerDay (Fin lat) (Fin inc) = Fin (IZR n) /\
    (n = 0 \/ 2 <= n)%Z /\
    (n = 0%Z <-> (Rabs inc + 10 < Rabs lat)%R) /\
    (n = 2%Z <-> (Rabs lat <= Rabs inc + 10 /\ d < 45)%R) /\
    (IZR n <= 2 + d / 45)%R /\
    calculatePassesPerDay (Fin (- lat)) (Fin inc) = Fin (IZR n) /\
    calculatePassesPerDay (Fin lat) (Fin (- inc)) = Fin (IZR n).
Proof.
  intros d.
  rewrite !calculatePassesPerDay_value, !Rabs_Ropp. fold d.
  assert (Hd : (0 <= d)%R) by apply Rabs_pos.
  clearbody d.
  destruct (Rlt_dec (Rabs inc + 10) (Rabs lat)) as [Out | In].
  - exists 0%Z. repeat split; try reflexivity; try lra; try lia;
      try (intros; lra).
  - set (x := (2 * (1 + d / 90))%R).
    assert (Hx : (2 <= x)%R).
    { unfold x. assert (0 <= d / 90)%R by (apply Rmult_le_pos; lra). lra. }
    assert (Hn : (2 <= Int_part x)%Z) by (apply Int_part_lower; exact Hx).
    destruct (base_Int_part x) as [Lo Up].
    exists (Int_part x). repeat split; try reflexivity; try lra.
    + right; exact Hn.
    + intros E. lia.
    + match goal with H : Int_part x = 2%Z |- _ => rewrite H in Up end.
      unfold x in Up. lra.
    + intros [_ D]. apply Int_part_bounds. unfold x. lra.
    + assert (x = 2 + d / 45)%R by (unfold x; lra). lra.
Qed.

End VisibilityMore.

(* ================================================================= *)
(** ** The mission planner of the front end *)

Module MissionPlannerFacts.
Import OrbitalMechanics OrbitSpec Visibility VisibilitySpec JSArray.
Import CampaignSpec MissionPlanner MissionSpec.
Local Open Scope num_scope.

Lemma PI_gt_3 : (3 < PI)%R.
Proof. assert (H := PI2_3_2). unfold PI2 in H. lra. Qed.

(** X28.  With a pulse of at most 1.7 MJ (the built-in pulse has 100 kJ) the
    fluence of the front end stays below 10 J/cm^2 at every distance,
    so the velocity change per pulse is [5e-6 E / m] whatever the
    distance. *)
Theorem calculateLaserDeltaV_low_fluence (E m d : R) :
  (0 <= E <= 1.7e6)%R -> m <> 0%R -> (0 <= d)%R ->
  calculateLaserDeltaV (Fin E) (Fin m) (Fin d) = Fin (5e-6 * E / m).
Proof.
  intros HE Hm Hd. assert (Hpi := PI_gt_3).
  unfold calculateLaserDeltaV, LASER_PARAMS.BEAM_QUALITY,
    LASER_PARAMS.WAVELENGTH, LASER_PARAMS.TRANSMITTER_DIAMETER, Math_PI.
  rewrite !(div_Fin 4.0 2) by lra. fin_arith.
  rewrite (div_Fin _ (PI * (4.0 / 2))) by lra. fin_arith.
  set (theta := (1.2 * 1030e-9 / (PI * (4.0 / 2)))%R).
  assert (Ht : (0 < theta)%R).
  { unfold theta. apply Rdiv_lt_0_compat; lra. }
  set (b := (4.0 / 2 + d * theta)%R).
  assert (Hb : (2 <= b)%R).
  { unfold b. assert (0 <= d * theta)%R by (apply Rmult_le_pos; lra). lra. }
  assert (Harea : (12 < PI * b * b)%R).
  { assert (4 <= b * b)%R by nra. nra. }
  rewrite (div_Fin _ (PI * b * b)) by lra.
  rewrite (div_Fin _ 10000) by lra.
  assert (Hf : (E * 0.7 / (PI * b * b) / 10000 < 10)%R).
  { assert (I : (0 < / (PI * b * b) < / 12)%R).
    { split; [apply Rinv_0_lt_compat; lra |].
      apply Rinv_lt_contravar; [nra | lra]. }
    unfold Rdiv.
    assert (E * 0.7 * / (PI * b * b) <= 1.7e6 * 0.7 * / 12)%R.
    { apply Rmult_le_compat; try lra. }
    lra. }
  cbn [ltb]. rewrite Rltb_true by exact Hf.
  fin_arith. rewrite div_Fin by exact Hm. reflexivity.
Qed.

Lemma calculateLaserDeltaV_low_fluence_witness :
  calculateLaserDeltaV (Fin 100e3) (Fin 15) (Fin 6851000)
    = Fin (5e-6 * 100e3 / 15).
Proof.
  apply (calculateLaserDeltaV_low_fluence 100e3 15 6851000); lra.
Defined.



Lemma mapIndexed_length {A B : Type} (f : A -> nat -> B) (l : list A) :
  forall i, length (mapIndexed f l i) = length l.
Proof.
  induction l as [| x l IH]; intros i; cbn; [reflexivity |].
  rewrite IH. reflexivity.
Qed.

Lemma mapIndexed_nth {A B : Type} (f : A -> nat -> B) (l : list A) :
  forall i k y,
    nth_error (mapIndexed f l i) k = Some y ->
    exists x, nth_error l k = Some x /\ y = f x (i + k)%nat.
Proof.
  induction l as [| x l IH]; intros i k y H.
  - destruct k; discriminate H.
  - destruct k as [| k]; cbn in H.
    + injection H as <-. exists x. split; [reflexivity |].
      rewrite Nat.add_0_r. reflexivity.
    + destruct (IH (S i) k y H) as (x' & Hx & ->).
      exists x'. split; [exact Hx |]. f_equal. lia.
Qed.

Lemma find_first {A : Type} (f : A -> bool) (l : list A) :
  match find f l with
  | Some e =>
      exists j, nth_error l j = Some e /\ f e = true /\
                Forall (fun x => f x = false) (firstn j l)
  | None => Forall (fun x => f x = false) l
  end.
Proof.
  induction l as [| x l IH]; cbn; [constructor |].
  destruct (f x) eqn:Fx.
  - exists 0%nat. repeat split; [exact Fx | constructor].
  - destruct (find f l) as [e |].
    + destruct IH as (j & Hj & He & Hb).
      exists (S j). cbn. repeat split; try assumption.
      constructor; assumption.
    + constructor; assumption.
Qed.

Lemma passEntries_passNumber ra dvs :
  forall index a k e,
    nth_error (passEntries ra index a dvs) k = Some e ->
    passNumber e = (index + k + 1)%nat.
Proof.
  induction dvs as [| dv dvs IH]; intros index a k e H; cbn in H.
  - destruct k; discriminate H.
  - destruct k as [| k]; cbn in H.
    + injection H as <-. cbn. lia.
    + rewrite (IH _ _ _ _ H). lia.
Qed.

Lemma trackPerigeeEvolution_passNumber p q dvs k e :
  nth_error (trackPerigeeEvolution p q dvs) k = Some e -> passNumber e = k.
Proof.
  rewrite PerigeeFacts.trackPerigeeEvolution_unfold. cbv zeta.
  destruct k as [| k]; cbn [nth_error].
  - intros [= <-]. reflexivity.
  - intros H. rewrite (passEntries_passNumber _ _ _ _ _ _ H). lia.
Qed.

Lemma trackPerigeeEvolution_length p q dvs :
  length (trackPerigeeEvolution p q dvs) = S (length dvs).
Proof.
  rewrite PerigeeFacts.trackPerigeeEvolution_unfold. cbv zeta. cbn.
  rewrite PerigeeFacts.passEntries_length. reflexivity.
Qed.

Lemma trackPerigeeEvolution_first p q dvs :
  exists e, nth_error (trackPerigeeEvolution p q dvs) 0 = Some e /\
            perigeeAlt e = p.
Proof.
  rewrite PerigeeFacts.trackPerigeeEvolution_unfold. cbv zeta.
  eexists. split; reflexivity.
Qed.

Lemma Forall_firstn_le {A : Type} (P : A -> Prop) (l : list A) (i j : nat) :
  (i <= j)%nat -> Forall P (firstn j l) -> Forall P (firstn i l).
Proof.
  revert i j. induction l as [| x l IH]; intros i j Hij H.
  - rewrite firstn_nil. constructor.
  - destruct i as [| i]; [constructor |].
    destruct j as [| j]; [lia |].
    cbn in *. inversion H; subst.
    constructor; [assumption |]. apply (IH i j); [lia | assumption].
Qed.

Local Open Scope nat_scope.

Lemma simulateMission_outcome (debris : CatalogDebris)
    (allPasses : list StationPass) :
  StronglySorted (fun p q => (startTime (sp_pass p) <= startTime (sp_pass q))%Z)
    allPasses ->
  match simulateMission debris allPasses with
  | Alerted => False
  | Thrown =>
      allPasses = [] \/ isReEntryAchieved (cat_perigee debris) = true
  | Published r => published_ok debris allPasses r
  end.
Proof.
  intros Hsorted. unfold simulateMission.
  match goal with
  | |- context [mapIndexed ?f allPasses 0] =>
      set (passDetails := mapIndexed f allPasses 0);
      assert (Hdetail : forall k detail,
                nth_error passDetails k = Some detail ->
                detail_passNumber detail = S k)
  end.
  { intros k detail H. apply mapIndexed_nth in H.
    destruct H as (x & _ & ->). cbn. lia. }
  assert (Hlen : length passDetails = length allPasses)
    by apply mapIndexed_length.
  set (evo := trackPerigeeEvolution (cat_perigee debris) (cat_apogee debris)
                (map detail_deltaV passDetails)).
  assert (Hevo : length evo = S (length allPasses)).
  { unfold evo. rewrite trackPerigeeEvolution_length, length_map. lia. }
  pose proof (find_first (fun e => isReEntryAchieved (perigeeAlt e)) evo) as F.
  destruct (trackPerigeeEvolution_first (cat_perigee debris)
              (cat_apogee debris) (map detail_deltaV passDetails))
    as (e0 & He0 & Hp0).
  fold evo in He0.
  destruct (find (fun e => isReEntryAchieved (perigeeAlt e)) evo) as [e |].
  - (* re-entry is reached at some entry *)
    destruct F as (j & Hj & He & Hbefore).
    assert (Hpn : passNumber e = j)
      by (apply (trackPerigeeEvolution_passNumber _ _ _ _ _ Hj)).
    rewrite Hpn.
    assert (Hjlt : j < length evo) by (apply nth_error_Some; congruence).
    destruct allPasses as [| first rest] eqn:Eall; cbn [nth_error];
      [left; reflexivity |].
    destruct j as [| j].
    + replace (Z.min (Z.of_nat 0 - 1)
                 (Z.of_nat (length (first :: rest)) - 1) <? 0)%Z
        with true by (symmetry; apply Z.ltb_lt; lia).
      right. rewrite He0 in Hj. injection Hj as <-. rewrite <- Hp0. exact He.
    + replace (Z.min (Z.of_nat (S j) - 1) (Z.of_nat (length (first :: rest)) - 1))
        with (Z.of_nat j) by (cbn [length] in *; lia).
      replace (Z.of_nat j <? 0)%Z with false by (symmetry; apply Z.ltb_ge; lia).
      rewrite Nat2Z.id.
      destruct (nth_error (first :: rest) j) as [last |] eqn:Elast.
      2: { apply nth_error_None in Elast. cbn [length] in *. lia. }
      unfold published_ok.
      cbn [res_totalPasses res_passesNeeded res_reEntryAchieved
           res_finalPerigee res_orbitalEvolution res_passDetails
           res_durationDays].
      split; [discriminate |]. split.
      { rewrite Forall_forall in Hbefore. rewrite <- Hp0.
        apply Hbefore. apply nth_error_In with 0.
        rewrite nth_error_firstn. cbn. exact He0. }
      split; [reflexivity |].
      split; [cbn [length] in *; lia |].
      split; [split; [intros _; cbn [length] in *; lia | reflexivity] |].
      split; [intros _; exact He |].
      split.
      { apply Forall_firstn_le with (j := S j); [lia | exact Hbefore]. }
      split; [rewrite length_firstn; lia |].
      split; [rewrite length_firstn; lia |].
      split.
      { intros k detail H. apply Hdetail.
        rewrite nth_error_firstn in H.
        destruct (k <? Nat.min 20 (S j)); [exact H | discriminate H]. }
      fin_arith. rewrite div_Fin by lra.
      eexists. split; [reflexivity |].
      assert (Hle : (startTime (sp_pass first) <= startTime (sp_pass last))%Z).
      { destruct j as [| j]; cbn in Elast.
        - injection Elast as <-. lia.
        - inversion Hsorted as [| ? ? _ Hall]; subst.
          rewrite Forall_forall in Hall. apply Hall.
          apply nth_error_In with j. exact Elast. }
      split.
      * apply Rmult_le_pos; [| lra].
        apply IZR_le. lia.
      * intros E1. assert (j = 0) by lia. subst j.
        cbn in Elast. injection Elast as <-.
        replace (startTime (sp_pass first) - startTime (sp_pass first))%Z
          with 0%Z by lia.
        cbn. lra.
  - (* re-entry is never reached *)
    rewrite Hevo.
    replace (S (length allPasses) - 1) with (length allPasses) by lia.
    destruct (nth_error evo (length allPasses)) as [elast |] eqn:Eevo.
    2: { apply nth_error_None in Eevo. lia. }
    cbn [option_map].
    destruct allPasses as [| first rest] eqn:Eall; cbn [nth_error];
      [left; reflexivity |].
    replace (Z.min (Z.of_nat (S (length (first :: rest))) - 1)
               (Z.of_nat (length (first :: rest)) - 1))
      with (Z.of_nat (length rest)) by (cbn [length]; lia).
    replace (Z.of_nat (length rest) <? 0)%Z with false
      by (symmetry; apply Z.ltb_ge; lia).
    rewrite Nat2Z.id.
    destruct (nth_error (first :: rest) (length rest)) as [last |] eqn:Elast.
    2: { apply nth_error_None in Elast. cbn [length] in *. lia. }
    unfold published_ok.
    cbn [res_totalPasses res_passesNeeded res_reEntryAchieved
         res_finalPerigee res_orbitalEvolution res_passDetails
         res_durationDays].
    split; [discriminate |]. split.
    { rewrite Forall_forall in F. rewrite <- Hp0.
      apply (F e0). apply nth_error_In with 0. exact He0. }
    split; [reflexivity |].
    split; [cbn [length] in *; lia |].
    split; [split; [discriminate | cbn [length]; lia] |].
    split; [discriminate |].
    split.
    { rewrite <- (firstn_skipn (Nat.min 50 (S (length (first :: rest)))) evo)
        in F.
      apply Forall_app in F. exact (proj1 F). }
    split; [rewrite length_firstn; lia |].
    split; [rewrite length_firstn; lia |].
    split.
    { intros k detail H. apply Hdetail.
      rewrite nth_error_firstn in H.
      destruct (k <? Nat.min 20 (S (length (first :: rest))));
        [exact H | discriminate H]. }
    fin_arith. rewrite div_Fin by lra.
    eexists. split; [reflexivity |].
    assert (Hle : (startTime (sp_pass first) <= startTime (sp_pass last))%Z).
    { destruct (length rest) as [| j]; cbn in Elast.
      - injection Elast as <-. lia.
      - inversion Hsorted as [| ? ? _ Hall]; subst.
        rewrite Forall_forall in Hall. apply Hall.
        apply nth_error_In with j. exact Elast. }
    split.
    * apply Rmult_le_pos; [| lra]. apply IZR_le. lia.
    * cbn [length]. intros E1. lia.
Qed.

Lemma collectPasses_sorted (stations : list Station) :
  StronglySorted
    (fun p q => (startTime (sp_pass p) <= startTime (sp_pass q))%Z)
    (collectPasses stations).
Proof.
  unfold collectPasses.
  match goal with
  | |- context [sortBy ?key ?l] =>
      exact (proj1 (VisibilityMore.sortBy_sorted_perm StationPass key l))
  end.
Qed.

Lemma collectPasses_collected (stations : list Station) :
  Forall (collected_pass stations) (collectPasses stations).
Proof.
  unfold collectPasses.
  match goal with
  | |- context [sortBy ?key ?l] =>
      destruct (VisibilityMore.sortBy_sorted_perm StationPass key l) as [_ P];
      apply (Permutation_Forall (x := l)); [symmetry; exact P |]
  end.
  apply Forall_forall. intros sp Hsp.
  apply in_flat_map in Hsp. destruct Hsp as (s & Hs & Hsp).
  apply in_map_iff in Hsp. destruct Hsp as (p & <- & Hp).
  exists s. cbn [sp_stationId sp_stationName sp_pass].
  split; [exact Hs |]. split; [reflexivity |]. split; [reflexivity |].
  destruct (VisibilityMore.windows_sound (elevationFrom s) (azimuthFrom s)
              (callTime s) 90 (Fin 20)) as [_ F].
  rewrite Forall_forall in F. apply F. exact Hp.
Qed.

(** X30.  What a click leads to.  The alert, exactly when no debris is
    selected or no station is placed.  An exception in the timer
    callback, exactly when no station has a window or the perigee is
    below the re-entry threshold to begin with: nothing is published
    then.  Else the results, with the bookkeeping of [published_ok];
    the passes they are computed from are real windows of the stations,
    in the order of their start times. *)
Theorem runMissionSimulation_outcome
    (selectedDebris : option CatalogDebris) (stations : list Station) :
  let allPasses := collectPasses stations in
  StronglySorted
    (fun p q => (startTime (sp_pass p) <= startTime (sp_pass q))%Z)
    allPasses /\
  Forall (collected_pass stations) allPasses /\
  match runMissionSimulation selectedDebris stations with
  | Alerted => selectedDebris = None \/ stations = []
  | Thrown =>
      exists debris,
        selectedDebris = Some debris /\ stations <> [] /\
        (allPasses = [] \/ isReEntryAchieved (cat_perigee debris) = true)
  | Published r =>
      exists debris,
        selectedDebris = Some debris /\ stations <> [] /\
        published_ok debris allPasses r
  end.
Proof.
  cbv zeta.
  split; [apply collectPasses_sorted |].
  split; [apply collectPasses_collected |].
  unfold runMissionSimulation.
  destruct selectedDebris as [debris |]; [| left; reflexivity].
  destruct stations as [| s stations]; [right; reflexivity |].
  pose proof (simulateMission_outcome debris (collectPasses (s :: stations))
                (collectPasses_sorted (s :: stations))) as H.
  destruct (simulateMission debris (collectPasses (s :: stations))) as [| | r].
  - contradiction.
  - exists debris. split; [reflexivity |]. split; [discriminate | exact H].
  - exists debris. split; [reflexivity |]. split; [discriminate | exact H].
Qed.

End MissionPlannerFacts.
